(** * afFIRM: the request dispatcher, the process runner, the log
      classifier, the history ledger and the run store

    A shallow embedding of the Python sources

      - [firmae_lib/analysis.py]      ([_safe_tail], [_analyze_logs],
                                       [_collect_failure_context])
      - [firmae_lib/logger.py]        ([_next_record_number],
                                       [append_emulation_record])
      - [firmae_lib/sqlite_helper.py] ([kb_init], [kb_insert_run],
                                       [kb_insert_analysis])
      - [firmae_mcp.py]               ([run_cmd] and the read loop)

    Python [str] values are modelled by [string]; every character stands
    for the code point of the same number, so the texts covered are the
    ones whose code points are below 256.  Python [int] is [Z]. *)

From Stdlib Require Import Bool Arith ZArith Lia List Ascii String.
From Stdlib Require Import Permutation Sorted RelationClasses OrdersEx.
From Stdlib Require Decimal DecimalString DecimalZ.
Import ListNotations.

Local Open Scope string_scope.
Local Open Scope list_scope.

(* ================================================================= *)
(** ** Python string primitives *)

Module PyStr.

Definition code (c : ascii) : N := N_of_ascii c.

Definition in_range (lo hi : N) (c : ascii) : bool :=
  (N.leb lo (code c) && N.leb (code c) hi)%bool.

(** Truthiness of a [str]: the empty string is falsy. *)
Definition truthy (s : string) : bool :=
  match s with EmptyString => false | String _ _ => true end.

(** [sep.join(parts)] *)
Definition join (sep : string) (parts : list string) : string :=
  String.concat sep parts.

Definition LF : ascii := ascii_of_N 10.
Definition CR : ascii := ascii_of_N 13.
Definition DQUOTE : ascii := ascii_of_N 34.
Definition nl : string := String LF EmptyString.

(** [s.startswith(p)] *)
Fixpoint startswith (p s : string) : bool :=
  match p with
  | EmptyString => true
  | String a p' =>
      match s with
      | String c s' => (Ascii.eqb a c && startswith p' s')%bool
      | EmptyString => false
      end
  end.

(** [s.endswith(p)] *)
Fixpoint endswith (p s : string) : bool :=
  (String.eqb p s
   || match s with
      | EmptyString => false
      | String _ s' => endswith p s'
      end)%bool.

(** [needle in s] *)
Fixpoint contains (needle s : string) : bool :=
  (startswith needle s
   || match s with
      | EmptyString => false
      | String _ s' => contains needle s'
      end)%bool.

(** ASCII case folding, the only folding that can relate a character
    below 256 with an ASCII character of a pattern. *)
Definition lower (c : ascii) : ascii :=
  if in_range 65 90 c then ascii_of_N (code c + 32) else c.

(** [str.isspace] on one character (code points below 256). *)
Definition is_space (c : ascii) : bool :=
  (in_range 9 13 c || in_range 28 32 c
   || N.eqb (code c) 133 || N.eqb (code c) 160)%bool.

(** Stripping the characters of a class from both ends. *)
Fixpoint lstrip_of (sp : ascii -> bool) (s : string) : string :=
  match s with
  | EmptyString => EmptyString
  | String c s' => if sp c then lstrip_of sp s' else s
  end.

Fixpoint rstrip_of (sp : ascii -> bool) (s : string) : string :=
  match s with
  | EmptyString => EmptyString
  | String c s' =>
      match rstrip_of sp s' with
      | EmptyString => if sp c then EmptyString else String c EmptyString
      | r => String c r
      end
  end.

Definition strip_of (sp : ascii -> bool) (s : string) : string :=
  rstrip_of sp (lstrip_of sp s).

(** [s.strip()] *)
Definition strip (s : string) : string := strip_of is_space s.

(** Python slicing [s[:stop]] and [l[start:]] with negative indices. *)
Definition clip (len : nat) (i : Z) : nat :=
  if (i <? 0)%Z then Z.to_nat (Z.max 0 (Z.of_nat len + i))
  else Nat.min len (Z.to_nat i).

Definition slice_to (stop : Z) (s : string) : string :=
  substring 0 (clip (String.length s) stop) s.

Definition slice_from {A} (start : Z) (l : list A) : list A :=
  skipn (clip (List.length l) start) l.

Fixpoint any_chr (p : ascii -> bool) (s : string) : bool :=
  match s with
  | EmptyString => false
  | String c s' => (p c || any_chr p s')%bool
  end.

End PyStr.

(* ================================================================= *)
(** ** The fragment of [re] the sources use *)

Module Re.
Import PyStr.

(** Patterns.  Repetition is only ever applied to a character class in
    the sources ([.*], [\d+], [[0-?]*], ...). *)
Inductive regex : Type :=
| Lit (s : string)
| One (p : ascii -> bool)
| Star (p : ascii -> bool)
| Plus (p : ascii -> bool)
| Seq (r1 r2 : regex)
| Alt (r1 r2 : regex)
| WordB.

(** [.] without DOTALL: anything but a line feed. *)
Definition dot (c : ascii) : bool := negb (Ascii.eqb c LF).

(** [\d]: the decimal digits below 256 are 0-9. *)
Definition digit (c : ascii) : bool := in_range 48 57 c.

(** [\w] for [str] patterns: alphanumeric or underscore.  Below 256
    the alphanumerics are 0-9, A-Z, a-z and the Latin-1 letters,
    superscript digits and vulgar fractions. *)
Definition word (c : ascii) : bool :=
  (in_range 48 57 c || in_range 65 90 c || in_range 97 122 c
   || N.eqb (code c) 95
   || N.eqb (code c) 170 || N.eqb (code c) 178 || N.eqb (code c) 179
   || N.eqb (code c) 181 || N.eqb (code c) 185 || N.eqb (code c) 186
   || in_range 188 190 c || in_range 192 214 c || in_range 216 246 c
   || in_range 248 255 c)%bool.

Definition word_opt (o : option ascii) : bool :=
  match o with Some c => word c | None => false end.

Definition head (s : string) : option ascii :=
  match s with EmptyString => None | String c _ => Some c end.

(** A position in the subject: the character before it and the rest. *)
Definition pos : Type := (option ascii * string)%type.

Definition chr_eq (ci : bool) (a c : ascii) : bool :=
  if ci then Ascii.eqb (lower a) (lower c) else Ascii.eqb a c.

Fixpoint lit_ends (ci : bool) (l : string) (prev : option ascii) (s : string)
  : list pos :=
  match l with
  | EmptyString => [(prev, s)]
  | String a l' =>
      match s with
      | String c s' => if chr_eq ci a c then lit_ends ci l' (Some c) s' else []
      | EmptyString => []
      end
  end.

(** Greedy repetition: the longest run first, as the backtracking
    matcher tries them. *)
Fixpoint star_ends (p : ascii -> bool) (prev : option ascii) (s : string)
  : list pos :=
  match s with
  | String c s' =>
      if p c then star_ends p (Some c) s' ++ [(prev, s)] else [(prev, s)]
  | EmptyString => [(prev, s)]
  end.

(** All the positions where a match of [r] starting at [(prev, s)] can
    end, in the order in which backtracking finds them.  [ci] is the
    IGNORECASE flag. *)
Fixpoint ends (ci : bool) (r : regex) (st : pos) : list pos :=
  let '(prev, s) := st in
  match r with
  | Lit l => lit_ends ci l prev s
  | One p =>
      match s with
      | String c s' => if p c then [(Some c, s')] else []
      | EmptyString => []
      end
  | Star p => star_ends p prev s
  | Plus p =>
      match s with
      | String c s' => if p c then star_ends p (Some c) s' else []
      | EmptyString => []
      end
  | Seq r1 r2 => flat_map (ends ci r2) (ends ci r1 st)
  | Alt r1 r2 => ends ci r1 st ++ ends ci r2 st
  | WordB => if xorb (word_opt prev) (word_opt (head s)) then [st] else []
  end.

Definition matches_here (ci : bool) (r : regex) (st : pos) : bool :=
  match ends ci r st with [] => false | _ :: _ => true end.

Fixpoint search_from (ci : bool) (r : regex) (prev : option ascii) (s : string)
  : bool :=
  (matches_here ci r (prev, s)
   || match s with
      | String c s' => search_from ci r (Some c) s'
      | EmptyString => false
      end)%bool.

(** [bool(re.search(pat, s, flags))] *)
Definition search (ci : bool) (r : regex) (s : string) : bool :=
  search_from ci r None s.

(** Number of characters consumed by the first match at a position. *)
Definition match_len (ci : bool) (r : regex) (st : pos) : option nat :=
  match ends ci r st with
  | [] => None
  | (_, rest) :: _ => Some (String.length (snd st) - String.length rest)
  end.

(** [pat.sub("", s)] for a pattern that never matches the empty
    string: [skip] characters of a match are still to be dropped. *)
Fixpoint sub_empty_go (r : regex) (skip : nat) (prev : option ascii)
  (s : string) : string :=
  match s with
  | EmptyString => EmptyString
  | String c s' =>
      match skip with
      | S k => sub_empty_go r k (Some c) s'
      | O =>
          match match_len false r (prev, s) with
          | Some (S k) => sub_empty_go r k (Some c) s'
          | _ => String c (sub_empty_go r O (Some c) s')
          end
      end
  end.

Definition sub_empty (r : regex) (s : string) : string :=
  sub_empty_go r O None s.

Definition alts (l : list string) : regex :=
  match l with
  | [] => Lit EmptyString
  | x :: xs => fold_left (fun acc y => Alt acc (Lit y)) xs (Lit x)
  end.

End Re.

(* ================================================================= *)
(** ** Python [set] and [sorted] over [str] *)

Module PySet.

(** The order in which a [set] of [str] is iterated is not fixed by
    the language (it follows the hashes, which change with the hash
    seed of the run).  All that is known of [list(set(l))] is that it
    holds each element of [l] once. *)
Class SetIteration : Type := {
  enum : list string -> list string;
  enum_nodup : forall l, NoDup (enum l);
  enum_in : forall l x, In x (enum l) <-> In x l
}.

(** Text order: code point by code point. *)
Definition str_leb (a b : string) : bool :=
  match String_as_OT.compare a b with Gt => false | _ => true end.

Definition str_lt (a b : string) : Prop := String_as_OT.compare a b = Lt.

Fixpoint insert (x : string) (l : list string) : list string :=
  match l with
  | [] => [x]
  | y :: l' => if str_leb x y then x :: l else y :: insert x l'
  end.

(** [sorted(l)] *)
Fixpoint sorted (l : list string) : list string :=
  match l with
  | [] => []
  | x :: l' => insert x (sorted l')
  end.

(** Two iteration orders, for two runs of the interpreter. *)
#[export, refine] Instance first_seen : SetIteration :=
  {| enum := fun l => nodup string_dec l |}.
Proof.
  - intro l. apply NoDup_nodup.
  - intros l x. apply nodup_In.
Defined.

#[refine] Definition last_first : SetIteration :=
  {| enum := fun l => rev (nodup string_dec l) |}.
Proof.
  - intro l. apply NoDup_rev, NoDup_nodup.
  - intros l x. rewrite <- in_rev. apply nodup_In.
Defined.

Definition le (a b : string) : Prop := str_leb a b = true.

End PySet.

(* ================================================================= *)
(** ** firmae_lib/analysis.py *)

Module Analysis.
Import PyStr Re PySet.

(** A [dict[str, str]] in insertion order (its keys are distinct). *)
Definition bundle : Type := list (string * string).

(** [d.values()] *)
Definition values (d : bundle) : list string := map snd d.

(** [d.get(k, default)] *)
Fixpoint dict_get (d : bundle) (k : string) (default : string) : string :=
  match d with
  | [] => default
  | (k', v) :: d' => if String.eqb k' k then v else dict_get d' k default
  end.

Definition dotstar : regex := Star dot.

Definition re_filesystem : regex :=
  Alt (Seq (alts ["mke2fs"; "e2fsck"])
         (Seq dotstar (alts ["error"; "aborted"; "unable"; "fail"])))
    (Alt (Seq (Lit "No such file or directory")
            (Seq dotstar (alts ["root"; "image"])))
       (Seq (Lit "mount:") (Seq dotstar (Lit "failed")))).

Definition re_architecture : regex :=
  Alt (Alt (Alt (Alt (Lit "Unknown architecture") (Lit "binfmt_misc"))
              (Lit "Exec format error"))
         (Seq (Lit "qemu-") (Seq dotstar (Lit ": Could not open"))))
    (Seq (Lit "get architecture") (Seq dotstar (Lit "fail"))).

Definition re_qemu : regex :=
  Alt (Alt (Alt (Alt (Lit "Kernel panic") (Lit "Unable to mount root"))
              (Lit "Segmentation fault"))
         (Seq (Lit "qemu: ") (Seq dotstar (Lit "error"))))
    (Lit "end Kernel panic").

Definition re_network : regex :=
  Alt (Seq (alts ["tap"; "bridge"; "br_add_if"; "br_dev_ioctl"; "SIOCSIF"])
         (Seq dotstar (Seq (Lit " ") (alts ["fail"; "error"; "denied"]))))
    (Lit "Network unreachable").

Definition re_permission : regex :=
  alts ["Permission denied"; "Operation not permitted"; "cap_net_admin"].

Definition re_timeout : regex :=
  Seq WordB (Seq (alts ["timeout"; "timed out"]) WordB).

Definition re_web : regex :=
  Alt (Alt (Alt (Seq (Lit "Web service on ")
                   (Seq dotstar (Seq (Lit " ") (alts ["down"; "failed"]))))
              (Seq (Lit "httpd") (Seq dotstar (Lit "fail"))))
         (Seq (Lit "lighttpd") (Seq dotstar (Lit "fail"))))
    (Seq (Lit "nginx") (Seq dotstar (Lit "fail"))).

(** (title, pattern, IGNORECASE) *)
Definition PATTERNS : list (string * regex * bool) :=
  [ ("Filesystem image build error", re_filesystem, true);
    ("Architecture / binfmt issue", re_architecture, true);
    ("QEMU boot/kernel failure", re_qemu, true);
    ("Network bridging/tap error", re_network, true);
    ("Permission / capability problem", re_permission, true);
    ("Timeout / watchdog", re_timeout, true);
    ("Web service did not come up", re_web, true) ].

(** [Network reachable on \d+\.\d+\.\d+\.\d+] *)
Definition re_reachable : regex :=
  Seq (Lit "Network reachable on ")
    (Seq (Plus digit) (Seq (Lit ".")
    (Seq (Plus digit) (Seq (Lit ".")
    (Seq (Plus digit) (Seq (Lit ".") (Plus digit))))))).

(** [Web service on .*] *)
Definition re_web_on : regex := Seq (Lit "Web service on ") dotstar.

Definition web_hint : string :=
  "Network reachable but web service not detected".

(** ["\n".join(v for v in text_by_name.values() if v)] *)
Definition combined (text_by_name : bundle) : string :=
  join nl (filter truthy (values text_by_name)).

(** The loop over [PATTERNS]: the titles of the rules that fire, in
    the order of the table. *)
Fixpoint fired (rules : list (string * regex * bool)) (text : string)
  : list string :=
  match rules with
  | [] => []
  | (title, pat, flags) :: rest =>
      if search flags pat text then title :: fired rest text
      else fired rest text
  end.

(** The list [reasons] just before [sorted(set(reasons))]. *)
Definition reasons_of (text_by_name : bundle) : list string :=
  let text := combined text_by_name in
  let reasons := fired PATTERNS text in
  let mk := dict_get text_by_name "makeNetwork.log" "" in
  if (truthy mk && search false re_reachable mk
      && negb (search false re_web_on text))%bool
  then reasons ++ [web_hint]
  else reasons.

Definition _analyze_logs `{SetIteration} (text_by_name : bundle)
  : list string :=
  sorted (enum (reasons_of text_by_name)).

(** What [_safe_tail] finds at [path]. *)
Inductive file_state : Type :=
| Missing
    (** [os.path.exists(path)] is false *)
| Unreadable (e : string)
    (** the file exists and [getsize], [open], [seek] or [read]
        raises an exception whose text is [e] *)
| Readable (data : list Byte.byte).

(** [str.splitlines]: the line boundaries below 256 are LF, VT, FF,
    CR, FS, GS, RS, NEL, and CR LF counts as one. *)
Definition is_linebreak (c : ascii) : bool :=
  (in_range 10 13 c || in_range 28 30 c || N.eqb (code c) 133)%bool.

Fixpoint splitlines_acc (acc : string) (s : string) : list string :=
  match s with
  | EmptyString => if truthy acc then [acc] else []
  | String c s' =>
      if is_linebreak c then
        acc ::
          (if Ascii.eqb c CR then
             match s' with
             | String c2 s'' =>
                 if Ascii.eqb c2 LF then splitlines_acc EmptyString s''
                 else splitlines_acc EmptyString s'
             | EmptyString => splitlines_acc EmptyString s'
             end
           else splitlines_acc EmptyString s')
      else splitlines_acc (acc ++ String c EmptyString) s'
  end.

Definition splitlines (s : string) : list string :=
  splitlines_acc EmptyString s.

Section Tail.

(** [data.decode("utf-8", "replace")]: lenient, never raises. *)
Variable decode_replace : list Byte.byte -> string.

Definition _safe_tail (st : file_state) (path : string)
  (max_bytes max_lines : Z) : string :=
  match st with
  | Missing => EmptyString
  | Unreadable e => "[could not read " ++ path ++ ": " ++ e ++ "]"
  | Readable bytes =>
      let size := Z.of_nat (List.length bytes) in
      let data :=
        if (size >? max_bytes)%Z
        then skipn (Z.to_nat (size - max_bytes)) bytes
        else bytes in
      let text := decode_replace data in
      let lines := slice_from (- max_lines) (splitlines text) in
      join nl lines
  end.

Definition LOG_NAMES : list string :=
  ["makeImage.log"; "makeNetwork.log"; "qemu.final.serial.log";
   "emulation.log"].

(** [os.path.join(d, fname)] for a relative [fname]. *)
Definition path_join (d fname : string) : string :=
  if (negb (truthy d) || endswith "/" d)%bool then d ++ fname
  else d ++ "/" ++ fname.

(** [fs] is the directory tree; [iid_dir] is what [_latest_iid_dir]
    found under the scratch root. *)
Definition _collect_failure_context (fs : string -> file_state)
  (iid_dir : option string) : option string * bundle :=
  match iid_dir with
  | None => (None, [])
  | Some d =>
      (Some d,
       map (fun fname =>
              let fpath := path_join d fname in
              (fname, _safe_tail (fs fpath) fpath 64000 200))
         LOG_NAMES)
  end.

(** [any(texts.get(k) for k in (...))] in [handle_call]. *)
Definition have_any_logs (texts : bundle) : bool :=
  existsb (fun k => truthy (dict_get texts k EmptyString)) LOG_NAMES.

End Tail.

(** *** Texts and bundles the properties speak of *)

Definition WEB_ON : string := "Web service on ".

Definition no_lf (n : string) : Prop :=
  any_chr (Ascii.eqb LF) n = false.

Definition no_linebreak (s : string) : Prop :=
  any_chr is_linebreak s = false.

Definition kernel_panic : bundle :=
  [("qemu.final.serial.log", "Kernel panic - not syncing")].

(** The same attempt as [_collect_failure_context] lays it out. *)
Definition kernel_panic_full : bundle :=
  [("makeImage.log", ""); ("makeNetwork.log", "");
   ("qemu.final.serial.log", "Kernel panic - not syncing");
   ("emulation.log", "")].

Definition reachable_only : bundle :=
  [("makeNetwork.log", "Network reachable on 10.0.0.1")].

(** The failing read of the example: makeImage.log of the latest
    attempt exists and cannot be opened. *)
Definition denied : string :=
  "[Errno 13] Permission denied: '/scratch/1/makeImage.log'".

Definition denied_fs (p : string) : file_state :=
  if String.eqb p "/scratch/1/makeImage.log" then Unreadable denied
  else Missing.

End Analysis.

(* ================================================================= *)
(** ** firmae_lib/logger.py *)

Module Logger.
Import PyStr.

Definition _to_bool_str (val : bool) : string :=
  if val then "true" else "false".

(** A file as the logger meets it. *)
Inductive text_file : Type :=
| NoFile
    (** [os.path.exists] is false *)
| Broken
    (** the file exists and cannot be opened, decoded or written *)
| Text (content : string).

(** [_safe_read]: the stripped content, or the empty string. *)
Definition _safe_read (f : text_file) : string :=
  match f with
  | Text t => strip t
  | _ => EmptyString
  end.

(** [str.lower] on code points below 256. *)
Definition py_lower_chr (c : ascii) : ascii :=
  if (in_range 65 90 c
      || (in_range 192 222 c && negb (N.eqb (code c) 215)))%bool
  then ascii_of_N (code c + 32) else c.

Fixpoint py_lower (s : string) : string :=
  match s with
  | EmptyString => EmptyString
  | String c s' => String (py_lower_chr c) (py_lower s')
  end.

Definition mem (s : string) (l : list string) : bool :=
  existsb (String.eqb s) l.

Section ParseBool.

(** [float(s) != 0.0], or [None] where [float(s)] raises. *)
Variable float_nonzero : string -> option bool.

Definition _parse_bool (s : string) : option bool :=
  let s := py_lower (strip s) in
  if negb (truthy s) then None
  else if mem s ["1"; "true"; "yes"; "y"; "ok"; "success"; "on";
                 "reachable"; "up"] then Some true
  else if mem s ["0"; "false"; "no"; "n"; "fail"; "failed"; "off";
                 "unreachable"; "down"] then Some false
  else float_nonzero s.

End ParseBool.

(** Iterating a file opened in text mode: LF, CR and CR LF end a line
    and are read as LF; every line keeps its terminator. *)
Fixpoint readlines_acc (acc : string) (s : string) : list string :=
  match s with
  | EmptyString => if truthy acc then [acc] else []
  | String c s' =>
      if Ascii.eqb c LF then (acc ++ nl)%string :: readlines_acc EmptyString s'
      else if Ascii.eqb c CR then
        (acc ++ nl)%string ::
          match s' with
          | String c2 s'' =>
              if Ascii.eqb c2 LF then readlines_acc EmptyString s''
              else readlines_acc EmptyString s'
          | EmptyString => readlines_acc EmptyString s'
          end
      else readlines_acc (acc ++ String c EmptyString) s'
  end.

Definition readlines (content : string) : list string :=
  readlines_acc EmptyString content.

(** [s.split(",")[0]] *)
Fixpoint first_col (s : string) : string :=
  match s with
  | EmptyString => EmptyString
  | String c s' =>
      if Ascii.eqb c "," then EmptyString else String c (first_col s')
  end.

(** The digits of an [int] literal as [int()] takes them: decimal
    digits, single underscores between digits only. *)
Fixpoint int_digits (prev_digit : bool) (s : string) : option string :=
  match s with
  | EmptyString => if prev_digit then Some EmptyString else None
  | String c s' =>
      if Re.digit c then option_map (String c) (int_digits true s')
      else if Ascii.eqb c "_" then
        if prev_digit then int_digits false s' else None
      else None
  end.

Definition int_magnitude (s : string) : option Z :=
  match int_digits false s with
  | Some d => option_map Z.of_uint (DecimalString.NilEmpty.uint_of_string d)
  | None => None
  end.

(** The white space [int()] skips around a literal: the ASCII white
    space, NEL and the no-break space; unlike [str.strip] it does not
    skip the separators FS, GS, RS and US. *)
Definition is_int_space (c : ascii) : bool :=
  (in_range 9 13 c || N.eqb (code c) 32
   || N.eqb (code c) 133 || N.eqb (code c) 160)%bool.

(** [int(s)], [None] for ValueError (the interpreter's limit on the
    number of digits is left out). *)
Definition py_int (s : string) : option Z :=
  match strip_of is_int_space s with
  | String c r =>
      if Ascii.eqb c "+" then int_magnitude r
      else if Ascii.eqb c "-" then option_map Z.opp (int_magnitude r)
      else int_magnitude (String c r)
  | EmptyString => None
  end.

(** [str(n)] for an [int]. *)
Definition py_str_int (n : Z) : string :=
  DecimalString.NilEmpty.string_of_int (Z.to_int n).

(** [[ln.strip() for ln in f if ln.strip()]] *)
Definition nonblank_rows (content : string) : list string :=
  filter truthy (map strip (readlines content)).

Definition _next_record_number (csv : text_file) : Z :=
  match csv with
  | NoFile => 1
  | Broken => 1
  | Text content =>
      let last_num := 0%Z in
      let rows := nonblank_rows content in
      if (2 <=? List.length rows)%nat then
        match py_int (first_col (last rows EmptyString)) with
        | Some last_num => last_num + 1
        | None =>
            let count := (Z.of_nat (List.length (readlines content)) - 1)%Z in
            Z.max 1 (count + 1)
        end
      else (last_num + 1)%Z
  end.

(** [os.path.basename] *)
Fixpoint basename_acc (acc : string) (s : string) : string :=
  match s with
  | EmptyString => acc
  | String c s' =>
      if Ascii.eqb c "/" then basename_acc EmptyString s'
      else basename_acc (acc ++ String c EmptyString) s'
  end.

Definition basename (p : string) : string := basename_acc EmptyString p.

(** [os.path.splitext(name)[0]] for a name without a separator: cut at
    the last dot unless only dots precede it. *)
Fixpoint splitext_root (seen_other : bool) (s : string) : string * bool :=
  match s with
  | EmptyString => (EmptyString, false)
  | String c s' =>
      let is_dot := Ascii.eqb c "." in
      let '(r, cut) := splitext_root (seen_other || negb is_dot) s' in
      if cut then (String c r, true)
      else if (is_dot && seen_other)%bool then (EmptyString, true)
      else (String c r, false)
  end.

Definition splitext0 (name : string) : string :=
  fst (splitext_root false name).

(** A field as [csv.writer] writes it (excel dialect, minimal
    quoting). *)
Definition needs_quote (c : ascii) : bool :=
  (Ascii.eqb c "," || Ascii.eqb c DQUOTE || Ascii.eqb c CR
   || Ascii.eqb c LF)%bool.

Fixpoint double_quotes (s : string) : string :=
  match s with
  | EmptyString => EmptyString
  | String c s' =>
      if Ascii.eqb c DQUOTE then String c (String c (double_quotes s'))
      else String c (double_quotes s')
  end.

Definition csv_field (f : string) : string :=
  if any_chr needs_quote f
  then String DQUOTE (double_quotes f ++ String DQUOTE EmptyString)%string
  else f.

Definition CRLF : string := String CR (String LF EmptyString).

Definition csv_line (fields : list string) : string :=
  (join "," (map csv_field fields) ++ CRLF)%string.

Definition header : list string :=
  ["number"; "firmware_name"; "architecture"; "brand"; "ping"; "web";
   "result"].

Record row : Type := {
  number : Z;
  firmware_name : string;
  architecture : string;
  brand : string;
  ping : string;
  web : string;
  result : string
}.

Definition row_fields (r : row) : list string :=
  [py_str_int (number r); firmware_name r; architecture r; brand r;
   ping r; web r; result r].

(** The signal files of the latest [scratch/<iid>] directory. *)
Record signals : Type := {
  f_name : text_file;
  f_architecture : text_file;
  f_brand : text_file;
  f_ping : text_file;
  f_web : text_file;
  f_result : text_file
}.

Definition or_else (s default : string) : string :=
  if truthy s then s else default.

(** *** Shapes of lines and ledgers the properties speak of *)

Definition is_eol (c : ascii) : bool := (Ascii.eqb c CR || Ascii.eqb c LF)%bool.

(** No line break inside the text. *)
Definition line_free (s : string) : Prop := any_chr is_eol s = false.

(** Reading on after a CR: a LF that follows belongs to it. *)
Definition after_cr (s : string) : list string :=
  match s with
  | String c2 s'' =>
      if Ascii.eqb c2 LF then readlines_acc EmptyString s''
      else readlines_acc EmptyString s
  | EmptyString => readlines_acc EmptyString s
  end.

(** A text that starts and ends with a character that is no space. *)
Definition solid (s : string) : Prop :=
  (exists c rest, s = String c rest /\ is_space c = false)
  /\ (exists pre c, s = (pre ++ String c "")%string /\ is_space c = false).

Definition all_digits (s : string) : Prop :=
  any_chr (fun c => negb (Re.digit c)) s = false.

Definition flag (s : string) : Prop := s = "true" \/ s = "false".

(** The text fields of a row hold no line break. *)
Definition plain_row (r : row) : Prop :=
  line_free (firmware_name r) /\ line_free (architecture r)
  /\ line_free (brand r).

Definition row_line (r : row) : string :=
  join "," (map csv_field (row_fields r)).

Definition ends_solid (s : string) : Prop :=
  exists pre c, s = (pre ++ String c "")%string /\ is_space c = false.

Definition first_number (ln : string) : option Z := py_int (first_col ln).

(** The non-blank lines of the ledger are a header line and [k] rows
    numbered 1 to [k], and the file ends with a line terminator. *)
Definition ledger_of (k : nat) (csv : text_file) : Prop :=
  match k with
  | O => csv = NoFile
  | S _ =>
      exists c hdr rs,
        csv = Text (c ++ CRLF)
        /\ nonblank_rows (c ++ CRLF) = hdr :: rs
        /\ map first_number rs = map (fun i => Some (Z.of_nat i)) (seq 1 k)
  end.

Section Append.

Variable float_nonzero : string -> option bool.

(** [latest_dir] is [None] when the scratch root has no numeric
    directory; [csv] is [emulation_records.csv]. *)
Definition append_emulation_record (latest_dir : option signals)
  (csv : text_file) (fw_path brand_arg : string) (exit_code : Z)
  : row * text_file :=
  let firmware_name := splitext0 (basename fw_path) in
  let architecture := EmptyString in
  let brand_val := brand_arg in
  let ping_bool := false in
  let web_bool := false in
  let result_bool := (exit_code =? 0)%Z in
  let '(firmware_name, architecture, brand_val,
        ping_bool, web_bool, result_bool) :=
    match latest_dir with
    | Some d =>
        (or_else (_safe_read (f_name d)) firmware_name,
         or_else (_safe_read (f_architecture d)) architecture,
         or_else (_safe_read (f_brand d)) brand_val,
         match _parse_bool float_nonzero (_safe_read (f_ping d)) with
         | Some b => b | None => false end,
         match _parse_bool float_nonzero (_safe_read (f_web d)) with
         | Some b => b | None => false end,
         match _parse_bool float_nonzero (_safe_read (f_result d)) with
         | Some b => b | None => result_bool end)
    | None =>
        (firmware_name, architecture, brand_val,
         ping_bool, web_bool, result_bool)
    end in
  let r := {| number := _next_record_number csv;
              firmware_name := firmware_name;
              architecture := architecture;
              brand := brand_val;
              ping := _to_bool_str ping_bool;
              web := _to_bool_str web_bool;
              result := _to_bool_str result_bool |} in
  let csv' :=
    match csv with
    | NoFile => Text (csv_line header ++ csv_line (row_fields r))%string
    | Broken => Broken
    | Text content => Text (content ++ csv_line (row_fields r))%string
    end in
  (r, csv').

(** The ledgers that [k] calls of [append_emulation_record] write,
    from no file on, when no text field holds a line break. *)
Inductive written_by_append : nat -> text_file -> Prop :=
| wba_absent : written_by_append 0 NoFile
| wba_append k csv latest fw brand_arg exit_code :
    written_by_append k csv ->
    plain_row (fst (append_emulation_record latest csv fw
                      brand_arg exit_code)) ->
    written_by_append (S k)
      (snd (append_emulation_record latest csv fw brand_arg
              exit_code)).

End Append.

(** The sequence numbers a ledger records: the first column of every
    non-blank line after the header line, where it reads as an
    integer. *)
Definition recorded_numbers (csv : text_file) : list Z :=
  match csv with
  | Text content =>
      flat_map (fun ln => match py_int (first_col ln) with
                          | Some n => [n] | None => [] end)
        (tl (nonblank_rows content))
  | _ => []
  end.

(** The largest of the numbers, 0 when there is none (sequence numbers
    are positive). *)
Definition max_list (l : list Z) : Z := fold_right Z.max 0%Z l.

(** A ledger whose last row does not carry the largest number. *)
Definition out_of_order : text_file :=
  Text (csv_line header
        ++ csv_line ["5"; "a"; ""; "dlink"; "true"; "true"; "true"]
        ++ csv_line ["3"; "b"; ""; "dlink"; "true"; "false"; "false"]).

Definition no_float (s : string) : option bool := None.

Definition one_row : text_file :=
  snd (append_emulation_record no_float None NoFile "/firmware/a.bin"
         "dlink" 0).

Definition two_rows : text_file :=
  snd (append_emulation_record no_float None one_row "/firmware/b.bin"
         "netgear" 1).

End Logger.

(* ================================================================= *)
(** ** firmae_lib/sqlite_helper.py *)

Module SqliteHelper.
Import PyStr.

Section Store.

(** SQLite REAL values ([duration_sec]). *)
Context {real : Type}.

Record run_row : Type := {
  run_id : Z;
  run_ts : string;
  run_brand : option string;
  run_model : option string;
  run_firmware : string;
  run_iid_dir : option string;
  run_exit_code : Z;
  run_result_bool : option Z;
  run_duration_sec : real
}.

Record analysis_row : Type := {
  an_id : Z;
  an_run_id : Z;
  an_at_ts : string;
  an_source : string;
  an_summary : option string;
  an_content : string;
  an_reasons_json : option string
}.

Record fts_row : Type := {
  fts_rowid : Z;
  fts_summary : string;
  fts_content : string
}.

(** A table with an AUTOINCREMENT key: its rows in insertion order
    and the largest key ever handed out ([sqlite_sequence]). *)
Record table (R : Type) : Type := {
  rows : list R;
  high_water : Z
}.
Arguments rows {R}.
Arguments high_water {R}.

Inductive journal : Type := DELETE | WAL.

Record db : Type := {
  journal_mode : journal;
  runs : option (table run_row);
  analyses : option (table analysis_row);
  analyses_fts : option (list fts_row)
}.

(** What [sqlite3.connect] makes of a path with no file. *)
Definition empty_db : db :=
  {| journal_mode := DELETE; runs := None; analyses := None;
     analyses_fts := None |}.

Definition connect (file : option db) : db :=
  match file with Some d => d | None => empty_db end.

(** [CREATE TABLE IF NOT EXISTS] *)
Definition create_if_not_exists {T} (t : option T) (fresh : T) : option T :=
  match t with Some _ => t | None => Some fresh end.

Definition empty_table {R} : table R := {| rows := []; high_water := 0 |}.

Definition kb_init (file : option db) : db :=
  let con := connect file in
  {| journal_mode := WAL;
     runs := create_if_not_exists (runs con) empty_table;
     analyses := create_if_not_exists (analyses con) empty_table;
     analyses_fts := create_if_not_exists (analyses_fts con) [] |}.

(** The key AUTOINCREMENT gives the next row. *)
Definition next_id {R} (key : R -> Z) (t : table R) : Z :=
  1 + fold_right Z.max (high_water t) (map key (rows t)).

Definition insert_row {R} (key : R -> Z) (t : table R) (mk : Z -> R)
  : Z * table R :=
  let id := next_id key t in
  (id, {| rows := rows t ++ [mk id]; high_water := id |}).

(** The largest key of SQLite, 2^63-1.  An AUTOINCREMENT table whose
    largest key ever handed out is this one takes no further row. *)
Definition MAX_ROWID : Z := 9223372036854775807.

Definition DISK_FULL : string := "database or disk is full".

(** [kb_insert_run] returns the key and leaves the file changed
    ([inr]), or raises an exception of [sqlite3] ([inl], with its
    text).  [fault] is the exception that [sqlite3] raises for a reason
    which the tables of [db] do not show, where there is one: the
    file is no database, the table [runs] has other columns, the
    database is locked. *)
Definition kb_insert_run (file : option db) (fault : option string)
  (now : string)
  (brand model : option string) (firmware : string)
  (iid_dir : option string) (exit_code : Z) (result_bool : option bool)
  (duration_sec : real) : string + Z * db :=
  match fault with
  | Some e => inl e
  | None =>
      let con := kb_init file in
      match runs con with
      | None => inl "no such table: runs"
      | Some t =>
          if (MAX_ROWID <? next_id run_id t)%Z then inl DISK_FULL
          else
            let '(id, t') :=
              insert_row run_id t (fun id =>
                {| run_id := id;
                   run_ts := now ++ "Z";
                   run_brand := brand;
                   run_model := model;
                   run_firmware := firmware;
                   run_iid_dir := iid_dir;
                   run_exit_code := exit_code;
                   run_result_bool :=
                     match result_bool with
                     | None => None
                     | Some b => Some (if b then 1 else 0)%Z
                     end;
                   run_duration_sec := duration_sec |}) in
            inr (id, {| journal_mode := journal_mode con;
                        runs := Some t';
                        analyses := analyses con;
                        analyses_fts := analyses_fts con |})
      end
  end.

Definition TRUNCATED : string := nl ++ nl ++ "[truncated]".

(** [content if len(content) <= max_content
     else content[:max_content] + "\n\n[truncated]"] *)
Definition bounded (content : string) (max_content : Z) : string :=
  if (Z.of_nat (String.length content) <=? max_content)%Z then content
  else slice_to max_content content ++ TRUNCATED.

Definition opt_or_empty (s : option string) : string :=
  match s with Some t => t | None => EmptyString end.

(** [reasons_json] is the JSON text of the reasons, where given. *)
Definition kb_insert_analysis (file : option db) (now : string)
  (run_id' : Z) (source : string) (summary : option string)
  (content : string) (reasons_json : option string) (max_content : Z)
  : option (Z * db) :=
  let con := kb_init file in
  let b := bounded content max_content in
  match analyses con, analyses_fts con with
  | Some t, Some fts =>
      let '(rowid, t') :=
        insert_row an_id t (fun id =>
          {| an_id := id;
             an_run_id := run_id';
             an_at_ts := now ++ "Z";
             an_source := source;
             an_summary := summary;
             an_content := b;
             an_reasons_json := reasons_json |}) in
      let fts' := fts ++ [ {| fts_rowid := rowid;
                              fts_summary := opt_or_empty summary;
                              fts_content := b |} ] in
      Some (rowid, {| journal_mode := journal_mode con;
                      runs := runs con;
                      analyses := Some t';
                      analyses_fts := Some fts' |})
  | _, _ => None
  end.

End Store.

Arguments rows {R}.
Arguments high_water {R}.

End SqliteHelper.

(* ================================================================= *)
(** ** firmae_mcp.py *)

Module FirmaeMcp.
Import PyStr Re.

(** *** The process runner *)

(** What [subprocess] hands back for a captured stream. *)
Inductive captured : Type :=
| CNone
| CBytes (b : list Byte.byte)
| CText (s : string).

(** The ways [subprocess.run] ends. *)
Inductive launch : Type :=
| Completed (returncode : Z) (stdout stderr : captured)
| TimeoutExpired (stdout stderr : captured)
| FileNotFoundError (e : string)
| OtherException (e : string).

Definition ESC : ascii := ascii_of_N 27.

(** [\x1B(?:[@-Z\\-_]|\[[0-?]*[ -/]*[@-~])] *)
Definition ANSI_ESCAPE : regex :=
  Seq (Lit (String ESC EmptyString))
    (Alt (One (fun c => (in_range 64 90 c || in_range 92 95 c)%bool))
       (Seq (Lit "[")
          (Seq (Star (in_range 48 63))
             (Seq (Star (in_range 32 47)) (One (in_range 64 126)))))).

Definition _strip_ansi (x : string) : string := sub_empty ANSI_ESCAPE x.

(** [shlex.quote] *)
Definition shell_safe (c : ascii) : bool :=
  (in_range 48 57 c || in_range 65 90 c || in_range 97 122 c
   || existsb (Ascii.eqb c)
        ["_"; "@"; "%"; "+"; "="; ":"; ","; "."; "/"; "-"]%char)%bool.

Definition SQUOTE : ascii := ascii_of_N 39.

Fixpoint escape_squotes (s : string) : string :=
  match s with
  | EmptyString => EmptyString
  | String c s' =>
      if Ascii.eqb c SQUOTE
      then String SQUOTE (String DQUOTE (String SQUOTE (String DQUOTE
             (String SQUOTE (escape_squotes s')))))
      else String c (escape_squotes s')
  end.

Definition shlex_quote (s : string) : string :=
  if negb (truthy s) then String SQUOTE (String SQUOTE EmptyString)
  else if any_chr (fun c => negb (shell_safe c)) s
       then String SQUOTE (escape_squotes s ++ String SQUOTE EmptyString)%string
       else s.

(** [cmd if not args else cmd + " " + " ".join(shlex.quote(str(a))
    for a in args)] *)
Definition command_line (cmd : string) (args : list string) : string :=
  match args with
  | [] => cmd
  | _ => (cmd ++ " " ++ join " " (map shlex_quote args))%string
  end.

Section Runner.

Context {real : Type}.

(** [x.decode("utf-8", "replace")] *)
Variable decode_replace : list Byte.byte -> string.

(** [subprocess.run(full, shell=True, cwd=FIRMAE_HOME,
    capture_output=True, text=True, timeout=timeout_sec)] and the
    wall-clock time it took. *)
Variable subprocess_run : string -> option Z -> launch * real.

Definition _to_str (x : captured) : string :=
  match x with
  | CNone => EmptyString
  | CBytes b => decode_replace b
  | CText s => s
  end.

Record outcome : Type := {
  exit_code : Z;
  out : string;
  err : string;
  dur : real
}.

Definition TIMEOUT_MARK : string := nl ++ "[timeout]".

Definition run_cmd (cmd : string) (args : list string)
  (timeout_sec : option Z) : outcome :=
  let full := command_line cmd args in
  let '(proc, dur) := subprocess_run full timeout_sec in
  match proc with
  | Completed returncode stdout stderr =>
      {| exit_code := returncode;
         out := _strip_ansi (_to_str stdout);
         err := _strip_ansi (_to_str stderr);
         dur := dur |}
  | TimeoutExpired stdout stderr =>
      {| exit_code := 124;
         out := _strip_ansi (_to_str stdout);
         err := _strip_ansi (_to_str stderr) ++ TIMEOUT_MARK;
         dur := dur |}
  | FileNotFoundError e =>
      {| exit_code := 127; out := EmptyString; err := "[error] " ++ e;
         dur := dur |}
  | OtherException e =>
      {| exit_code := 1; out := EmptyString; err := "[error] " ++ e;
         dur := dur |}
  end.

End Runner.

(** *** The read loop *)

#[local] Unset Elimination Schemes.

(** Values made by [json.loads] (numbers: integers only; the keys of
    an object are distinct). *)
Inductive json : Type :=
| JNull
| JBool (b : bool)
| JInt (z : Z)
| JStr (s : string)
| JList (l : list json)
| JDict (d : list (string * json)).

#[local] Set Elimination Schemes.

(** Python truthiness. *)
Definition jtruthy (v : json) : bool :=
  match v with
  | JNull => false
  | JBool b => b
  | JInt z => negb (z =? 0)%Z
  | JStr s => truthy s
  | JList l => match l with [] => false | _ => true end
  | JDict d => match d with [] => false | _ => true end
  end.

Definition type_name (v : json) : string :=
  match v with
  | JNull => "NoneType"
  | JBool _ => "bool"
  | JInt _ => "int"
  | JStr _ => "str"
  | JList _ => "list"
  | JDict _ => "dict"
  end.

(** A value or a raised exception (its [str]). *)
Inductive res (A : Type) : Type :=
| Ok (a : A)
| Raise (e : string).
Arguments Ok {A}.
Arguments Raise {A}.

Definition bind {A B} (r : res A) (k : A -> res B) : res B :=
  match r with Ok a => k a | Raise e => Raise e end.

Fixpoint lookup (d : list (string * json)) (k : string) : option json :=
  match d with
  | [] => None
  | (k', v) :: d' => if String.eqb k' k then Some v else lookup d' k
  end.

(** [v.get(k, default)]: AttributeError unless [v] is a dict. *)
Definition get (v : json) (k : string) (default : json) : res json :=
  match v with
  | JDict d =>
      Ok (match lookup d k with Some x => x | None => default end)
  | _ => Raise ("'" ++ type_name v ++ "' object has no attribute 'get'")
  end.

(** [a or b] *)
Definition por (a b : json) : json := if jtruthy a then a else b.

(** [v in {...}] for a set of strings: TypeError on an unhashable
    [v]. *)
Definition in_str_set (v : json) (s : list string) : res bool :=
  match v with
  | JList _ => Raise "unhashable type: 'list'"
  | JDict _ => Raise "unhashable type: 'dict'"
  | JStr x => Ok (Logger.mem x s)
  | _ => Ok false
  end.

Definition SUPPORTED : list string := ["2025-03-26"; "2024-11-05"].

(** [sorted(SUPPORTED)[-1]] is ["2025-03-26"]. *)
Definition choose_version (req : json) : res json :=
  bind (in_str_set req SUPPORTED)
    (fun found => Ok (if found then req else JStr "2025-03-26")).

Definition text_item (t : string) : json :=
  JDict [("type", JStr "text"); ("text", JStr t)].

Definition tool_result (items : list json) (is_error : bool) : json :=
  JDict [("content", JList items); ("isError", JBool is_error)].

Definition reply_result (id result : json) : json :=
  JDict [("jsonrpc", JStr "2.0"); ("id", id); ("result", result)].

Definition reply_error (id : json) (code : Z) (message : string) : json :=
  JDict [("jsonrpc", JStr "2.0"); ("id", id);
         ("error", JDict [("code", JInt code); ("message", JStr message)])].

Definition TOOLS : list string :=
  ["firmae.help"; "firmae.emulate"; "firmae.clean"; "firmae.search";
   "firmae.lookupKB"; "firmae.history"; "emux.emuxbuild";
   "emux.applyconfig"; "emux.rebuild"].

Definition LONG : list string := ["firmae.emulate"].

(** A request handed to a worker thread. *)
Record thread : Type := { t_mid : json; t_params : json }.

(** One line of the input channel, as the loop sees it. *)
Inductive line : Type :=
| Blank
| Unparsable (e : string)
    (** [json.loads] raises *)
| Parsed (m : json).

Section Loop.

(** Everything outside the process that the tools read and change:
    files, the ledger, the store, subprocesses, the network. *)
Context {world : Type}.

(** The work of a tool of [TOOLS], given its [arguments]: the branch
    of [handle_call] for that name ([firmae.emulate]: after its
    argument check). *)
Variable tool_body : string -> json -> world -> res json * world.

(** [list_tools()] *)
Variable list_tools : json.

(** [str(v)], as an f-string formats a value. *)
Variable py_format : json -> string.

(** Whether [sys.stdout.write] takes a character from 128 on, which
    the encoding of stdout and its error handling decide: every one
    with UTF-8, none with ASCII and strict errors.  A character below
    128 is taken with every encoding.  The strings here hold no code
    point above 255: one that stdout takes is stood for by a
    character from 128 on that stdout takes, and one that it refuses,
    as a lone surrogate, which UTF-8 has no code for, by a character
    that stdout refuses. *)
Variable stdout_encodes : ascii -> bool.

(** [str(e)] of the UnicodeEncodeError that [sys.stdout.write] raises
    on the text of an object. *)
Variable encode_error : json -> string.

Definition char_ok (c : ascii) : bool :=
  (Nat.ltb (nat_of_ascii c) 128 || stdout_encodes c)%bool.

Fixpoint text_ok (s : string) : bool :=
  match s with
  | EmptyString => true
  | String c s' => (char_ok c && text_ok s')%bool
  end.

(** Whether stdout can encode [json.dumps(v, ensure_ascii=False)],
    in which every character from 128 on of a string or of a key
    stands as it is. *)
Fixpoint encodable (v : json) : bool :=
  match v with
  | JStr s => text_ok s
  | JList l => forallb encodable l
  | JDict d =>
      forallb (fun kv => let '(k, x) := kv in (text_ok k && encodable x)%bool) d
  | _ => true
  end.

Definition is_ping (m : json) : bool :=
  match m with JStr s => String.eqb s "ping" | _ => false end.

Definition is_null (v : json) : bool :=
  match v with JNull => true | _ => false end.

Definition method_is (m : json) (name : string) : bool :=
  match m with JStr s => String.eqb s name | _ => false end.

Definition unknown_tool (name : json) : json :=
  tool_result [text_item ("Unknown tool: " ++ py_format name)] true.

(** [handle_call] down to the point where the work of a tool starts:
    the reading of [name] and [arguments], the argument check of
    [firmae.emulate], and the answer to an unknown name. *)
Definition handle_call (params : json) (w : world) : res json * world :=
  match get params "name" JNull with
  | Raise e => (Raise e, w)
  | Ok name =>
      match get params "arguments" JNull with
      | Raise e => (Raise e, w)
      | Ok a =>
          let arguments := por a (JDict []) in
          if method_is name "firmae.emulate" then
            match get arguments "brand" JNull with
            | Raise e => (Raise e, w)
            | Ok brand =>
                match get arguments "firmware_file" JNull with
                | Raise e => (Raise e, w)
                | Ok fw =>
                    if (negb (jtruthy brand) || negb (jtruthy fw))%bool
                    then (Ok (tool_result
                                [text_item "Missing brand or firmware_file"]
                                true), w)
                    else tool_body "firmae.emulate" arguments w
                end
            end
          else
            match name with
            | JStr n =>
                if Logger.mem n TOOLS then tool_body n arguments w
                else (Ok (unknown_tool name), w)
            | _ => (Ok (unknown_tool name), w)
            end
      end
  end.

(** The state of the process: the binding of the loop variable
    [msg] (none before the first parsed line), the world, stdout,
    the worker threads not yet run, and the exception that ended
    the loop, if one did. *)
Record state : Type := {
  msg : option json;
  env : world;
  written : list json;
  threads : list thread;
  crashed : option string
}.

(** The state after a line with the text of [obj] went out. *)
Definition wrote (obj : json) (st : state) : state :=
  {| msg := msg st; env := env st; written := written st ++ [obj];
     threads := threads st; crashed := crashed st |}.

(** [jwrite]: [sys.stdout.write] encodes the whole text before any
    of it goes out, and raises where it cannot. *)
Definition jwrite (obj : json) (st : state) : res state :=
  if encodable obj then Ok (wrote obj st) else Raise (encode_error obj).

Definition spawn (t : thread) (st : state) : state :=
  {| msg := msg st; env := env st; written := written st;
     threads := threads st ++ [t]; crashed := crashed st |}.

Definition set_env (w : world) (st : state) : state :=
  {| msg := msg st; env := w; written := written st;
     threads := threads st; crashed := crashed st |}.

Definition set_msg (m : json) (st : state) : state :=
  {| msg := Some m; env := env st; written := written st;
     threads := threads st; crashed := crashed st |}.

Definition crash (e : string) (st : state) : state :=
  {| msg := msg st; env := env st; written := written st;
     threads := threads st; crashed := Some e |}.

(** [run_and_reply], the body of a worker thread.  An exception of
    its [jwrite] ends the thread and nothing else. *)
Definition run_and_reply (t : thread) (st : state) : state :=
  let '(r, w) := handle_call (t_params t) (env st) in
  let result :=
    match r with
    | Ok v => v
    | Raise e => tool_result [text_item ("Internal error: " ++ e)] true
    end in
  match jwrite (reply_result (t_mid t) result) (set_env w st) with
  | Ok st' => st'
  | Raise _ => set_env w st
  end.

(** How the [try] block is left: normally (also through
    [continue]), or by an exception. *)
Inductive flow : Type :=
| Next (st : state)
| Except (e : string) (st : state).

Definition attempt {A} (r : res A) (st : state) (k : A -> flow) : flow :=
  match r with Ok a => k a | Raise e => Except e st end.

(** A call of [jwrite] in the [try] block. *)
Definition reply (obj : json) (st : state) : flow :=
  attempt (jwrite obj st) st Next.

(** The [try] block, from [msg.get("id")] on. *)
Definition dispatch (m0 : json) (st : state) : flow :=
  attempt (get m0 "id" JNull) st (fun mid =>
  attempt (get m0 "method" JNull) st (fun m =>
  attempt (get m0 "params" (JDict [])) st (fun params =>
  if is_ping m then
    reply (reply_result (if is_null mid then JInt 0 else mid)
             (JDict [("ok", JBool true)])) st
  else if (is_null mid && jtruthy m)%bool then Next st
  else if method_is m "initialize" then
    attempt (get params "protocolVersion" JNull) st (fun v =>
    attempt (choose_version (por v (JStr "2024-11-05"))) st (fun agreed =>
    reply (reply_result mid
             (JDict [("protocolVersion", agreed);
                     ("serverInfo",
                      JDict [("name", JStr "firmae-adapter");
                             ("version", JStr "0.2.0")]);
                     ("capabilities", JDict [])])) st))
  else if method_is m "shutdown" then
    reply (reply_result mid JNull) st
  else if method_is m "ping" then
    reply (reply_result mid (JDict [("ok", JBool true)])) st
  else if method_is m "tools/list" then
    reply (reply_result mid list_tools) st
  else if method_is m "resources/list" then
    reply (reply_result mid (JDict [("resources", JList [])])) st
  else if method_is m "prompts/list" then
    reply (reply_result mid (JDict [("prompts", JList [])])) st
  else if method_is m "tools/call" then
    attempt (get (por params (JDict [])) "name" (JStr "")) st
      (fun tool_name =>
    attempt (in_str_set tool_name LONG) st (fun long =>
    if long then Next (spawn {| t_mid := mid; t_params := params |} st)
    else
      let '(r, w) := handle_call params (env st) in
      attempt r (set_env w st) (fun result =>
      reply (reply_result mid result) (set_env w st))))
  else
    reply (reply_error mid (-32601)
             ("Method not found: " ++ py_format m)) st))).

(** The [except Exception as e] handler: it evaluates
    [msg.get("id")] on whatever [msg] is bound to and calls [jwrite],
    and an exception raised by either leaves the loop. *)
Definition on_exception (e : string) (st : state) : state :=
  match msg st with
  | None => crash "name 'msg' is not defined" st
  | Some m0 =>
      match get m0 "id" JNull with
      | Ok id =>
          match jwrite (reply_error id (-32603) e) st with
          | Ok st' => st'
          | Raise e' => crash e' st
          end
      | Raise e' => crash e' st
      end
  end.

(** One iteration of [for line in sys.stdin]. *)
Definition step (st : state) (ln : line) : state :=
  match crashed st with
  | Some _ => st
  | None =>
      match ln with
      | Blank => st
      | Unparsable e => on_exception e st
      | Parsed m0 =>
          match dispatch m0 (set_msg m0 st) with
          | Next st' => st'
          | Except e st' => on_exception e st'
          end
      end
  end.

Definition run_loop (st : state) (input : list line) : state :=
  fold_left step input st.

Definition drop_thread (n : nat) (st : state) : state :=
  {| msg := msg st; env := env st; written := written st;
     threads := firstn n (threads st) ++ skipn (S n) (threads st);
     crashed := crashed st |}.

(** The [n]-th pending worker thread runs to its end. *)
Definition finish (n : nat) (st : state) : state :=
  match nth_error (threads st) n with
  | Some t => run_and_reply t (drop_thread n st)
  | None => st
  end.

(** What happens to the process: a line arrives, or a worker
    thread ends. *)
Inductive event : Type :=
| Line (ln : line)
| Worker (n : nat).

Definition exec (st : state) (ev : event) : state :=
  match ev with
  | Line ln => step st ln
  | Worker n => finish n st
  end.

End Loop.

(** *** Requests and tools the properties speak of *)

(** A command that ends by itself with status 124, and the shell's
    status 127 for a script it does not find. *)
Definition exits_124 (full : string) (t : option Z) : launch * unit :=
  (Completed 124 (CText "") (CText ""), tt).

Definition exits_127 (full : string) (t : option Z) : launch * unit :=
  (Completed 127 (CText "") (CText "/bin/sh: 1: ./run.sh: not found"), tt).

(** A world with nothing in it, and tools that do nothing: what the
    examples below need of the parts of [handle_call] that are not
    modelled. *)
Definition no_tool (name : string) (arguments : json) (w : unit)
  : res json * unit := (Ok (tool_result [] false), w).

Definition failing_tool (name : string) (arguments : json) (w : unit)
  : res json * unit := (Raise "boom", w).

Definition no_format (v : json) : string :=
  match v with JStr s => s | _ => EmptyString end.

(** A stdout with UTF-8, which encodes every character of the
    strings here, and one with ASCII, which encodes none from 128 on
    and raises with this text where the identifier is the one
    character [e] with an acute accent (code 233). *)
Definition utf8 (c : ascii) : bool := true.

Definition ascii_only (c : ascii) : bool := false.

Definition no_refusal (obj : json) : string := EmptyString.

Definition ASCII_REFUSAL : string :=
  "'ascii' codec can't encode character '\xe9' in position 26: ordinal not in range(128)".

Definition ascii_refusal (obj : json) : string := ASCII_REFUSAL.

Definition start : @state unit :=
  {| msg := None; env := tt; written := []; threads := [];
     crashed := None |}.

Definition ping_notification : json :=
  JDict [("jsonrpc", JStr "2.0"); ("method", JStr "ping")].

Definition initialized_notification : json :=
  JDict [("jsonrpc", JStr "2.0");
         ("method", JStr "notifications/initialized")].

Definition call_null_params : json :=
  JDict [("jsonrpc", JStr "2.0"); ("id", JInt 1);
         ("method", JStr "tools/call"); ("params", JNull)].

(** The same request under the identifier [e] with an acute accent,
    which the line gives as the escape [\u00e9]. *)
Definition call_accent_id : json :=
  JDict [("jsonrpc", JStr "2.0"); ("id", JStr (String (ascii_of_nat 233) ""));
         ("method", JStr "tools/call"); ("params", JNull)].

Definition call_clean : json :=
  JDict [("jsonrpc", JStr "2.0"); ("id", JInt 2);
         ("method", JStr "tools/call");
         ("params", JDict [("name", JStr "firmae.clean")])].

(** [arguments] is a string where an object is expected. *)
Definition emulate_bad_arguments : json :=
  JDict [("name", JStr "firmae.emulate"); ("arguments", JStr "x")].

Definition call_emulate : json :=
  JDict [("jsonrpc", JStr "2.0"); ("id", JInt 3);
         ("method", JStr "tools/call"); ("params", emulate_bad_arguments)].

(** [firmware_file] is missing. *)
Definition emulate_no_firmware : json :=
  JDict [("name", JStr "firmae.emulate");
         ("arguments", JDict [("brand", JStr "dlink")])].

End FirmaeMcp.

(* ================================================================= *)
(** ** Views of the read loop used by its invariants *)

Module Replies.
Import PyStr FirmaeMcp.

(** The identifier a written message carries. *)
Definition reply_id (obj : json) : option json :=
  match obj with
  | JDict d => lookup d "id"
  | _ => None
  end.

(** The [result] of the reply to [initialize]. *)
Definition init_result (agreed : json) : json :=
  JDict [("protocolVersion", agreed);
         ("serverInfo",
          JDict [("name", JStr "firmae-adapter"); ("version", JStr "0.2.0")]);
         ("capabilities", JDict [])].

(** A value [json.loads] makes that is no object. *)
Definition not_object (v : json) : bool :=
  match v with JDict _ => false | _ => true end.

(** A value that cannot be hashed: a list or an object. *)
Definition unhashable (v : json) : bool :=
  match v with JList _ | JDict _ => true | _ => false end.

Definition initialize_request (id version : json) : json :=
  JDict [("jsonrpc", JStr "2.0"); ("id", id); ("method", JStr "initialize");
         ("params", JDict [("protocolVersion", version)])].

End Replies.

(* ================================================================= *)
(** ** The scratch directory: firmae_lib/analysis.py and the head of
       [append_emulation_record] *)

Module Scratch.
Import PyStr Analysis Logger.

(** [c.isdigit()]: below 256, the digits 0-9 and the superscripts
    1, 2 and 3. *)
Definition isdigit_chr (c : ascii) : bool :=
  (Re.digit c || N.eqb (code c) 178 || N.eqb (code c) 179
   || N.eqb (code c) 185)%bool.

(** [s.isdigit()] *)
Definition py_isdigit (s : string) : bool :=
  (truthy s && negb (any_chr (fun c => negb (isdigit_chr c)) s))%bool.

(** A directory as [os.listdir] meets it. *)
Inductive dir_state : Type :=
| NoDir
| Unlistable
    (** the directory exists and [os.listdir] raises *)
| Names (l : list string).

(** [[int(d) for d in names]], [None] when one [int(d)] raises. *)
Fixpoint ints (names : list string) : option (list Z) :=
  match names with
  | [] => Some []
  | d :: rest =>
      match py_int d, ints rest with
      | Some n, Some ns => Some (n :: ns)
      | _, _ => None
      end
  end.

Fixpoint insert_int (x : Z) (l : list Z) : list Z :=
  match l with
  | [] => [x]
  | y :: l' => if (x <=? y)%Z then x :: l else y :: insert_int x l'
  end.

(** [sorted(l)] for a list of [int] *)
Fixpoint sorted_int (l : list Z) : list Z :=
  match l with
  | [] => []
  | x :: l' => insert_int x (sorted_int l')
  end.

(** [max(l)] for a list that is not empty *)
Definition py_max (x : Z) (l : list Z) : Z := fold_left Z.max l x.

Definition _numeric_dirs (path : dir_state) : list Z :=
  match path with
  | Names l =>
      match ints (filter py_isdigit l) with
      | Some ns => sorted_int ns
      | None => []
      end
  | _ => []
  end.

Definition _latest_iid_dir (scratch_root : string) (dir : dir_state)
  : option string :=
  match _numeric_dirs dir with
  | [] => None
  | ids => Some (path_join scratch_root (py_str_int (last ids 0%Z)))
  end.

(** The choice of [latest_dir] at the head of
    [append_emulation_record]. *)
Definition latest_dir (scratch_root : string) (dir : dir_state)
  : option string :=
  match dir with
  | NoDir => None
  | Unlistable => None
  | Names l =>
      match ints (filter py_isdigit l) with
      | Some (n :: ns) =>
          Some (path_join scratch_root (py_str_int (py_max n ns)))
      | Some [] => None
      | None => None
      end
  end.

End Scratch.

(* ================================================================= *)
(** ** Patterns that stay inside a line *)

Module Lines.
Import PyStr Re Analysis.

(** No part of the pattern can match a line feed. *)
Fixpoint lf_free (r : regex) : bool :=
  match r with
  | Lit l => negb (any_chr (Ascii.eqb LF) l)
  | One p => negb (p LF)
  | Star p => negb (p LF)
  | Plus p => negb (p LF)
  | Seq a b => (lf_free a && lf_free b)%bool
  | Alt a b => (lf_free a && lf_free b)%bool
  | WordB => true
  end.

(** The position [st], seen inside a longer text that goes on with a
    line feed and [b]. *)
Definition before_lf (b : string) (st : pos) : pos :=
  (fst st, (snd st ++ String LF b)%string).

(** Two positions a pattern cannot tell apart: the same rest, and the
    characters before them both word characters or both not. *)
Definition alike (st st' : pos) : Prop :=
  snd st = snd st' /\ word_opt (fst st) = word_opt (fst st').

(** The rules that fire on at least one of the texts taken alone. *)
Fixpoint fired_on_some (rules : list (string * regex * bool))
  (texts : list string) : list string :=
  match rules with
  | [] => []
  | (title, pat, flags) :: rest =>
      if existsb (search flags pat) texts
      then title :: fired_on_some rest texts
      else fired_on_some rest texts
  end.

End Lines.

(* ================================================================= *)
(** ** The full-text mirror of the analyses *)

Module Mirror.
Import PyStr SqliteHelper.

Section Rows.

Context {real : Type}.

(** The row that [kb_insert_analysis] gives [analyses_fts] for a row
    of [analyses]. *)
Definition entry (r : analysis_row) : fts_row :=
  {| fts_rowid := an_id r;
     fts_summary := opt_or_empty (an_summary r);
     fts_content := an_content r |}.

Definition table_rows {R} (t : option (table R)) : list R :=
  match t with Some t => rows t | None => [] end.

Definition fts_rows (t : option (list fts_row)) : list fts_row :=
  match t with Some l => l | None => [] end.

(** Every row of [analyses] has its row in [analyses_fts], in the
    same order, and there is no other. *)
Definition mirrored (d : @db real) : Prop :=
  fts_rows (analyses_fts d) = map entry (table_rows (analyses d)).

(** The largest key that the table has held; 0 for a table that is
    not there yet. *)
Definition top_key {R} (key : R -> Z) (t : option (table R)) : Z :=
  match t with
  | Some t => fold_right Z.max (high_water t) (map key (rows t))
  | None => 0
  end.

(** The table that [kb_init] leaves: the one of the file, or an
    empty one. *)
Definition table_of {R} (t : option (table R)) : table R :=
  match t with Some t => t | None => empty_table end.

(** No key of the table is above the key handed out last. *)
Definition keys_bounded {R} (key : R -> Z) (t : option (table R)) : Prop :=
  match t with
  | Some t => Forall (fun r => (key r <= high_water t)%Z) (rows t)
  | None => True
  end.

End Rows.

End Mirror.

(* ================================================================= *)
(** ** emux_lib/emux_detect.py *)

Module EmuxDetect.
Import PyStr Logger.

(** The columns of a row of [files/emux/devices] after the ID. *)
Record device : Type := {
  qemu_binary : string;
  machine_type : string;
  cpu_type : string;
  dtb : string;
  memory : string;
  kernel_image : string;
  qemuopts : string;
  description : string
}.

(** The variables of [_infer_device_suggestion] where the row is
    composed. *)
Definition infer (kernel_filename model_for_desc : string) : device :=
  let k := py_lower kernel_filename in
  let '(qemu_binary, machine_type, cpu_type, qemuopts) :=
    if contains "malta" k then
      ("qemu-system-mips", "malta", "",
       if (contains "-le" k || contains "little" k)%bool
       then "MALTA3" else "MALTA2")
    else if contains "versatile" k then
      ("qemu-system-arm", "versatilepb", "", "VERSATILEPB")
    else if (contains "realview" k || contains "realview-eb" k)%bool then
      ("qemu-system-arm", "realview-eb", "", "REALVIEW-EB")
    else if contains "vexpress" k then
      if contains "-a15" k
      then ("qemu-system-arm", "vexpress-a15", "", "VEXPRESS2")
      else ("qemu-system-arm", "vexpress-a9", "", "VEXPRESS1")
    else if (endswith ".img" k
             && (contains "aarch64" k || contains "arm64" k
                 || contains "virt" k))%bool then
      ("qemu-system-aarch64", "virt", "", "VIRTARM64")
    else ("", "", "", "") in
  let '(qemu_binary, machine_type, qemuopts) :=
    if negb (truthy qemu_binary) then
      if startswith "zImage" kernel_filename then
        ("qemu-system-arm", "vexpress-a9", "VEXPRESS1")
      else if startswith "vmlinux" kernel_filename then
        if contains "malta" k then
          ("qemu-system-mips", "malta",
           if contains "-le" k then "MALTA3" else "MALTA2")
        else (qemu_binary, machine_type, qemuopts)
      else (qemu_binary, machine_type, qemuopts)
    else (qemu_binary, machine_type, qemuopts) in
  {| qemu_binary := qemu_binary;
     machine_type := machine_type;
     cpu_type := cpu_type;
     dtb := "";
     memory := "256M";
     kernel_image := kernel_filename;
     qemuopts := qemuopts;
     description := model_for_desc |}.

Definition device_id (dest_dir : string) : string :=
  "firmware/" ++ basename dest_dir.

Definition _infer_device_suggestion
  (dest_dir kernel_filename model_for_desc : string) : string :=
  let d := infer kernel_filename model_for_desc in
  device_id dest_dir ++ "," ++ qemu_binary d ++ "," ++ machine_type d
  ++ "," ++ cpu_type d ++ "," ++ dtb d ++ "," ++ memory d ++ ","
  ++ kernel_image d ++ "," ++ qemuopts d ++ "," ++ description d.

(** [s.count(",")] *)
Fixpoint commas (s : string) : nat :=
  match s with
  | EmptyString => 0
  | String c s' => (if Ascii.eqb c "," then 1 else 0) + commas s'
  end.

(** The presets of the EMUX device table. *)
Definition PRESETS : list string :=
  ["MALTA2"; "MALTA3"; "VERSATILEPB"; "REALVIEW-EB"; "VEXPRESS1";
   "VEXPRESS2"; "VIRTARM64"].

End EmuxDetect.

(* ================================================================= *)
(** ** The helpers of [emux.emuxbuild] and [firmae.history] *)

Module Helpers.
Import PyStr Re Logger.

(** [s.replace(a, b)] for single characters *)
Fixpoint replace_chr (a b : ascii) (s : string) : string :=
  match s with
  | EmptyString => EmptyString
  | String c s' =>
      String (if Ascii.eqb c a then b else c) (replace_chr a b s')
  end.

(** [[A-Za-z0-9_\-\.]] *)
Definition name_chr (c : ascii) : bool :=
  (in_range 65 90 c || in_range 97 122 c || in_range 48 57 c
   || Ascii.eqb c "_" || Ascii.eqb c "-" || Ascii.eqb c ".")%bool.

(** [[^A-Za-z0-9_\-\.]+] *)
Definition re_unsafe : regex := Plus (fun c => negb (name_chr c)).

Definition safe_name (s : string) : string :=
  sub_empty re_unsafe (replace_chr " " "_" s).

(** The characters of a text that are in a class. *)
Fixpoint keep (p : ascii -> bool) (s : string) : string :=
  match s with
  | EmptyString => EmptyString
  | String c s' => if p c then String c (keep p s') else keep p s'
  end.

(** The [while True] loop that looks for a free [f"{base_dest}-{i}"],
    cut after [fuel] tries. *)
Fixpoint first_free (path_exists : string -> bool) (base_dest : string)
  (fuel : nat) (i : Z) : option string :=
  match fuel with
  | O => None
  | S fuel' =>
      let candidate := (base_dest ++ "-" ++ py_str_int i)%string in
      if negb (path_exists candidate) then Some candidate
      else first_free path_exists base_dest fuel' (i + 1)
  end.

(** The destination folder: [None] when the loop has not ended after
    [fuel] tries. *)
Definition dest_dir (path_exists : string -> bool) (base_dest : string)
  (fuel : nat) : option string :=
  if path_exists base_dest then first_free path_exists base_dest fuel 2
  else Some base_dest.

(** A file system with the paths of [paths] and no other. *)
Definition holds (paths : list string) (p : string) : bool := mem p paths.

(** [[a-z0-9]] *)
Definition alnum_chr (c : ascii) : bool :=
  (in_range 97 122 c || in_range 48 57 c)%bool.

(** [[^a-z0-9]+] *)
Definition re_not_alnum : regex := Plus (fun c => negb (alnum_chr c)).

(** [norm] of [firmae.history] *)
Definition norm (s : string) : string := sub_empty re_not_alnum (py_lower s).

Definition contains_loose (hay needle : string) : bool :=
  if negb (truthy (strip needle)) then true
  else contains (norm needle) (norm hay).

(** A row of [csv.DictReader]: a column that the line does not have
    reads as [None]. *)
Record record : Type := {
  r_number : option string;
  r_brand : option string;
  r_firmware_name : option string;
  r_result : option string
}.

Definition or_empty (s : option string) : string :=
  match s with Some t => t | None => EmptyString end.

(** [num]: [int(r.get("number") or 0)], 0 where it raises *)
Definition num (r : record) : Z :=
  if truthy (or_empty (r_number r)) then
    match py_int (or_empty (r_number r)) with
    | Some n => n
    | None => 0%Z
    end
  else 0%Z.

(** [rows.sort(key=num, reverse=True)]: the sort is stable, rows with
    the same number keep their order. *)
Fixpoint insert_desc (x : record) (l : list record) : list record :=
  match l with
  | [] => [x]
  | y :: l' =>
      if (num y <=? num x)%Z then x :: l else y :: insert_desc x l'
  end.

Fixpoint sort_desc (l : list record) : list record :=
  match l with
  | [] => []
  | x :: l' => insert_desc x (sort_desc l')
  end.

Definition SUCCESS : list string :=
  ["1"; "true"; "yes"; "ok"; "success"; "on"; "reachable"; "up"].

(** The three tests of the filter loop: [true] where the row is not
    skipped. *)
Definition passes (brand_q model_q : string) (success_only : bool)
  (r : record) : bool :=
  if (truthy brand_q
      && negb (String.eqb (norm brand_q) (norm (or_empty (r_brand r)))))%bool
  then false
  else if (truthy model_q
           && negb (contains_loose (or_empty (r_firmware_name r)) model_q))%bool
  then false
  else if success_only then
    mem (py_lower (strip (or_empty (r_result r)))) SUCCESS
  else true.

(** The filter loop, [out] being the rows kept so far. *)
Fixpoint collect (brand_q model_q : string) (success_only : bool)
  (last_n : Z) (rows : list record) (out : list record) : list record :=
  match rows with
  | [] => out
  | r :: rest =>
      if passes brand_q model_q success_only r then
        let out' := out ++ [r] in
        if (last_n <=? Z.of_nat (List.length out'))%Z then out'
        else collect brand_q model_q success_only last_n rest out'
      else collect brand_q model_q success_only last_n rest out
  end.

(** [int(arguments.get("last_n") or 20)] for an integer or no
    argument *)
Definition last_n_of (arg : option Z) : Z :=
  match arg with
  | Some n => if (n =? 0)%Z then 20%Z else n
  | None => 20%Z
  end.

(** The rows that [firmae.history] prints, for the rows read from the
    ledger. *)
Definition history (brand model : string) (success_only : bool)
  (last_n : option Z) (rows : list record) : list record :=
  collect (strip brand) (strip model) success_only (last_n_of last_n)
    (sort_desc rows) [].

(** Every character of the text is in the class. *)
Definition all_in (p : ascii -> bool) (s : string) : Prop :=
  any_chr (fun c => negb (p c)) s = false.

(** [f"{base_dest}-{i}"] *)
Definition candidate (base_dest : string) (i : Z) : string :=
  (base_dest ++ "-" ++ py_str_int i)%string.

(** The order of the rows after the sort: the greatest number
    first. *)
Definition newer_first (a b : record) : Prop := (num b <= num a)%Z.

(** A text without the escape character. *)
Definition no_esc (s : string) : Prop :=
  any_chr (Ascii.eqb FirmaeMcp.ESC) s = false.

(** A control sequence: ESC, an opening bracket, parameter bytes and
    a final byte. *)
Definition csi (params : string) (final : ascii) : string :=
  String FirmaeMcp.ESC (String "[" (params ++ String final EmptyString)).

End Helpers.

(* ================================================================= *)
(** ** emux_lib/tar_helper.py *)

Module TarHelper.
Import PyStr Logger Analysis.

(** A tree of plain files and directories (no symbolic links), the
    entries of a directory in the order in which [os.walk] lists
    them.  [size] is [None] where [os.path.getsize] raises. *)
Local Unset Elimination Schemes.

Inductive node : Type :=
| File (name : string) (size : option Z)
| Dir (name : string) (children : list node).

Local Set Elimination Schemes.

Definition node_name (n : node) : string :=
  match n with File name _ => name | Dir name _ => name end.

(** The sum of [os.path.getsize] over the files below a directory. *)
Fixpoint total_sz (n : node) : Z :=
  match n with
  | File _ (Some sz) => sz
  | File _ None => 0
  | Dir _ children => fold_right (fun c acc => total_sz c + acc)%Z 0%Z children
  end.

(** [os.path.isdir(os.path.join(full, name))] *)
Definition has_dir (children : list node) (name : string) : bool :=
  existsb (fun c => match c with
                    | Dir n _ => String.eqb n name
                    | File _ _ => false
                    end) children.

Definition ROOTFS_NAMES : list string :=
  ["squashfs-root"; "cramfs-root"; "rootfs"].

(** [full.count(os.sep)] *)
Fixpoint count_sep (s : string) : Z :=
  match s with
  | EmptyString => 0
  | String c s' => ((if Ascii.eqb c "/" then 1 else 0) + count_sep s')%Z
  end.

(** [(score, depth, total_sz, full)] *)
Definition rootfs_candidate : Type := (Z * Z * Z * string)%type.

Definition score_of (children : list node) : Z :=
  ((if has_dir children "etc" then 2 else 0)
   + (if has_dir children "bin" then 1 else 0))%Z.

(** The body of the loop over [dnames] for one entry of the directory
    [r]. *)
Definition found (r : string) (c : node) : list rootfs_candidate :=
  match c with
  | Dir dn children =>
      if mem (py_lower dn) ROOTFS_NAMES then
        let full := path_join r dn in
        [(score_of children, count_sep full, total_sz c, full)]
      else []
  | File _ _ => []
  end.

(** The candidates in the order in which the walk appends them: those
    of a directory, then those below each of its directories.  [r] is
    the path of [n]. *)
Fixpoint walk (r : string) (n : node) : list rootfs_candidate :=
  match n with
  | File _ _ => []
  | Dir _ children =>
      flat_map (found r) children
      ++ flat_map (fun c => walk (path_join r (node_name c)) c) children
  end.

(** The order of the keys [(-score, -depth, -total_sz)]: [a] does not
    come after [b]. *)
Definition key_le (a b : rootfs_candidate) : bool :=
  let '(sa, da, za, _) := a in
  let '(sb, db, zb, _) := b in
  ((sb <? sa)
   || ((sa =? sb) && ((db <? da) || ((da =? db) && (zb <=? za)))))%Z%bool.

(** [candidates.sort(key=...)]: the sort is stable. *)
Fixpoint insert_key (x : rootfs_candidate) (l : list rootfs_candidate)
  : list rootfs_candidate :=
  match l with
  | [] => [x]
  | y :: l' => if key_le x y then x :: l else y :: insert_key x l'
  end.

Fixpoint sort_key (l : list rootfs_candidate) : list rootfs_candidate :=
  match l with
  | [] => []
  | x :: l' => insert_key x (sort_key l')
  end.

(** [tree] is what is at [extract_root]. *)
Definition _find_rootfs_dir (extract_root : string) (tree : node)
  : option string :=
  match sort_key (walk extract_root tree) with
  | [] => None
  | c :: _ => Some (snd c)
  end.

(** [a] is preferred to [b]: more like a file system, then deeper,
    then larger. *)
Definition preferred (a b : rootfs_candidate) : Prop :=
  let '(sa, da, za, _) := a in
  let '(sb, db, zb, _) := b in
  (sb < sa \/ (sa = sb /\ (db < da \/ (da = db /\ zb < za))))%Z.

End TarHelper.

(* ================================================================= *)
(** ** The [firmae.search] branch of [handle_call] *)

Module Search.
Import PyStr Logger FirmaeMcp.

(** [v.strip().lower()]: AttributeError unless [v] is a string. *)
Definition strip_lower (v : json) : res string :=
  match v with
  | JStr s => Ok (py_lower (strip s))
  | _ => Raise ("'" ++ type_name v ++ "' object has no attribute 'strip'")
  end.

Definition TPLINK : list string := ["tplink"; "tp-link"; "tp link"].

Definition MISSING_BRAND : string :=
  "Missing brand or model. Example: brand=TPLINK, model=tl-wr841n".

Section Brands.

Context {world : Type}.

(** The body of [if brand in [...]], which fetches the TP-Link page
    and ends in a [return] on every path. *)
Variable tplink_search : string -> json -> world -> res json * world.

(** The exception of [import requests, re] and
    [from bs4 import BeautifulSoup] at the head of the branch, where
    a library is not installed. *)
Variable import_error : option string.

(** The text of the UnboundLocalError for a local name, which the
    version of the interpreter fixes. *)
Variable unbound_local : string -> string.

(** The branch for [firmae.search].  A brand that is not TP-Link
    leaves the [elif] chain without a [return] and meets
    [run_cmd(cmd, args, timeout)] after it, where [cmd] is a local
    name that no statement has bound. *)
Definition firmae_search (arguments : json) (w : world)
  : res json * world :=
  match import_error with
  | Some e => (Raise e, w)
  | None =>
      match bind (get arguments "brand" (JStr "")) strip_lower with
      | Raise e => (Raise e, w)
      | Ok brand =>
          match bind (get arguments "model" (JStr "")) strip_lower with
          | Raise e => (Raise e, w)
          | Ok model =>
              if (negb (truthy brand) || negb (truthy model))%bool then
                (Ok (tool_result [text_item MISSING_BRAND] true), w)
              else if mem brand TPLINK then
                tplink_search model arguments w
              else (Raise (unbound_local "cmd"), w)
          end
      end
  end.

(** The tools, with [firmae.search] spelled out. *)
Definition with_search
  (other : string -> json -> world -> res json * world)
  (name : string) (arguments : json) (w : world) : res json * world :=
  if String.eqb name "firmae.search" then firmae_search arguments w
  else other name arguments w.

End Brands.

(** A request for [firmae.search]. *)
Definition search_call (mid arguments : json) : json :=
  JDict [("jsonrpc", JStr "2.0"); ("id", mid);
         ("method", JStr "tools/call");
         ("params", JDict [("name", JStr "firmae.search");
                           ("arguments", arguments)])].

(** The message of CPython 3.11 and later. *)
Definition unbound_311 (name : string) : string :=
  "cannot access local variable '" ++ name
  ++ "' where it is not associated with a value".

End Search.

(* ================================================================= *)
(** ** The reader of the [csv] module *)

Module Csv.
Import PyStr FirmaeMcp.

(** The states of the parser (excel dialect: comma, double quote,
    doubled quotes, not strict). *)
Inductive parse_state : Type :=
| START_RECORD
| START_FIELD
| IN_FIELD
| IN_QUOTED_FIELD
| QUOTE_IN_QUOTED_FIELD
| EAT_CRNL.

Definition state_eqb (a b : parse_state) : bool :=
  match a, b with
  | START_RECORD, START_RECORD | START_FIELD, START_FIELD
  | IN_FIELD, IN_FIELD | IN_QUOTED_FIELD, IN_QUOTED_FIELD
  | QUOTE_IN_QUOTED_FIELD, QUOTE_IN_QUOTED_FIELD | EAT_CRNL, EAT_CRNL => true
  | _, _ => false
  end.

(** The fields read so far and the field being read (the limit on the
    length of a field is left out). *)
Record reader : Type := {
  state : parse_state;
  fields : list string;
  field : string
}.

Definition parse_reset : reader :=
  {| state := START_RECORD; fields := []; field := EmptyString |}.

Definition set_state (s : parse_state) (r : reader) : reader :=
  {| state := s; fields := fields r; field := field r |}.

Definition parse_save_field (r : reader) : reader :=
  {| state := state r; fields := fields r ++ [field r];
     field := EmptyString |}.

Definition parse_add_char (c : ascii) (r : reader) : reader :=
  {| state := state r; fields := fields r;
     field := (field r ++ String c EmptyString)%string |}.

Definition is_crnl (c : ascii) : bool :=
  (Ascii.eqb c LF || Ascii.eqb c CR)%bool.

Definition NEWLINE_SEEN : string :=
  "new-line character seen in unquoted field - do you need to open the file in universal-newline mode?".

(** [case START_FIELD], which [case START_RECORD] falls into;
    [None] is the end of the line. *)
Definition start_field (r : reader) (c : option ascii) : reader :=
  match c with
  | None => set_state START_RECORD (parse_save_field r)
  | Some ch =>
      if is_crnl ch then set_state EAT_CRNL (parse_save_field r)
      else if Ascii.eqb ch DQUOTE then set_state IN_QUOTED_FIELD r
      else if Ascii.eqb ch "," then set_state START_FIELD (parse_save_field r)
      else set_state IN_FIELD (parse_add_char ch r)
  end.

Definition parse_process_char (r : reader) (c : option ascii) : res reader :=
  match state r with
  | START_RECORD =>
      match c with
      | None => Ok r
      | Some ch =>
          if is_crnl ch then Ok (set_state EAT_CRNL r)
          else Ok (start_field r c)
      end
  | START_FIELD => Ok (start_field r c)
  | IN_FIELD =>
      match c with
      | None => Ok (set_state START_RECORD (parse_save_field r))
      | Some ch =>
          if is_crnl ch then Ok (set_state EAT_CRNL (parse_save_field r))
          else if Ascii.eqb ch "," then
            Ok (set_state START_FIELD (parse_save_field r))
          else Ok (parse_add_char ch r)
      end
  | IN_QUOTED_FIELD =>
      match c with
      | None => Ok r
      | Some ch =>
          if Ascii.eqb ch DQUOTE then Ok (set_state QUOTE_IN_QUOTED_FIELD r)
          else Ok (parse_add_char ch r)
      end
  | QUOTE_IN_QUOTED_FIELD =>
      match c with
      | None => Ok (set_state START_RECORD (parse_save_field r))
      | Some ch =>
          if Ascii.eqb ch DQUOTE then
            Ok (set_state IN_QUOTED_FIELD (parse_add_char ch r))
          else if Ascii.eqb ch "," then
            Ok (set_state START_FIELD (parse_save_field r))
          else if is_crnl ch then
            Ok (set_state EAT_CRNL (parse_save_field r))
          else Ok (set_state IN_FIELD (parse_add_char ch r))
      end
  | EAT_CRNL =>
      match c with
      | None => Ok (set_state START_RECORD r)
      | Some ch => if is_crnl ch then Ok r else Raise NEWLINE_SEEN
      end
  end.

(** The characters of one line, then the end of the line. *)
Fixpoint feed (r : reader) (ln : string) : res reader :=
  match ln with
  | EmptyString => parse_process_char r None
  | String c ln' => bind (parse_process_char r (Some c)) (fun r' => feed r' ln')
  end.

(** [Reader_iternext] after [parse_reset]: the record and the lines
    that are left, [None] for StopIteration. *)
Fixpoint read_record (r : reader) (lines : list string)
  : res (option (list string * list string)) :=
  match lines with
  | [] =>
      if (truthy (field r) || state_eqb (state r) IN_QUOTED_FIELD)%bool
      then Ok (Some (fields (parse_save_field r), []))
      else Ok None
  | ln :: rest =>
      bind (feed r ln) (fun r' =>
        if state_eqb (state r') START_RECORD then Ok (Some (fields r', rest))
        else read_record r' rest)
  end.

(** [next(csv.reader([ln]))]; StopIteration has the empty text. *)
Definition csv_row (ln : string) : res (list string) :=
  bind (read_record parse_reset [ln])
    (fun o => match o with
              | Some (cols, _) => Ok cols
              | None => Raise EmptyString
              end).

(** [list(csv.reader(lines))], [fuel] being at least the number of
    lines. *)
Fixpoint read_all (fuel : nat) (lines : list string)
  : res (list (list string)) :=
  match fuel with
  | O => Ok []
  | S fuel' =>
      bind (read_record parse_reset lines)
        (fun o => match o with
                  | None => Ok []
                  | Some (cols, rest) =>
                      bind (read_all fuel' rest) (fun l => Ok (cols :: l))
                  end)
  end.

Definition csv_reader (lines : list string) : res (list (list string)) :=
  read_all (S (List.length lines)) lines.

End Csv.

(* ================================================================= *)
(** ** The [emux.applyconfig] branch of [handle_call] *)

Module ApplyConfig.
Import PyStr Re Logger FirmaeMcp Helpers Csv.

Definition HEADER : list string :=
  ["ID"; "qemu-binary"; "machine-type"; "cpu-type"; "dtb"; "memory";
   "kernel-image"; "qemuopts"; "description"].

(** [",".join(header)] *)
Definition header_line : string := join "," HEADER.

Fixpoint has_key {V} (d : list (string * V)) (k : string) : bool :=
  match d with
  | [] => false
  | (k', _) :: d' => (String.eqb k' k || has_key d' k)%bool
  end.

Fixpoint field_of (d : list (string * option string)) (k : string)
  : option string :=
  match d with
  | [] => None
  | (k', v) :: d' => if String.eqb k' k then v else field_of d' k
  end.

(** [build_row_from_fields], for an object whose values are strings
    or null. *)
Definition build_row_from_fields (fields : list (string * option string))
  : res string :=
  let missing := filter (fun c => negb (has_key fields c)) HEADER in
  match missing with
  | _ :: _ => Raise ("Missing fields for CSV build: " ++ join ", " missing)
  | [] =>
      Ok (join "," (map (fun c => match field_of fields c with
                                  | Some s => s
                                  | None => EmptyString
                                  end) HEADER))
  end.

(** What is at [devices_path]. *)
Inductive devices_file : Type :=
| Absent
| ReadError (e : string)
| Content (text : string).

(** [\s+] *)
Definition re_spaces : regex := Plus is_space.

(** [re.sub(r"\s+", "", s)] *)
Definition squeeze (s : string) : string := sub_empty re_spaces s.

(** [ln.rstrip("\n")] *)
Definition chomp (ln : string) : string := rstrip_of (Ascii.eqb LF) ln.

(** The tests of the search loop on one line of the body: the line is
    not blank, not a comment, reads as a row, and its first column is
    the ID. *)
Definition names_id (row_id ln : string) : bool :=
  if (negb (truthy (strip ln)) || startswith "#" (strip ln))%bool then false
  else
    match csv_row ln with
    | Raise _ => false
    | Ok [] => false
    | Ok (c0 :: _) => String.eqb (strip c0) row_id
    end.

(** The search loop: the body with the first line that names the ID
    replaced, [None] where no line does. *)
Fixpoint replace_first (row_id row_str : string) (body : list string)
  : option (list string) :=
  match body with
  | [] => None
  | ln :: rest =>
      if names_id row_id ln then Some (row_str :: rest)
      else option_map (cons ln) (replace_first row_id row_str rest)
  end.

(** [f.write(ln + "\n")] for every line *)
Fixpoint write_lines (lines : list string) : string :=
  match lines with
  | [] => EmptyString
  | ln :: rest => (ln ++ nl ++ write_lines rest)%string
  end.

(** The text of an error result, or the new content of the file and
    whether a row was replaced. *)
Inductive outcome : Type :=
| Rejected (text : string)
| Applied (content : string) (replaced : bool).

(** From the parsing of the row on, where the folder of the table
    exists or can be made; [write_error] is the exception of the
    writing, if it raises.  The backup copy, whose failure is only
    noted in the answer, is left out. *)
Definition apply_row (devices_path : string) (file : devices_file)
  (write_error : option string) (row_str : string) (allow_update : bool)
  : outcome :=
  match csv_row row_str with
  | Raise e => Rejected ("Invalid CSV row format: " ++ e)
  | Ok cols =>
      let row_cols := map strip cols in
      if negb (List.length row_cols =? List.length HEADER)%nat then
        Rejected ("CSV row must have "
                  ++ py_str_int (Z.of_nat (List.length HEADER))
                  ++ " columns, got "
                  ++ py_str_int (Z.of_nat (List.length row_cols)))
      else
        let row_id := hd EmptyString row_cols in
        if negb (truthy row_id) then
          Rejected "First column (ID) cannot be empty."
        else
          match file with
          | ReadError e =>
              Rejected ("Failed to read " ++ devices_path ++ ": " ++ e)
          | _ =>
              let existing_lines :=
                match file with
                | Content text => map chomp (readlines text)
                | _ => []
                end in
              let had_header :=
                match existing_lines with
                | [] => false
                | first :: _ =>
                    String.eqb (squeeze first) (squeeze header_line)
                end in
              let body :=
                if had_header then tl existing_lines else existing_lines in
              let '(body, replaced) :=
                if allow_update then
                  match replace_first row_id row_str body with
                  | Some body' => (body', true)
                  | None => (body ++ [row_str], false)
                  end
                else (body ++ [row_str], false) in
              let new_lines := header_line :: body in
              match write_error with
              | Some e =>
                  Rejected ("Failed to write " ++ devices_path ++ ": " ++ e)
              | None => Applied (write_lines new_lines) replaced
              end
          end
  end.

(** The branch from its arguments: [row] is [arguments.get("row") or
    ""], [fields] the object of [arguments.get("fields")], if it is
    one.  An object without entries counts as false, and
    [arguments.get("fields") or None] makes [None] of it. *)
Definition emux_applyconfig (devices_path : string) (file : devices_file)
  (write_error : option string) (row : string)
  (fields : option (list (string * option string))) (allow_update : bool)
  : outcome :=
  let row_str := strip row in
  if truthy row_str then
    apply_row devices_path file write_error row_str allow_update
  else
    match fields with
    | None | Some [] =>
        Rejected "Provide either 'row' (CSV line) or 'fields' (object with all columns)."
    | Some f =>
        match build_row_from_fields f with
        | Raise e => Rejected ("Could not build CSV row from fields: " ++ e)
        | Ok row_str =>
            apply_row devices_path file write_error row_str allow_update
        end
    end.

(** The lines that are the body of a devices file: what follows its
    header line, or all of it where the first line is no header. *)
Definition body_of (file : devices_file) : list string :=
  let existing_lines :=
    match file with
    | Content text => map chomp (readlines text)
    | _ => []
    end in
  match existing_lines with
  | [] => []
  | first :: rest =>
      if String.eqb (squeeze first) (squeeze header_line) then rest
      else existing_lines
  end.

(** A row that passes the checks of [apply_row], and its ID: it
    reads as nine columns, the first of which, stripped, is the ID
    and is not empty. *)
Definition accepted (row_str row_id : string) : Prop :=
  exists c0 rest,
    csv_row row_str = Ok (c0 :: rest)
    /\ List.length (c0 :: rest) = List.length HEADER
    /\ row_id = strip c0 /\ truthy row_id = true.

(** A row for the examples. *)
Definition dir868 : string :=
  "firmware/DIR-868L,qemu-system-arm,vexpress-a9,,,256M,zImage,VEXPRESS1,DIR-868L".

End ApplyConfig.

(* ================================================================= *)
(** ** The [firmae.history] branch of [handle_call] *)

Module History.
Import PyStr Logger FirmaeMcp Helpers Csv.

(** The value a row of [csv.DictReader] holds for the key [k], if it
    has the key: the last field name that is [k] counts, and a field
    name beyond the end of the row holds [None]. *)
Fixpoint column (fieldnames row : list string) (k : string)
  : option (option string) :=
  match fieldnames with
  | [] => None
  | f :: fieldnames' =>
      match column fieldnames' (tl row) k with
      | Some v => Some v
      | None => if String.eqb f k then Some (hd_error row) else None
      end
  end.

(** [r.get(k)] *)
Definition row_get (fieldnames row : list string) (k : string)
  : option string :=
  match column fieldnames row k with
  | Some v => v
  | None => None
  end.

Definition as_record (fieldnames row : list string) : record :=
  {| r_number := row_get fieldnames row "number";
     r_brand := row_get fieldnames row "brand";
     r_firmware_name := row_get fieldnames row "firmware_name";
     r_result := row_get fieldnames row "result" |}.

Definition is_empty_row (row : list string) : bool :=
  match row with [] => true | _ :: _ => false end.

(** [list(csv.DictReader(f))] for the lines of [f]: the first record
    gives the field names, and empty records are passed over. *)
Definition dict_reader (lines : list string) : res (list record) :=
  bind (csv_reader lines)
    (fun records =>
       match records with
       | [] => Ok []
       | fieldnames :: rows =>
           Ok (map (as_record fieldnames)
                 (filter (fun row => negb (is_empty_row row)) rows))
       end).

(** What the branch answers: that there is no ledger, that it cannot
    be read, that no record matches, or the rows of the listing. *)
Inductive shown : Type :=
| NoRecords
| Failed (e : string)
| NoMatching
| Listing (out : list record).

(** [read_error] is the exception of the opening or decoding of a
    ledger that cannot be read. *)
Definition firmae_history (csv : text_file) (read_error : string)
  (brand model : string) (success_only : bool) (last_n : option Z)
  : shown :=
  match csv with
  | NoFile => NoRecords
  | Broken => Failed read_error
  | Text content =>
      match dict_reader (readlines content) with
      | Raise e => Failed e
      | Ok rows =>
          match history brand model success_only last_n rows with
          | [] => NoMatching
          | out => Listing out
          end
      end
  end.

(** A row of at least two columns. *)
Definition wide (cols : list string) : Prop := (2 <= List.length cols)%nat.

(** The lines of the ledger after the header line. *)
Fixpoint ledger_text (rows : list row) : string :=
  match rows with
  | [] => EmptyString
  | r :: rest => (csv_line (row_fields r) ++ ledger_text rest)%string
  end.

(** A row as [append_emulation_record] returns it: a positive
    number, three flags, no line break in a text field. *)
Definition well_formed (r : row) : Prop :=
  (0 < number r)%Z /\ flag (ping r) /\ flag (web r) /\ flag (result r)
  /\ plain_row r.

(** The record that [csv.DictReader] is to make of a row of the
    ledger. *)
Definition record_of (r : row) : record :=
  {| r_number := Some (py_str_int (number r));
     r_brand := Some (brand r);
     r_firmware_name := Some (firmware_name r);
     r_result := Some (result r) |}.

Section Appended.

Variable float_nonzero : string -> option bool.

(** The rows that calls of [append_emulation_record] have returned,
    in their order, and the ledger they have written, from no file
    on, when no text field holds a line break. *)
Inductive appended : list row -> text_file -> Prop :=
| ap_none : appended [] NoFile
| ap_more rows csv latest fw brand_arg exit_code :
    appended rows csv ->
    plain_row (fst (append_emulation_record float_nonzero latest csv fw
                      brand_arg exit_code)) ->
    appended
      (rows ++ [fst (append_emulation_record float_nonzero latest csv fw
                       brand_arg exit_code)])
      (snd (append_emulation_record float_nonzero latest csv fw brand_arg
              exit_code)).

End Appended.

(** [",".join] of the fields as the writer writes them. *)
Definition row_line_of (cols : list string) : string :=
  join "," (map csv_field cols).

(** The ledger after one emulation of a firmware whose name holds a
    comma. *)
Definition one_comma : text_file :=
  snd (append_emulation_record no_float None NoFile "/firmware/a,b.bin"
         "dlink" 0).

End History.

(* ================================================================= *)
(** * Properties *)

(** ** Strings *)

Module StrFacts.
Import PyStr.

Lemma app_nil_r (s : string) : (s ++ "")%string = s.
Proof. induction s as [|c s IH]; simpl; [reflexivity | now rewrite IH]. Qed.

Lemma app_assoc (a b c : string) :
  ((a ++ b) ++ c)%string = (a ++ (b ++ c))%string.
Proof. induction a as [|x a IH]; simpl; [reflexivity | now rewrite IH]. Qed.

Lemma length_app (a b : string) :
  String.length (a ++ b) = String.length a + String.length b.
Proof. induction a as [|x a IH]; simpl; [reflexivity | now rewrite IH]. Qed.

Lemma truthy_app_l (a b : string) : truthy a = true -> truthy (a ++ b) = true.
Proof. destruct a; [discriminate | reflexivity]. Qed.

Lemma any_chr_app p (a b : string) :
  any_chr p (a ++ b)
  = (any_chr p a || any_chr p b)%bool.
Proof.
  induction a as [|x a IH]; simpl; [reflexivity|].
  now rewrite IH, orb_assoc.
Qed.

End StrFacts.

(** ** [sorted] over any iteration order of a set *)

Module PySetFacts.
Import PySet.

Lemma lt_irrefl a : ~ String_as_OT.lt a a.
Proof. exact (@StrictOrder_Irreflexive _ _ String_as_OT.lt_strorder a). Qed.

Lemma lt_trans a b c :
  String_as_OT.lt a b -> String_as_OT.lt b c -> String_as_OT.lt a c.
Proof. exact (@StrictOrder_Transitive _ _ String_as_OT.lt_strorder a b c). Qed.

Lemma lt_asym a b : String_as_OT.lt a b -> ~ String_as_OT.lt b a.
Proof. intros H1 H2. exact (lt_irrefl a (lt_trans a b a H1 H2)). Qed.

Lemma le_iff a b : le a b <-> ~ String_as_OT.lt b a.
Proof.
  unfold le, str_leb.
  destruct (String_as_OT.compare_spec a b) as [E | L | G].
  - red in E; subst. split; [intros _; apply lt_irrefl | reflexivity].
  - split; [intros _; now apply lt_asym | reflexivity].
  - split; [discriminate | intro H; contradiction].
Qed.

Lemma le_total a b : le a b \/ le b a.
Proof.
  rewrite !le_iff.
  destruct (String_as_OT.compare_spec a b) as [E | L | G].
  - red in E; subst. left. apply lt_irrefl.
  - left. now apply lt_asym.
  - right. now apply lt_asym.
Qed.

Lemma le_antisym a b : le a b -> le b a -> a = b.
Proof.
  rewrite !le_iff. intros H1 H2.
  destruct (String_as_OT.compare_spec a b) as [E | L | G];
    [exact E | contradiction | contradiction].
Qed.

Lemma le_trans a b c : le a b -> le b c -> le a c.
Proof.
  rewrite !le_iff. intros H1 H2 H3.
  destruct (String_as_OT.compare_spec a b) as [E | L | G].
  - red in E; subst. contradiction.
  - apply H2. exact (lt_trans c a b H3 L).
  - contradiction.
Qed.

Lemma not_le a b : str_leb a b = false -> le b a.
Proof.
  intro H. destruct (le_total a b) as [L | L]; [|assumption].
  unfold le in L. congruence.
Qed.

Lemma insert_perm x l : Permutation (insert x l) (x :: l).
Proof.
  induction l as [|y l IH]; simpl; [reflexivity|].
  destruct (str_leb x y); [reflexivity|].
  rewrite IH. apply perm_swap.
Qed.

Lemma sorted_perm l : Permutation (sorted l) l.
Proof.
  induction l as [|x l IH]; simpl; [constructor|].
  rewrite insert_perm. now constructor.
Qed.

Lemma sorted_in l x : In x (sorted l) <-> In x l.
Proof.
  split; apply Permutation_in;
    [apply sorted_perm | apply Permutation_sym, sorted_perm].
Qed.

Lemma insert_sorted x l :
  StronglySorted le l -> StronglySorted le (insert x l).
Proof.
  induction 1 as [|y l Hs IH Hall]; simpl.
  - repeat constructor.
  - destruct (str_leb x y) eqn:E.
    + constructor; [now constructor|].
      constructor; [exact E|].
      eapply Forall_impl; [|exact Hall].
      intros z Hz. eapply le_trans; [exact E | exact Hz].
    + constructor; [exact IH|].
      eapply Permutation_Forall;
        [apply Permutation_sym, insert_perm|].
      constructor; [now apply not_le | exact Hall].
Qed.

Lemma sorted_sorted l : StronglySorted le (sorted l).
Proof.
  induction l as [|x l IH]; simpl; [constructor | now apply insert_sorted].
Qed.

(** A sorted list is fixed by its elements. *)
Lemma sorted_unique l1 l2 :
  StronglySorted le l1 -> StronglySorted le l2 -> Permutation l1 l2 ->
  l1 = l2.
Proof.
  intros H1. revert l2.
  induction H1 as [|x l1 Hs1 IH Hall1]; intros l2 H2 P.
  - now apply Permutation_nil in P.
  - destruct H2 as [|y l2 Hs2 Hall2].
    + apply Permutation_sym, Permutation_nil in P. discriminate.
    + assert (x = y) as ->.
      { assert (In x (y :: l2)) as Hx
            by (eapply Permutation_in; [exact P | now left]).
        assert (In y (x :: l1)) as Hy
            by (eapply Permutation_in;
                [apply Permutation_sym; exact P | now left]).
        destruct Hx as [-> | Hx]; [reflexivity|].
        destruct Hy as [-> | Hy]; [reflexivity|].
        rewrite Forall_forall in Hall1, Hall2.
        apply le_antisym; auto. }
      f_equal. apply IH; [exact Hs2|].
      eapply Permutation_cons_inv; exact P.
Qed.

Lemma sorted_permutation l1 l2 :
  Permutation l1 l2 -> sorted l1 = sorted l2.
Proof.
  intro P. apply sorted_unique; try apply sorted_sorted.
  rewrite !sorted_perm. exact P.
Qed.

(** Two iteration orders of the same set are permutations of one
    another. *)
Lemma enum_permutation (S1 S2 : SetIteration) l :
  Permutation (@enum S1 l) (@enum S2 l).
Proof.
  apply NoDup_Permutation; try apply enum_nodup.
  intro x. now rewrite !enum_in.
Qed.

Lemma sorted_enum_independent (S1 S2 : SetIteration) l :
  sorted (@enum S1 l) = sorted (@enum S2 l).
Proof. apply sorted_permutation, enum_permutation. Qed.

Lemma sorted_enum_nodup `{SetIteration} l : NoDup (sorted (enum l)).
Proof.
  eapply Permutation_NoDup;
    [apply Permutation_sym, sorted_perm | apply enum_nodup].
Qed.

Lemma sorted_enum_in `{SetIteration} l x :
  In x (sorted (enum l)) <-> In x l.
Proof. now rewrite sorted_in, enum_in. Qed.

Lemma enum_nil `{SetIteration} : enum [] = [].
Proof.
  destruct (enum []) as [|x l] eqn:E; [reflexivity|].
  assert (In x (enum [])) as Hx by (rewrite E; now left).
  apply (proj1 (enum_in _ _)) in Hx. destruct Hx.
Qed.

Lemma enum_singleton `{SetIteration} x : enum [x] = [x].
Proof.
  pose proof (enum_nodup [x]) as N.
  pose proof (enum_in [x]) as I.
  destruct (enum [x]) as [|a l]; [|destruct l as [|b l]].
  - exfalso. assert (In x []) as [] by (apply I; now left).
  - f_equal.
    assert (In a [x]) as [E | []] by (apply I; now left).
    now symmetry.
  - exfalso.
    assert (In a [x]) as [E1 | []] by (apply I; now left).
    assert (In b [x]) as [E2 | []] by (apply I; right; now left).
    subst. inversion N as [|? ? Hn _]. apply Hn. now left.
Qed.

End PySetFacts.

(** ** The log classifier *)

Module AnalysisFacts.
Import PyStr Re PySet Analysis PySetFacts.

Lemma lit_ends_startswith l : forall prev s,
  lit_ends false l prev s <> [] -> startswith l s = true.
Proof.
  induction l as [|a l IH]; intros prev s H; simpl in *; [reflexivity|].
  destruct s as [|c s]; [now elim H|].
  unfold chr_eq in H. destruct (Ascii.eqb a c); [|now elim H].
  simpl. eapply IH; exact H.
Qed.

Lemma flat_map_nil_l {A B} (f : A -> list B) l :
  l = [] -> flat_map f l = [].
Proof. now intros ->. Qed.

Lemma web_on_here prev s :
  matches_here false re_web_on (prev, s) = true ->
  startswith WEB_ON s = true.
Proof.
  unfold matches_here, re_web_on. cbn [ends]. intro H.
  apply (lit_ends_startswith _ prev). intro E.
  unfold WEB_ON in E. rewrite E in H. discriminate.
Qed.

Lemma search_web_on_contains s : forall prev,
  search_from false re_web_on prev s = true -> contains WEB_ON s = true.
Proof.
  induction s as [|c s IH]; intros prev H; cbn [search_from] in H;
    apply orb_true_iff in H; destruct H as [H | H].
  - apply web_on_here in H. cbn [contains]. now rewrite H.
  - discriminate.
  - apply web_on_here in H. cbn [contains]. now rewrite H.
  - cbn [contains]. rewrite (IH _ H). apply orb_true_r.
Qed.

Lemma startswith_before_lf n : forall a b,
  no_lf n -> startswith n (a ++ String LF b) = true ->
  startswith n a = true.
Proof.
  unfold no_lf.
  induction n as [|c n IH]; intros a b N H; [reflexivity|].
  cbn [any_chr] in N. apply orb_false_iff in N.
  destruct N as [N1 N2].
  destruct a as [|c' a]; cbn [startswith append] in H |- *;
    apply andb_true_iff in H; destruct H as [H1 H2].
  - apply Ascii.eqb_eq in H1. subst c.
    rewrite Ascii.eqb_refl in N1. discriminate.
  - rewrite H1. cbn [andb]. eapply IH; eassumption.
Qed.

Lemma contains_app_lf n : forall a b,
  no_lf n -> contains n (a ++ String LF b) = true ->
  contains n a = true \/ contains n b = true.
Proof.
  induction a as [|c a IH]; intros b N H.
  - change (EmptyString ++ String LF b)%string with (String LF b) in H.
    cbn [contains] in H. apply orb_true_iff in H. destruct H as [H | H].
    + left. apply (startswith_before_lf n EmptyString b N) in H.
      simpl. now rewrite H.
    + now right.
  - change (String c a ++ String LF b)%string
      with (String c (a ++ String LF b)) in H.
    cbn [contains] in H. apply orb_true_iff in H. destruct H as [H | H].
    + left. apply (startswith_before_lf n (String c a) b N) in H.
      cbn [contains]. now rewrite H.
    + destruct (IH b N H) as [H' | H'].
      * left. cbn [contains]. rewrite H'. apply orb_true_r.
      * now right.
Qed.

Lemma contains_join n l :
  no_lf n -> n <> EmptyString -> contains n (join nl l) = true ->
  exists v, In v l /\ contains n v = true.
Proof.
  intros N NE. unfold join.
  induction l as [|x l IH]; intro H.
  - simpl in H. destruct n; [now elim NE | discriminate].
  - destruct l as [|y l].
    + exists x. split; [now left | exact H].
    + change (String.concat nl (x :: y :: l))
        with (x ++ String LF (String.concat nl (y :: l)))%string in H.
      apply contains_app_lf in H; [|exact N].
      destruct H as [H | H].
      * exists x. split; [now left | exact H].
      * destruct (IH H) as [v [Hv Hc]]. exists v. split; [now right | exact Hc].
Qed.

(** Where no log holds the text "Web service on ", the pattern
    [Web service on .*] finds nothing in the joined text. *)
Lemma web_on_absent (b : bundle) :
  (forall v, In v (values b) -> contains WEB_ON v = false) ->
  search false re_web_on (combined b) = false.
Proof.
  intro H. destruct (search false re_web_on (combined b)) eqn:E;
    [|reflexivity].
  apply search_web_on_contains in E.
  apply contains_join in E; [| reflexivity | discriminate].
  destruct E as [v [Hv Hc]].
  apply filter_In in Hv. destruct Hv as [Hv _].
  rewrite (H v Hv) in Hc. discriminate.
Qed.

Lemma search_nonempty r s :
  search false r EmptyString = false -> search false r s = true ->
  truthy s = true.
Proof. intros H0 H. destruct s; [congruence | reflexivity]. Qed.

Lemma all_empty_combined (b : bundle) :
  (forall v, In v (values b) -> v = EmptyString) ->
  combined b = EmptyString.
Proof.
  intro H. unfold combined.
  replace (filter truthy (values b)) with (@nil string); [reflexivity|].
  symmetry. induction (values b) as [|v l IH]; [reflexivity|].
  simpl. rewrite (H v (or_introl eq_refl)). simpl.
  apply IH. intros w Hw. apply H. now right.
Qed.

Lemma all_empty_get (b : bundle) k :
  (forall v, In v (values b) -> v = EmptyString) ->
  dict_get b k EmptyString = EmptyString.
Proof.
  induction b as [|[k' v] b IH]; intro H; [reflexivity|].
  simpl. destruct (String.eqb k' k).
  - apply H. now left.
  - apply IH. intros w Hw. apply H. now right.
Qed.

Lemma all_empty_reasons (b : bundle) :
  (forall v, In v (values b) -> v = EmptyString) -> reasons_of b = [].
Proof.
  intro H. unfold reasons_of.
  rewrite (all_empty_combined b H), (all_empty_get b _ H).
  reflexivity.
Qed.

(** C4: the report does not depend on the order in which the
    interpreter iterates the set of reasons, so two runs on the same
    bundle give the same list in the same order; the list is sorted
    as text and holds no label twice; a bundle whose values are all
    empty gives the empty report. *)
Theorem analyze_logs_deterministic (S1 S2 : SetIteration) (b : bundle) :
  @_analyze_logs S1 b = @_analyze_logs S2 b
  /\ StronglySorted (fun x y => str_leb x y = true) (@_analyze_logs S1 b)
  /\ NoDup (@_analyze_logs S1 b)
  /\ ((forall v, In v (values b) -> v = EmptyString) ->
      @_analyze_logs S1 b = []).
Proof.
  unfold _analyze_logs. repeat split.
  - apply sorted_enum_independent.
  - apply sorted_sorted.
  - apply sorted_enum_nodup.
  - intro H. rewrite (all_empty_reasons b H), enum_nil. reflexivity.
Qed.

(** Two iteration orders on a bundle of empty logs. *)
Lemma analyze_logs_deterministic_witness :
  @_analyze_logs first_seen [("makeImage.log", ""); ("emulation.log", "")]
  = [].
Proof.
  apply (analyze_logs_deterministic first_seen last_first).
  intros v [<- | [<- | []]]; reflexivity.
Defined.

(** C7: on the bundle that maps qemu.final.serial.log to
    "Kernel panic - not syncing" the rule "QEMU boot/kernel failure"
    fires, no other rule does, and the report is that one label. *)
Theorem kernel_panic_report `{SetIteration} :
  fired PATTERNS (combined kernel_panic) = ["QEMU boot/kernel failure"]
  /\ reasons_of kernel_panic = ["QEMU boot/kernel failure"]
  /\ _analyze_logs kernel_panic = ["QEMU boot/kernel failure"]
  /\ _analyze_logs kernel_panic_full = ["QEMU boot/kernel failure"].
Proof.
  unfold _analyze_logs.
  replace (reasons_of kernel_panic) with ["QEMU boot/kernel failure"]
    by (vm_compute; reflexivity).
  replace (reasons_of kernel_panic_full) with ["QEMU boot/kernel failure"]
    by (vm_compute; reflexivity).
  rewrite enum_singleton.
  split; [vm_compute; reflexivity | repeat split; reflexivity].
Qed.

(** C8: when makeNetwork.log matches
    [Network reachable on \d+\.\d+\.\d+\.\d+] and no log of the
    bundle holds the text "Web service on ", the report includes
    "Network reachable but web service not detected". *)
Theorem web_hint_reported `{SetIteration} (b : bundle) :
  search false re_reachable (dict_get b "makeNetwork.log" "") = true ->
  (forall v, In v (values b) -> contains "Web service on " v = false) ->
  In "Network reachable but web service not detected" (_analyze_logs b).
Proof.
  intros Hmk Hweb. unfold _analyze_logs.
  apply sorted_enum_in. unfold reasons_of.
  rewrite Hmk, (web_on_absent b Hweb).
  rewrite (search_nonempty re_reachable _ eq_refl Hmk).
  simpl. apply in_or_app. right. now left.
Qed.

(** The bundle that maps makeNetwork.log to
    "Network reachable on 10.0.0.1". *)
Lemma web_hint_reported_witness :
  In "Network reachable but web service not detected"
    (@_analyze_logs first_seen reachable_only).
Proof.
  apply (@web_hint_reported first_seen reachable_only).
  - vm_compute. reflexivity.
  - intros v [<- | []]. vm_compute. reflexivity.
Defined.

(** *** Tail extraction *)

Lemma splitlines_acc_plain s : forall acc,
  no_linebreak s -> truthy (acc ++ s) = true ->
  splitlines_acc acc s = [(acc ++ s)%string].
Proof.
  unfold no_linebreak.
  induction s as [|c s IH]; intros acc N T.
  - rewrite StrFacts.app_nil_r in *. simpl. now rewrite T.
  - cbn [any_chr] in N. apply orb_false_iff in N.
    destruct N as [N1 N2]. cbn [splitlines_acc]. rewrite N1.
    rewrite IH; [| exact N2 |].
    + now rewrite StrFacts.app_assoc.
    + rewrite StrFacts.app_assoc. exact T.
Qed.

Lemma splitlines_plain s :
  no_linebreak s -> truthy s = true -> splitlines s = [s].
Proof. intros N T. apply (splitlines_acc_plain s EmptyString N T). Qed.

Lemma slice_from_last_one {A} (x : A) (n : Z) :
  (1 <= n)%Z -> slice_from (- n) [x] = [x].
Proof.
  intro H. unfold slice_from, clip. cbn [List.length].
  destruct (- n <? 0)%Z eqn:E; [|apply Z.ltb_ge in E; lia].
  replace (Z.to_nat (Z.max 0 (Z.of_nat 1 + - n))) with 0%nat by lia.
  reflexivity.
Qed.

(** C10: [_safe_tail] returns a string in every state of the file;
    a missing file gives the empty string; a file that exists and
    cannot be read gives the non-empty text
    "[could not read <path>: <error>]".  That text is handled as log
    text from there on: it passes the non-empty filter of the
    classifier, a file whose content decodes to the same text gives
    the same value, and the words of the error message fire rules
    (here "Permission denied"). *)
Theorem safe_tail_read_failure
  (decode_replace : list Byte.byte -> string) (path e : string)
  (max_bytes max_lines : Z) :
  let r := ("[could not read " ++ path ++ ": " ++ e ++ "]")%string in
  _safe_tail decode_replace Missing path max_bytes max_lines = EmptyString
  /\ _safe_tail decode_replace (Unreadable e) path max_bytes max_lines = r
  /\ startswith "[could not read" r = true
  /\ truthy r = true
  /\ (forall name, combined [(name, r)] = r)
  /\ (forall data,
        decode_replace data = r -> no_linebreak r ->
        (Z.of_nat (List.length data) <= max_bytes)%Z ->
        (1 <= max_lines)%Z ->
        _safe_tail decode_replace (Readable data) path max_bytes max_lines
        = r)
  /\ (forall S : SetIteration,
        let texts :=
          snd (_collect_failure_context decode_replace denied_fs
                 (Some "/scratch/1")) in
        have_any_logs texts = true
        /\ @_analyze_logs S texts = ["Permission / capability problem"]).
Proof.
  intro r. repeat split; try reflexivity.
  - intros data D N Hb Hl. unfold _safe_tail.
    destruct (Z.of_nat (List.length data) >? max_bytes)%Z eqn:E;
      [apply Z.gtb_lt in E; lia|].
    rewrite D, (splitlines_plain r N eq_refl).
    rewrite (slice_from_last_one r max_lines Hl). reflexivity.
  - unfold _analyze_logs.
    match goal with
    | |- sorted (enum (reasons_of ?b)) = _ =>
        replace (reasons_of b) with ["Permission / capability problem"]
          by (vm_compute; reflexivity)
    end.
    now rewrite enum_singleton.
Qed.

(** A log file whose content is the text of a failed read. *)
Lemma safe_tail_read_failure_witness :
  let decode := string_of_list_byte in
  let r := "[could not read /scratch/1/emulation.log: boom]" in
  _safe_tail decode (Readable (list_byte_of_string r))
    "/scratch/1/emulation.log" 64000 200
  = _safe_tail decode (Unreadable "boom") "/scratch/1/emulation.log"
      64000 200.
Proof.
  intros decode r.
  destruct (safe_tail_read_failure decode "/scratch/1/emulation.log" "boom"
              64000 200) as (_ & Hfail & _ & _ & _ & Hsame & _).
  rewrite Hfail. apply Hsame.
  - apply string_of_list_byte_of_string.
  - vm_compute. reflexivity.
  - vm_compute. discriminate.
  - lia.
Defined.

End AnalysisFacts.

(** ** The run store *)

Module SqliteFacts.
Import PyStr SqliteHelper.

Lemma substring_length (s : string) : forall n,
  n <= String.length s -> String.length (substring 0 n s) = n.
Proof.
  induction s as [|c s IH]; intros [|n] H; simpl in *;
    try reflexivity; try lia.
  rewrite IH; lia.
Qed.

Lemma substring_is_prefix (s : string) : forall n,
  exists rest, s = (substring 0 n s ++ rest)%string.
Proof.
  induction s as [|c s IH]; intros [|n]; simpl.
  - now exists EmptyString.
  - now exists EmptyString.
  - now exists (String c s).
  - destruct (IH n) as [rest E]. exists rest. now rewrite <- E.
Qed.

Lemma clip_nonneg (len : nat) (i : Z) :
  (0 <= i)%Z -> clip len i = Nat.min len (Z.to_nat i).
Proof.
  intro H. unfold clip.
  destruct (i <? 0)%Z eqn:E; [apply Z.ltb_lt in E; lia | reflexivity].
Qed.

(** What [bounded] keeps of a text, for a maximum that is not
    negative. *)
Lemma bounded_spec (content : string) (max_content : Z) :
  (0 <= max_content)%Z ->
  let len := Z.of_nat (String.length content) in
  let head := substring 0 (Z.to_nat max_content) content in
  ((len <= max_content)%Z -> bounded content max_content = content)
  /\ ((max_content < len)%Z ->
      bounded content max_content = (head ++ TRUNCATED)%string
      /\ Z.of_nat (String.length head) = max_content)
  /\ (Z.of_nat (String.length (bounded content max_content))
      <= max_content + Z.of_nat (String.length TRUNCATED))%Z.
Proof.
  intros Hmax len head. unfold bounded. fold len.
  destruct (len <=? max_content)%Z eqn:E.
  - apply Z.leb_le in E. repeat split; [lia | lia | lia].
  - apply Z.leb_gt in E.
    assert (slice_to max_content content = head) as Hs.
    { unfold slice_to. rewrite clip_nonneg by exact Hmax.
      unfold head. f_equal. unfold len in E. lia. }
    assert (Z.of_nat (String.length head) = max_content) as Hl.
    { unfold head. rewrite substring_length; unfold len in E; lia. }
    rewrite Hs. repeat split; try lia.
    rewrite StrFacts.length_app. lia.
Qed.

Section StoreFacts.

Context {real : Type}.

(** After [kb_init] the three tables exist: the ones found, with their
    rows, and the missing ones empty. *)
Lemma kb_init_tables (file : option (@db real)) :
  runs (kb_init file)
  = Some (match runs (connect file) with
          | Some t => t | None => empty_table end)
  /\ analyses (kb_init file)
     = Some (match analyses (connect file) with
             | Some t => t | None => empty_table end)
  /\ analyses_fts (kb_init file)
     = Some (match analyses_fts (connect file) with
             | Some t => t | None => [] end).
Proof.
  unfold kb_init, create_if_not_exists.
  destruct (connect file) as [j r a f].
  cbn [runs analyses analyses_fts].
  destruct r, a, f; repeat split; reflexivity.
Qed.

(** C9: a second [kb_init] changes nothing: the journal mode, the
    three tables and their rows are as the first call left them;
    and the first call keeps every table that exists, with its
    rows, and creates the missing ones empty. *)
Theorem kb_init_idempotent (file : option (@db real)) :
  kb_init (Some (kb_init file)) = kb_init file
  /\ runs (kb_init file)
     = Some (match runs (connect file) with
             | Some t => t | None => empty_table end)
  /\ analyses (kb_init file)
     = Some (match analyses (connect file) with
             | Some t => t | None => empty_table end)
  /\ analyses_fts (kb_init file)
     = Some (match analyses_fts (connect file) with
             | Some t => t | None => [] end).
Proof.
  unfold kb_init, create_if_not_exists. cbn [connect].
  destruct (connect file) as [j r a f].
  cbn [runs analyses analyses_fts journal_mode].
  destruct r, a, f; repeat split; reflexivity.
Qed.


End StoreFacts.


End SqliteFacts.

(** ** The process runner and the read loop *)

Module FirmaeMcpFacts.
Import PyStr FirmaeMcp Search.

Lemma endswith_refl p : endswith p p = true.
Proof. destruct p; simpl; [reflexivity|]. now rewrite Ascii.eqb_refl, String.eqb_refl. Qed.

Lemma endswith_app p : forall a, endswith p (a ++ p) = true.
Proof.
  induction a as [|c a IH].
  - apply endswith_refl.
  - change (String c a ++ p)%string with (String c (a ++ p)).
    cbn [endswith]. rewrite IH. apply orb_true_r.
Qed.


Section RunnerFacts.

Context {real : Type}.
Variable decode_replace : list Byte.byte -> string.
Variable subprocess_run : string -> option Z -> launch * real.


End RunnerFacts.

(** C3, as stated, fails for the method name [ping]: a ping without
    an identifier is answered, with the identifier 0. *)
Lemma ping_notification_answered :
  written (step no_tool JNull no_format utf8 no_refusal start
             (Parsed ping_notification))
  = [reply_result (JInt 0) (JDict [("ok", JBool true)])].
Proof. vm_compute. reflexivity. Qed.

(** C5: on the inline path the code departs from the claim.  For the
    request [{"jsonrpc":"2.0","id":1,"method":"tools/call","params":null}]
    the handler raises an AttributeError.  The loop answers with the
    JSON-RPC error object -32603, not with a result that carries
    [isError], and goes on; [run_and_reply], the wrapper of the worker
    thread, turns the same failure into the result with [isError] true
    and the text "Internal error: ...".  The UnboundLocalError of
    [firmae.search] for a D-Link model comes back as the error object
    too.  Under an identifier that stdout cannot encode ([e] with an
    acute accent, stdout with ASCII) the first request ends the loop
    with nothing written: the [jwrite] of the handler of the loop
    raises too. *)
Theorem inline_failure_is_error_object :
  let st1 := step no_tool JNull no_format utf8 no_refusal start
               (Parsed call_null_params) in
  let st2 := step no_tool JNull no_format ascii_only ascii_refusal start
               (Parsed call_accent_id) in
  let st3 := step (with_search (fun _ _ w => (Ok JNull, w)) None
                     unbound_311 no_tool)
               JNull no_format utf8 no_refusal start
               (Parsed (search_call (JInt 2)
                          (JDict [("brand", JStr "dlink");
                                  ("model", JStr "dir-868l")]))) in
  fst (handle_call no_tool no_format JNull tt)
  = Raise "'NoneType' object has no attribute 'get'"
  /\ written st1
     = [reply_error (JInt 1) (-32603)
          "'NoneType' object has no attribute 'get'"]
  /\ crashed st1 = None
  /\ written (run_and_reply no_tool no_format utf8 no_refusal
                {| t_mid := JInt 1; t_params := JNull |} start)
     = [reply_result (JInt 1)
          (tool_result
             [text_item
                "Internal error: 'NoneType' object has no attribute 'get'"]
             true)]
  /\ written st3 = [reply_error (JInt 2) (-32603) (unbound_311 "cmd")]
  /\ crashed st3 = None
  /\ written st2 = [] /\ crashed st2 = Some ASCII_REFUSAL.
Proof. vm_compute. repeat split. Qed.

Section LoopFacts.

Context {world : Type}.
Variable tool_body : string -> json -> world -> res json * world.
Variable list_tools : json.
Variable py_format : json -> string.
Variable stdout_encodes : ascii -> bool.
Variable encode_error : json -> string.

Local Abbreviation handle_call' := (handle_call tool_body py_format).
Local Abbreviation step' :=
  (step tool_body list_tools py_format stdout_encodes encode_error).
Local Abbreviation encodable' := (encodable stdout_encodes).

(** C3, amended: a parsed message without an identifier whose
    method name is truthy and is not [ping] changes nothing but
    the binding of [msg]: no reply is written, no thread is
    started and the loop goes on.  A ping without an identifier is
    answered with the identifier 0. *)
Theorem notification_dropped (st : @state world)
  (d : list (string * json)) (m : json) :
  crashed st = None ->
  get (JDict d) "id" JNull = Ok JNull ->
  get (JDict d) "method" JNull = Ok m ->
  jtruthy m = true ->
  (is_ping m = false ->
   step' st (Parsed (JDict d)) = set_msg (JDict d) st)
  /\ (is_ping m = true ->
      step' st (Parsed (JDict d))
      = wrote (reply_result (JInt 0) (JDict [("ok", JBool true)]))
          (set_msg (JDict d) st)).
Proof.
  intros Hc Hid Hm Ht. unfold step', step. rewrite Hc.
  unfold dispatch, attempt. rewrite Hid, Hm.
  cbn [get]. split; intros ->; cbn [is_null andb]; [now rewrite Ht|].
  reflexivity.
Qed.

(** What the loop does for every tool that runs inline when its
    handler raises: the handler of the loop writes the error object
    -32603 with the text of the exception, where stdout can encode it,
    and the loop ends where it cannot. *)
Lemma inline_failure_reply (st : @state world)
  (d : list (string * json)) (mid params tool_name : json)
  (e : string) (w : world) :
  crashed st = None ->
  get (JDict d) "id" JNull = Ok mid ->
  is_null mid = false ->
  get (JDict d) "method" JNull = Ok (JStr "tools/call") ->
  get (JDict d) "params" (JDict []) = Ok params ->
  get (por params (JDict [])) "name" (JStr "") = Ok tool_name ->
  in_str_set tool_name LONG = Ok false ->
  handle_call' params (env st) = (Raise e, w) ->
  let st0 := set_env w (set_msg (JDict d) st) in
  step' st (Parsed (JDict d))
  = if encodable' (reply_error mid (-32603) e)
    then wrote (reply_error mid (-32603) e) st0
    else crash (encode_error (reply_error mid (-32603) e)) st0.
Proof.
  intros Hc Hid Hnn Hm Hp Hn Hl Hh st0.
  unfold step', step. rewrite Hc.
  unfold dispatch, attempt. rewrite Hid, Hm, Hp.
  cbn [is_ping method_is String.eqb Ascii.eqb Bool.eqb]. rewrite Hnn.
  cbn [andb]. rewrite Hn, Hl.
  cbn [env set_msg]. fold handle_call'. rewrite Hh.
  unfold on_exception. cbn [msg set_env set_msg]. rewrite Hid.
  unfold jwrite. fold st0.
  destruct (encodable stdout_encodes (reply_error mid (-32603) e));
    reflexivity.
Qed.

End LoopFacts.

(** The notification [notifications/initialized]. *)
Lemma notification_dropped_witness :
  written (step no_tool JNull no_format utf8 no_refusal start
             (Parsed initialized_notification)) = []
  /\ threads (step no_tool JNull no_format utf8 no_refusal start
                (Parsed initialized_notification)) = [].
Proof.
  destruct (notification_dropped no_tool JNull no_format utf8 no_refusal start
              [("jsonrpc", JStr "2.0");
               ("method", JStr "notifications/initialized")]
              (JStr "notifications/initialized")
              eq_refl eq_refl eq_refl eq_refl) as [H _].
  unfold initialized_notification. rewrite (H eq_refl).
  split; reflexivity.
Defined.

(** The failures a handler finds by itself do not raise: a missing
    argument of [firmae.emulate] and an unknown tool name come back
    from [handle_call] as results with [isError] true, in the worker
    thread and inline alike; an exception of the work of an inline
    tool comes back as the error object. *)
Lemma reported_failures_are_results :
  written (run_and_reply no_tool no_format utf8 no_refusal
             {| t_mid := JInt 4; t_params := emulate_no_firmware |} start)
  = [reply_result (JInt 4)
       (tool_result [text_item "Missing brand or firmware_file"] true)]
  /\ written (step no_tool JNull no_format utf8 no_refusal start
                (Parsed (JDict [("id", JInt 5); ("method", JStr "tools/call");
                                ("params", JDict [("name", JStr "nope")])])))
     = [reply_result (JInt 5) (tool_result [text_item "Unknown tool: nope"] true)]
  /\ written (step failing_tool JNull no_format utf8 no_refusal start
                (Parsed call_clean))
     = [reply_error (JInt 2) (-32603) "boom"].
Proof. vm_compute. repeat split; reflexivity. Qed.

End FirmaeMcpFacts.

(** ** The history ledger *)

Module LoggerFacts.
Import PyStr Logger.

(** *** Reading lines *)

Lemma is_eol_false c :
  is_eol c = false -> Ascii.eqb c CR = false /\ Ascii.eqb c LF = false.
Proof. unfold is_eol. intro H. now apply orb_false_iff in H. Qed.

Lemma readlines_chr acc c s :
  is_eol c = false ->
  readlines_acc acc (String c s) = readlines_acc (acc ++ String c "") s.
Proof.
  intro H. apply is_eol_false in H. destruct H as [H1 H2].
  cbn [readlines_acc]. now rewrite H2, H1.
Qed.

Lemma readlines_plain ln : forall acc rest,
  line_free ln ->
  readlines_acc acc (ln ++ CRLF ++ rest)
  = (acc ++ ln ++ nl)%string :: readlines_acc EmptyString rest.
Proof.
  unfold line_free.
  induction ln as [|c ln IH]; intros acc rest N.
  - reflexivity.
  - cbn [any_chr] in N. apply orb_false_iff in N. destruct N as [N1 N2].
    change (String c ln ++ CRLF ++ rest)%string
      with (String c (ln ++ CRLF ++ rest)).
    rewrite (readlines_chr _ _ _ N1), (IH _ _ N2).
    now rewrite StrFacts.app_assoc.
Qed.

Lemma readlines_split c rest :
  (forall acc,
     readlines_acc acc (c ++ CRLF ++ rest)
     = readlines_acc acc (c ++ CRLF) ++ readlines_acc EmptyString rest)
  /\ after_cr (c ++ CRLF ++ rest)
     = after_cr (c ++ CRLF) ++ readlines_acc EmptyString rest.
Proof.
  induction c as [|a c [IH1 IH2]].
  - assert (forall acc,
              readlines_acc acc (CRLF ++ rest)
              = readlines_acc acc CRLF ++ readlines_acc EmptyString rest)
      as H by reflexivity.
    split; [exact H | exact (H EmptyString)].
  - assert (forall acc,
              readlines_acc acc (String a c ++ CRLF ++ rest)
              = readlines_acc acc (String a c ++ CRLF)
                  ++ readlines_acc EmptyString rest) as H.
    { intro acc.
      change (String a c ++ CRLF ++ rest)%string
        with (String a (c ++ CRLF ++ rest)).
      change (String a c ++ CRLF)%string with (String a (c ++ CRLF)).
      cbn [readlines_acc].
      destruct (Ascii.eqb a LF); [now rewrite IH1|].
      destruct (Ascii.eqb a CR); [|apply IH1].
      change (match (c ++ CRLF ++ rest)%string with
              | String c2 s'' =>
                  if Ascii.eqb c2 LF then readlines_acc EmptyString s''
                  else readlines_acc EmptyString (c ++ CRLF ++ rest)
              | EmptyString => readlines_acc EmptyString (c ++ CRLF ++ rest)
              end) with (after_cr (c ++ CRLF ++ rest)).
      change (match (c ++ CRLF)%string with
              | String c2 s'' =>
                  if Ascii.eqb c2 LF then readlines_acc EmptyString s''
                  else readlines_acc EmptyString (c ++ CRLF)
              | EmptyString => readlines_acc EmptyString (c ++ CRLF)
              end) with (after_cr (c ++ CRLF)).
      now rewrite IH2. }
    split; [exact H|].
    change (String a c ++ CRLF ++ rest)%string
      with (String a (c ++ CRLF ++ rest)).
    change (String a c ++ CRLF)%string with (String a (c ++ CRLF)).
    cbn [after_cr].
    destruct (Ascii.eqb a LF); [apply IH1|].
    apply (H EmptyString).
Qed.

Lemma readlines_append c ln :
  line_free ln ->
  readlines ((c ++ CRLF) ++ ln ++ CRLF)
  = readlines (c ++ CRLF) ++ [(ln ++ nl)%string].
Proof.
  intro N. unfold readlines.
  rewrite StrFacts.app_assoc.
  rewrite (proj1 (readlines_split c (ln ++ CRLF))).
  f_equal.
  replace (ln ++ CRLF)%string with (ln ++ CRLF ++ "")%string by reflexivity.
  now rewrite (readlines_plain ln EmptyString EmptyString N).
Qed.

(** *** Stripping a line *)

Lemma rstrip_app_space sp s c :
  sp c = true -> rstrip_of sp (s ++ String c "") = rstrip_of sp s.
Proof.
  intro H. induction s as [|a s IH].
  - simpl. now rewrite H.
  - change (String a s ++ String c "")%string
      with (String a (s ++ String c "")).
    cbn [rstrip_of]. now rewrite IH.
Qed.

Lemma rstrip_ends_solid sp s c :
  sp c = false ->
  rstrip_of sp (s ++ String c "") = (s ++ String c "")%string.
Proof.
  intro H. induction s as [|a s IH].
  - simpl. now rewrite H.
  - change (String a s ++ String c "")%string
      with (String a (s ++ String c "")).
    cbn [rstrip_of]. rewrite IH. now destruct s.
Qed.

Lemma strip_solid_line s : solid s -> strip (s ++ nl) = s /\ truthy s = true.
Proof.
  intros [(c & rest & E1 & H1) (pre & c' & E2 & H2)].
  split; [|now rewrite E1].
  unfold strip, strip_of.
  assert (lstrip_of is_space (s ++ nl) = (s ++ nl)%string) as ->
      by (rewrite E1; simpl; now rewrite H1).
  unfold nl. rewrite rstrip_app_space by reflexivity.
  rewrite E2. now apply rstrip_ends_solid.
Qed.

(** *** The digits of a number *)

Lemma digit_facts c :
  Re.digit c = true ->
  is_space c = false /\ is_eol c = false /\ Ascii.eqb c "," = false
  /\ Ascii.eqb c "+" = false /\ Ascii.eqb c "-" = false
  /\ Ascii.eqb c "_" = false /\ needs_quote c = false
  /\ is_int_space c = false.
Proof.
  destruct c as [[] [] [] [] [] [] [] []]; vm_compute; intro H;
    try discriminate; repeat split.
Qed.

Lemma uint_digits d : all_digits (DecimalString.NilEmpty.string_of_uint d).
Proof.
  unfold all_digits.
  induction d; cbn [DecimalString.NilEmpty.string_of_uint any_chr];
    try reflexivity; rewrite IHd; reflexivity.
Qed.

Lemma int_digits_all s :
  all_digits s -> int_digits true s = Some s.
Proof.
  unfold all_digits. induction s as [|c s IH]; intro H; [reflexivity|].
  cbn [any_chr] in H. apply orb_false_iff in H. destruct H as [H1 H2].
  apply negb_false_iff in H1. cbn [int_digits]. rewrite H1, (IH H2).
  reflexivity.
Qed.

Lemma rstrip_none sp s : any_chr sp s = false -> rstrip_of sp s = s.
Proof.
  induction s as [|c s IH]; intro H; [reflexivity|].
  cbn [any_chr] in H. apply orb_false_iff in H. destruct H as [H1 H2].
  cbn [rstrip_of]. rewrite (IH H2).
  destruct s; [now rewrite H1 | reflexivity].
Qed.

Lemma all_digits_no p s :
  (forall c, Re.digit c = true -> p c = false) ->
  all_digits s -> any_chr p s = false.
Proof.
  unfold all_digits. intro Hp.
  induction s as [|c s IH]; intro H; [reflexivity|].
  cbn [any_chr] in H |- *. apply orb_false_iff in H. destruct H as [H1 H2].
  apply negb_false_iff in H1. now rewrite (Hp c H1), (IH H2).
Qed.

Lemma str_pos_digits p :
  all_digits (py_str_int (Zpos p))
  /\ exists c rest, py_str_int (Zpos p) = String c rest /\ Re.digit c = true.
Proof.
  unfold py_str_int. cbn [Z.to_int DecimalString.NilEmpty.string_of_int].
  pose proof (uint_digits (Pos.to_uint p)) as D.
  pose proof (DecimalPos.Unsigned.to_uint_nonnil p) as NN.
  split; [exact D|].
  destruct (Pos.to_uint p) eqn:E; [now elim NN| | | | | | | | | |];
    cbn [DecimalString.NilEmpty.string_of_uint]; do 2 eexists;
    (split; [reflexivity | reflexivity]).
Qed.

(** [int(str(n)) == n] for a positive [n]. *)
Lemma py_int_str p : py_int (py_str_int (Zpos p)) = Some (Zpos p).
Proof.
  destruct (str_pos_digits p) as [D (c & rest & E & Hc)].
  destruct (digit_facts c Hc) as (_ & _ & _ & Hplus & Hminus & _ & _ & Hs).
  unfold py_int, strip_of.
  assert (lstrip_of is_int_space (py_str_int (Z.pos p)) = py_str_int (Z.pos p))
    as -> by (rewrite E; simpl; now rewrite Hs).
  rewrite rstrip_none
    by (apply all_digits_no; [intros x Hx; apply (digit_facts x Hx) | exact D]).
  rewrite E, Hplus, Hminus, <- E.
  unfold int_magnitude.
  assert (int_digits false (py_str_int (Z.pos p)) = Some (py_str_int (Z.pos p)))
    as ->.
  { rewrite E in D |- *. unfold all_digits in D. cbn [any_chr] in D.
    apply orb_false_iff in D. destruct D as [_ D].
    cbn [int_digits]. rewrite Hc, (int_digits_all rest D). reflexivity. }
  unfold py_str_int. cbn [Z.to_int DecimalString.NilEmpty.string_of_int].
  rewrite DecimalString.NilEmpty.usu. cbn [option_map]. unfold Z.of_uint.
  now rewrite DecimalPos.Unsigned.of_to.
Qed.

Lemma first_col_app a rest :
  any_chr (fun c => Ascii.eqb c ",") a = false ->
  first_col (a ++ String "," rest) = a.
Proof.
  induction a as [|c a IH]; intro H.
  - reflexivity.
  - cbn [any_chr] in H. apply orb_false_iff in H. destruct H as [H1 H2].
    change (String c a ++ String "," rest)%string
      with (String c (a ++ String "," rest)).
    cbn [first_col]. now rewrite H1, (IH H2).
Qed.

(** *** The line of a row *)

Lemma csv_line_row r : csv_line (row_fields r) = (row_line r ++ CRLF)%string.
Proof. reflexivity. Qed.

Lemma double_quotes_line_free f :
  line_free f -> line_free (double_quotes f).
Proof.
  unfold line_free. induction f as [|c f IH]; intro H; [reflexivity|].
  cbn [any_chr] in H. apply orb_false_iff in H. destruct H as [H1 H2].
  cbn [double_quotes]. destruct (Ascii.eqb c DQUOTE);
    cbn [any_chr]; now rewrite ?H1, (IH H2).
Qed.

Lemma csv_field_line_free f : line_free f -> line_free (csv_field f).
Proof.
  intro H. unfold csv_field. destruct (any_chr needs_quote f); [|exact H].
  unfold line_free. cbn [any_chr]. rewrite StrFacts.any_chr_app.
  now rewrite (double_quotes_line_free f H).
Qed.

Lemma csv_field_digits s : all_digits s -> csv_field s = s.
Proof.
  intro D. unfold csv_field.
  rewrite (all_digits_no needs_quote s); [reflexivity | | exact D].
  intros c Hc. apply (digit_facts c Hc).
Qed.

Lemma flag_field s : flag s -> csv_field s = s /\ line_free s.
Proof. intros [-> | ->]; split; reflexivity. Qed.

Lemma flag_bool b : flag (_to_bool_str b).
Proof. destruct b; [now left | now right]. Qed.

Lemma ends_solid_app a b : ends_solid b -> ends_solid (a ++ b).
Proof.
  intros (pre & c & -> & H). exists (a ++ pre)%string, c.
  split; [now rewrite StrFacts.app_assoc | exact H].
Qed.

Lemma ends_solid_flag s : flag s -> ends_solid s.
Proof.
  intros [-> | ->]; [exists "tru" | exists "fals"]; exists "e"%char;
    split; reflexivity.
Qed.

Lemma line_free_app a b : line_free a -> line_free b -> line_free (a ++ b).
Proof.
  unfold line_free. intros Ha Hb. now rewrite StrFacts.any_chr_app, Ha, Hb.
Qed.

Lemma row_line_shape r p :
  number r = Zpos p -> flag (ping r) -> flag (web r) -> flag (result r) ->
  plain_row r ->
  line_free (row_line r) /\ solid (row_line r)
  /\ py_int (first_col (row_line r)) = Some (Zpos p).
Proof.
  intros Hn Fp Fw Fr (P1 & P2 & P3).
  destruct (str_pos_digits p) as [D (c & rest & E & Hc)].
  destruct (flag_field _ Fp) as [Ep Lp].
  destruct (flag_field _ Fw) as [Ew Lw].
  destruct (flag_field _ Fr) as [Er Lr].
  unfold row_line, row_fields, join. cbn [map String.concat].
  rewrite Hn, (csv_field_digits _ D), Ep, Ew, Er.
  assert (line_free ",") as Lc by reflexivity.
  split; [|split].
  - repeat apply line_free_app; try assumption;
      try (apply csv_field_line_free; assumption).
    apply all_digits_no; [intros x Hx; apply (digit_facts x Hx) | exact D].
  - split.
    + rewrite E. do 2 eexists. split; [reflexivity|].
      apply (digit_facts c Hc).
    + repeat apply ends_solid_app. now apply ends_solid_flag.
  - change ("," ++ ?x)%string with (String "," x).
    rewrite first_col_app; [apply py_int_str|].
    apply all_digits_no; [intros x Hx; apply (digit_facts x Hx) | exact D].
Qed.

(** *** Ledgers written by [append_emulation_record] alone *)

Lemma nonblank_rows_append c ln :
  line_free ln -> solid ln ->
  nonblank_rows ((c ++ CRLF) ++ ln ++ CRLF) = nonblank_rows (c ++ CRLF) ++ [ln].
Proof.
  intros N S. unfold nonblank_rows.
  rewrite (readlines_append c ln N), map_app, filter_app.
  f_equal. cbn [map filter].
  destruct (strip_solid_line ln S) as [-> ->]. reflexivity.
Qed.

Lemma max_list_app l x : max_list (l ++ [x]) = Z.max (max_list l) (Z.max x 0).
Proof.
  unfold max_list. induction l as [|y l IH]; simpl; [lia|].
  rewrite IH. lia.
Qed.

Lemma max_list_seq k : max_list (map Z.of_nat (seq 1 k)) = Z.of_nat k.
Proof.
  induction k as [|k IH]; [reflexivity|].
  rewrite seq_S, map_app. cbn [map]. rewrite max_list_app, IH. lia.
Qed.

Lemma numbers_of_rows rs l :
  map first_number rs = map Some l ->
  flat_map (fun ln => match py_int (first_col ln) with
                      | Some n => [n] | None => [] end) rs = l.
Proof.
  revert l. induction rs as [|x rs IH]; intros [|n l] H; try discriminate;
    [reflexivity|].
  cbn [map] in H. injection H as H1 H2. unfold first_number in H1.
  cbn [flat_map]. rewrite H1, (IH l H2). reflexivity.
Qed.

Lemma ledger_numbers k csv :
  ledger_of k csv -> recorded_numbers csv = map Z.of_nat (seq 1 k).
Proof.
  destruct k as [|k]; cbn [ledger_of].
  - now intros ->.
  - intros (c & hdr & rs & -> & Hrows & Hnum). unfold recorded_numbers.
    rewrite Hrows. cbn [tl]. apply numbers_of_rows.
    now rewrite map_map.
Qed.

Lemma ledger_next k csv :
  ledger_of k csv -> _next_record_number csv = (Z.of_nat k + 1)%Z.
Proof.
  destruct k as [|k]; cbn [ledger_of].
  - now intros ->.
  - intros (c & hdr & rs & -> & Hrows & Hnum). unfold _next_record_number.
    rewrite Hrows.
    assert (List.length rs = S k) as Hlen.
    { rewrite <- (length_map first_number), Hnum, length_map.
      apply length_seq. }
    destruct (exists_last (l := rs)) as (rs' & x & ->);
      [intros ->; discriminate|].
    rewrite seq_S, !map_app in Hnum. cbn [map] in Hnum.
    apply app_inj_tail in Hnum. destruct Hnum as [_ Hx].
    rewrite length_app in Hlen. cbn [List.length] in Hlen |- *.
    replace (2 <=? S (List.length (rs' ++ [x])))%nat with true
      by (symmetry; apply Nat.leb_le; rewrite length_app; simpl; lia).
    change (hdr :: rs' ++ [x]) with ((hdr :: rs') ++ [x]).
    rewrite last_last. unfold first_number in Hx. rewrite Hx. lia.
Qed.

Section Appends.

Variable float_nonzero : string -> option bool.

Lemma append_row latest csv fw brand_arg exit_code :
  let r := fst (append_emulation_record float_nonzero latest csv fw
                  brand_arg exit_code) in
  number r = _next_record_number csv
  /\ flag (ping r) /\ flag (web r) /\ flag (result r).
Proof.
  unfold append_emulation_record.
  destruct latest as [d|]; cbn [fst number ping web result];
    repeat split; apply flag_bool.
Qed.

Lemma append_file latest csv fw brand_arg exit_code :
  let a := append_emulation_record float_nonzero latest csv fw brand_arg
             exit_code in
  snd a = match csv with
          | NoFile => Text (csv_line header ++ csv_line (row_fields (fst a)))
          | Broken => Broken
          | Text content => Text (content ++ csv_line (row_fields (fst a)))
          end.
Proof.
  unfold append_emulation_record.
  destruct latest as [d|]; cbn [fst snd]; reflexivity.
Qed.

(** One more row on a ledger of [k] rows. *)
Lemma ledger_append k csv latest fw brand_arg exit_code :
  let a := append_emulation_record float_nonzero latest csv fw brand_arg
             exit_code in
  ledger_of k csv -> plain_row (fst a) ->
  number (fst a) = Z.of_nat (S k) /\ ledger_of (S k) (snd a).
Proof.
  intros a L P.
  destruct (append_row latest csv fw brand_arg exit_code)
    as (Hn & Fp & Fw & Fr). fold a in Hn, Fp, Fw, Fr.
  pose proof (append_file latest csv fw brand_arg exit_code) as Hf.
  fold a in Hf. cbv zeta in Hf.
  rewrite (ledger_next k csv L) in Hn.
  assert (number (fst a) = Z.pos (Pos.of_succ_nat k)) as Hp
      by (rewrite Hn; lia).
  destruct (row_line_shape (fst a) _ Hp Fp Fw Fr P) as (Lf & So & Hi).
  split; [rewrite Hn; lia|].
  rewrite Hf, csv_line_row.
  destruct k as [|k]; cbn [ledger_of] in L.
  - subst csv.
    exists (join "," (map csv_field header) ++ CRLF ++ row_line (fst a))%string.
    exists (join "," (map csv_field header)), [row_line (fst a)].
    split; [|split].
    + unfold csv_line. now rewrite !StrFacts.app_assoc.
    + replace ((join "," (map csv_field header) ++ CRLF ++ row_line (fst a))
               ++ CRLF)%string
        with ((join "," (map csv_field header) ++ CRLF)
              ++ row_line (fst a) ++ CRLF)%string
        by (now rewrite !StrFacts.app_assoc).
      rewrite (nonblank_rows_append _ _ Lf So). reflexivity.
    + cbn [map seq]. unfold first_number. rewrite Hi. reflexivity.
  - destruct L as (c & hdr & rs & -> & Hrows & Hnum).
    exists (c ++ CRLF ++ row_line (fst a))%string, hdr,
      (rs ++ [row_line (fst a)]).
    split; [|split].
    + now rewrite !StrFacts.app_assoc.
    + replace ((c ++ CRLF ++ row_line (fst a)) ++ CRLF)%string
        with ((c ++ CRLF) ++ row_line (fst a) ++ CRLF)%string
        by (now rewrite !StrFacts.app_assoc).
      rewrite (nonblank_rows_append _ _ Lf So), Hrows. reflexivity.
    + rewrite map_app, Hnum. rewrite (seq_S (S k)), map_app.
      cbn [map]. unfold first_number. rewrite Hi.
      do 3 f_equal; lia.
Qed.

Lemma written_ledger k csv : written_by_append float_nonzero k csv -> ledger_of k csv.
Proof.
  induction 1 as [|k csv latest fw brand_arg exit_code W IH P].
  - reflexivity.
  - apply (ledger_append k csv latest fw brand_arg exit_code IH P).
Qed.

(** C2, amended: the number of the new record is one plus the number
    in the first column of the last non-blank line, when the ledger
    has at least two non-blank lines and that column reads as an
    integer; it is 1 when the ledger is absent, empty or holds a single
    non-blank line.  On a ledger that [append_emulation_record] alone
    has written, with no line break in a text field, this is one plus
    the maximum of the recorded numbers. *)
Theorem next_number_from_last_row (latest : option signals)
  (csv : text_file) (fw brand_arg : string) (exit_code : Z) :
  let r := fst (append_emulation_record float_nonzero latest csv fw
                  brand_arg exit_code) in
  number r = _next_record_number csv
  /\ (csv = NoFile -> number r = 1%Z)
  /\ (forall content,
        csv = Text content ->
        (List.length (nonblank_rows content) < 2)%nat -> number r = 1%Z)
  /\ (forall content n,
        csv = Text content ->
        (2 <= List.length (nonblank_rows content))%nat ->
        py_int (first_col (last (nonblank_rows content) EmptyString)) = Some n ->
        number r = (n + 1)%Z)
  /\ (forall k,
        written_by_append float_nonzero k csv ->
        number r = (1 + max_list (recorded_numbers csv))%Z
        /\ number r = (Z.of_nat k + 1)%Z).
Proof.
  intro r.
  destruct (append_row latest csv fw brand_arg exit_code) as (Hn & _).
  fold r in Hn. rewrite Hn.
  split; [reflexivity|]. split; [now intros ->|]. split; [|split].
  - intros content -> Hlen. unfold _next_record_number.
    replace (2 <=? List.length (nonblank_rows content))%nat with false
      by (symmetry; apply Nat.leb_gt; exact Hlen).
    reflexivity.
  - intros content n -> Hlen Hi. unfold _next_record_number.
    replace (2 <=? List.length (nonblank_rows content))%nat with true
      by (symmetry; apply Nat.leb_le; exact Hlen).
    now rewrite Hi.
  - intros k W. apply written_ledger in W.
    rewrite (ledger_numbers k csv W), max_list_seq, (ledger_next k csv W).
    lia.
Qed.

End Appends.

(** C2, as stated, fails: the number comes from the last row, not from
    the largest number recorded. *)
Lemma number_not_max :
  recorded_numbers out_of_order = [5%Z; 3%Z]
  /\ number (fst (append_emulation_record no_float None out_of_order
                    "/firmware/fw.bin" "dlink" 0)) = 4%Z
  /\ (1 + max_list (recorded_numbers out_of_order) = 6)%Z.
Proof. vm_compute. repeat split. Qed.

(** The third record of a ledger that two appends wrote. *)
Lemma next_number_from_last_row_witness :
  number (fst (append_emulation_record no_float None two_rows
                 "/firmware/c.bin" "dlink" 0))
  = (1 + max_list (recorded_numbers two_rows))%Z.
Proof.
  apply (next_number_from_last_row no_float None two_rows
           "/firmware/c.bin" "dlink" 0) with (k := 2%nat).
  unfold two_rows. apply wba_append.
  - unfold one_row. apply wba_append.
    + apply wba_absent.
    + vm_compute. repeat split.
  - vm_compute. repeat split.
Defined.

End LoggerFacts.

(** ** Invariants of the read loop *)

Module LoopInvariants.
Import PyStr FirmaeMcp Replies.

Section Invariants.

Context {world : Type}.
Variable tool_body : string -> json -> world -> res json * world.
Variable list_tools : json.
Variable py_format : json -> string.
Variable stdout_encodes : ascii -> bool.
Variable encode_error : json -> string.

Local Abbreviation handle_call' := (handle_call tool_body py_format).
Local Abbreviation dispatch' :=
  (dispatch tool_body list_tools py_format stdout_encodes encode_error).
Local Abbreviation step' :=
  (step tool_body list_tools py_format stdout_encodes encode_error).
Local Abbreviation run_loop' :=
  (run_loop tool_body list_tools py_format stdout_encodes encode_error).
Local Abbreviation finish' :=
  (finish tool_body py_format stdout_encodes encode_error).
Local Abbreviation encodable' := (encodable stdout_encodes).
Local Abbreviation text_ok' := (text_ok stdout_encodes).
Local Abbreviation reply' := (reply stdout_encodes encode_error).

Lemma set_env_same (st : @state world) : set_env (env st) st = st.
Proof. now destruct st. Qed.

(** The constant parts of a reply are plain ASCII: whether stdout
    can encode it rests on the identifier and on what it carries. *)
Lemma encodable_result (mid r : json) :
  encodable' (reply_result mid r) = (encodable' mid && encodable' r)%bool.
Proof.
  unfold reply_result. cbn [encodable forallb].
  change (text_ok' "jsonrpc") with true. change (text_ok' "id") with true.
  change (text_ok' "result") with true. change (text_ok' "2.0") with true.
  cbn [andb]. now rewrite andb_true_r.
Qed.

Lemma encodable_error (mid : json) (c : Z) (e : string) :
  encodable' (reply_error mid c e) = (encodable' mid && text_ok' e)%bool.
Proof.
  unfold reply_error. cbn [encodable forallb].
  change (text_ok' "jsonrpc") with true. change (text_ok' "id") with true.
  change (text_ok' "error") with true. change (text_ok' "2.0") with true.
  change (text_ok' "code") with true. change (text_ok' "message") with true.
  cbn [andb]. now rewrite !andb_true_r.
Qed.

Lemma text_ok_app (a b : string) :
  text_ok' (a ++ b) = (text_ok' a && text_ok' b)%bool.
Proof.
  induction a as [|c a IH]; [reflexivity|].
  cbn [append text_ok]. now rewrite IH, andb_assoc.
Qed.

(** The ways the [try] block ends on an object: nothing happens, one
    message is written, one thread is started, or an exception leaves
    the block. *)
Inductive ends_as (st0 : @state world) (mid : json) : flow -> Prop :=
| ea_skip : is_null mid = true -> ends_as st0 mid (Next st0)
| ea_write o w :
    encodable' o = true ->
    reply_id o = Some (if is_null mid then JInt 0 else mid)
    \/ (is_null mid = true /\ reply_id o = Some JNull) ->
    ends_as st0 mid (Next (wrote o (set_env w st0)))
| ea_spawn params :
    is_null mid = false ->
    ends_as st0 mid (Next (spawn {| t_mid := mid; t_params := params |} st0))
| ea_except e w : ends_as st0 mid (Except e (set_env w st0)).

Lemma ea_reply st0 mid o w :
  reply_id o = Some (if is_null mid then JInt 0 else mid)
  \/ (is_null mid = true /\ reply_id o = Some JNull) ->
  ends_as st0 mid (reply' o (set_env w st0)).
Proof.
  intro H. unfold reply, jwrite, attempt.
  destruct (encodable' o) eqn:E; [now apply ea_write | apply ea_except].
Qed.

Lemma ea_reply_same st0 mid o :
  reply_id o = Some (if is_null mid then JInt 0 else mid)
  \/ (is_null mid = true /\ reply_id o = Some JNull) ->
  ends_as st0 mid (reply' o st0).
Proof.
  intro H. replace (reply' o st0) with (reply' o (set_env (env st0) st0))
    by now rewrite set_env_same.
  now apply ea_reply.
Qed.

Lemma ea_except_same st0 mid e : ends_as st0 mid (Except e st0).
Proof.
  replace (Except e st0) with (Except e (set_env (env st0) st0))
    by now rewrite set_env_same.
  apply ea_except.
Qed.

Lemma null_not_truthy (mid m : json) :
  (is_null mid && jtruthy m)%bool = false -> is_null mid = true ->
  jtruthy m = false.
Proof. intros H E. rewrite E in H. exact H. Qed.

Lemma falsy_method m name :
  jtruthy m = false -> truthy name = true -> method_is m name = false.
Proof.
  destruct m as [| | |s| |]; try reflexivity. simpl.
  destruct s; [|discriminate]. destruct name; [discriminate | reflexivity].
Qed.

Lemma dispatch_ends (d : list (string * json)) (st0 : @state world) mid :
  get (JDict d) "id" JNull = Ok mid ->
  ends_as st0 mid (dispatch' (JDict d) st0).
Proof.
  intro Hid. unfold dispatch, attempt at 1 2 3. rewrite Hid. cbn [get].
  set (m := match lookup d "method" with Some x => x | None => JNull end).
  set (params := match lookup d "params" with
                 | Some x => x | None => JDict [] end).
  destruct (is_ping m) eqn:Hping.
  { apply ea_reply_same. left. reflexivity. }
  destruct (is_null mid && jtruthy m)%bool eqn:Hn.
  { apply andb_true_iff in Hn. now apply ea_skip. }
  assert (is_null mid = true -> jtruthy m = false) as Hfalsy
      by (apply null_not_truthy; exact Hn).
  assert (forall x, reply_id (reply_result mid x)
                    = Some (if is_null mid then JInt 0 else mid)
                    \/ (is_null mid = true
                        /\ reply_id (reply_result mid x) = Some JNull)) as Hr.
  { intro x. destruct mid; (left; reflexivity) || (right; split; reflexivity). }
  assert (forall c x, reply_id (reply_error mid c x)
                      = Some (if is_null mid then JInt 0 else mid)
                      \/ (is_null mid = true
                          /\ reply_id (reply_error mid c x) = Some JNull)) as He.
  { intros c x. destruct mid; (left; reflexivity) || (right; split; reflexivity). }
  assert (forall name, truthy name = true -> method_is m name = true ->
                       is_null mid = false) as Hreq.
  { intros name Hname Hm. destruct (is_null mid) eqn:E; [|reflexivity].
    rewrite (falsy_method m name (Hfalsy eq_refl) Hname) in Hm. discriminate. }
  destruct (method_is m "initialize") eqn:H1.
  { unfold attempt.
    destruct (get params "protocolVersion" JNull) as [v|e];
      [|now apply ea_except_same].
    destruct (choose_version (por v (JStr "2024-11-05"))) as [a|e];
      [|now apply ea_except_same].
    apply ea_reply_same, Hr. }
  destruct (method_is m "shutdown");
    [apply ea_reply_same, Hr|].
  destruct (method_is m "ping");
    [apply ea_reply_same, Hr|].
  destruct (method_is m "tools/list");
    [apply ea_reply_same, Hr|].
  destruct (method_is m "resources/list");
    [apply ea_reply_same, Hr|].
  destruct (method_is m "prompts/list");
    [apply ea_reply_same, Hr|].
  destruct (method_is m "tools/call") eqn:H2.
  { pose proof (Hreq "tools/call" eq_refl H2) as Hnn. unfold attempt.
    destruct (get (por params (JDict [])) "name" (JStr "")) as [tn|e];
      [|now apply ea_except_same].
    destruct (in_str_set tn LONG) as [[|]|e].
    - now apply ea_spawn.
    - destruct (handle_call tool_body py_format params (env st0))
        as [[r|e] w].
      + apply ea_reply, Hr.
      + apply ea_except.
    - now apply ea_except_same. }
  apply ea_reply_same, He.
Qed.

(** What one object does to the state. *)
Lemma step_object (st : @state world) (d : list (string * json)) mid :
  crashed st = None ->
  get (JDict d) "id" JNull = Ok mid ->
  let st0 := set_msg (JDict d) st in
  let st1 := step' st (Parsed (JDict d)) in
  (is_null mid = true /\ st1 = st0)
  \/ (exists o w,
        st1 = wrote o (set_env w st0)
        /\ encodable' o = true
        /\ (reply_id o = Some (if is_null mid then JInt 0 else mid)
            \/ (is_null mid = true /\ reply_id o = Some JNull)))
  \/ (exists params,
        is_null mid = false
        /\ st1 = spawn {| t_mid := mid; t_params := params |} st0)
  \/ (exists e w,
        encodable' (reply_error mid (-32603) e) = false
        /\ st1 = crash (encode_error (reply_error mid (-32603) e))
                   (set_env w st0)).
Proof.
  intros Hc Hid st0 st1. unfold st1, step. rewrite Hc.
  fold st0.
  destruct (dispatch_ends d st0 mid Hid) as [Hn | o w Ho Hi | p Hn | e w].
  - left. now split.
  - right. left. now exists o, w.
  - right. right. left. now exists p.
  - unfold on_exception. cbn [msg set_env set_msg st0].
    rewrite Hid. unfold jwrite.
    destruct (encodable' (reply_error mid (-32603) e)) eqn:E.
    + right. left. exists (reply_error mid (-32603) e), w.
      split; [reflexivity|]. split; [exact E|].
      destruct mid; (left; reflexivity) || (right; split; reflexivity).
    + right. right. right. exists e, w. now split.
Qed.

Lemma object_id (d : list (string * json)) :
  exists mid, get (JDict d) "id" JNull = Ok mid.
Proof. cbn [get]. eexists. reflexivity. Qed.

(** After an object [msg] is bound to it. *)
Lemma step_object_msg (st : @state world) (d : list (string * json)) :
  crashed st = None ->
  msg (step' st (Parsed (JDict d))) = Some (JDict d).
Proof.
  intro Hc. destruct (object_id d) as [mid Hid].
  destruct (step_object st d mid Hc Hid)
    as [[_ ->] | [(o & w & -> & _) | [(p & _ & ->) | (e & w & _ & ->)]]];
    reflexivity.
Qed.

Lemma step_crashed (st : @state world) ln :
  crashed st <> None -> step' st ln = st.
Proof. intro H. unfold step. destruct (crashed st); [reflexivity | now elim H]. Qed.

Lemma run_loop_crashed (input : list line) : forall st : @state world,
  crashed st <> None -> run_loop' st input = st.
Proof.
  induction input as [|ln input IH]; intros st H; [reflexivity|].
  unfold run_loop. cbn [fold_left]. rewrite (step_crashed st ln H).
  apply IH, H.
Qed.

Lemma step_non_object (st : @state world) (v : json) :
  crashed st = None -> not_object v = true ->
  step' st (Parsed v)
  = crash ("'" ++ type_name v ++ "' object has no attribute 'get'")
      (set_msg v st).
Proof.
  intros Hc Hv. unfold step. rewrite Hc.
  destruct v; try discriminate; reflexivity.
Qed.

(** One line adds at most one message or one thread, and takes
    nothing away. *)
Lemma step_extends (st : @state world) (ln : line) :
  exists l ts,
    written (step' st ln) = written st ++ l
    /\ threads (step' st ln) = threads st ++ ts
    /\ List.length l + List.length ts <= 1.
Proof.
  assert (forall x : @state world,
             written x = written st -> threads x = threads st ->
                    exists l ts,
                      written x = written st ++ l
                      /\ threads x = threads st ++ ts
                      /\ List.length l + List.length ts <= 1) as Hsame.
  { intros x Hw Ht. exists [], []. rewrite Hw, Ht, !app_nil_r. simpl. auto. }
  destruct (crashed st) as [c|] eqn:Hc.
  { rewrite step_crashed by congruence. now apply Hsame. }
  destruct ln as [|e|v].
  - unfold step. rewrite Hc. now apply Hsame.
  - unfold step. rewrite Hc. unfold on_exception.
    destruct (msg st) as [m0|]; [|now apply Hsame].
    destruct (get m0 "id" JNull); [|now apply Hsame].
    unfold jwrite. destruct (encodable' (reply_error a (-32603) e));
      [|now apply Hsame].
    exists [reply_error a (-32603) e], []. cbn. rewrite app_nil_r. auto.
  - destruct (not_object v) eqn:Hv.
    + rewrite (step_non_object st v Hc Hv). now apply Hsame.
    + destruct v as [| | | | |d]; try discriminate.
      destruct (object_id d) as [mid Hid].
      destruct (step_object st d mid Hc Hid)
        as [[_ ->] | [(o & w & -> & _) | [(p & _ & ->) | (e & w & _ & ->)]]].
      * now apply Hsame.
      * exists [o], []. cbn. rewrite app_nil_r. auto.
      * exists [], [{| t_mid := mid; t_params := p |}]. cbn.
        rewrite app_nil_r. auto.
      * now apply Hsame.
Qed.


(** X2: a line that parses to a JSON value other than an object ends
    the loop: the handler of the exception raises itself on
    [msg.get], nothing is written for this line, and no later line is
    read. *)
Theorem non_object_line_ends_loop (st : @state world) (v : json)
  (rest : list line) :
  crashed st = None -> not_object v = true ->
  let st' := run_loop' st (Parsed v :: rest) in
  crashed st'
  = Some ("'" ++ type_name v ++ "' object has no attribute 'get'")%string
  /\ written st' = written st /\ threads st' = threads st.
Proof.
  intros Hc Hv st'. unfold st', run_loop. cbn [fold_left].
  rewrite (step_non_object st v Hc Hv).
  change (fold_left step' rest ?x) with (run_loop' x rest).
  rewrite run_loop_crashed by discriminate.
  repeat split.
Qed.


(** X4: the output is only ever appended to.  Over any input the
    messages written and the threads started are at most as many as
    the lines read, and what was written or pending before stays in
    place. *)
Theorem output_append_only (input : list line) : forall st : @state world,
  exists l ts,
    written (run_loop' st input) = written st ++ l
    /\ threads (run_loop' st input) = threads st ++ ts
    /\ List.length l + List.length ts <= List.length input.
Proof.
  induction input as [|ln input IH]; intro st.
  - exists [], []. cbn. now rewrite !app_nil_r.
  - unfold run_loop. cbn [fold_left].
    change (fold_left step' input ?x) with (run_loop' x input).
    destruct (step_extends st ln) as (l1 & t1 & Hw1 & Ht1 & Hn1).
    destruct (IH (step' st ln)) as (l2 & t2 & Hw2 & Ht2 & Hn2).
    exists (l1 ++ l2), (t1 ++ t2).
    rewrite Hw2, Ht2, Hw1, Ht1, <- !app_assoc, !length_app.
    cbn [List.length]. repeat split. lia.
Qed.


Lemma run_loop_threads (input : list line) : forall st : @state world,
  exists ts, threads (run_loop' st input) = threads st ++ ts.
Proof.
  induction input as [|ln input IH]; intro st.
  - exists []. cbn. now rewrite app_nil_r.
  - unfold run_loop. cbn [fold_left].
    change (fold_left step' input ?x) with (run_loop' x input).
    destruct (step_extends st ln) as (l1 & t1 & _ & Ht1 & _).
    destruct (IH (step' st ln)) as (t2 & Ht2).
    exists (t1 ++ t2). now rewrite Ht2, Ht1, <- app_assoc.
Qed.

Lemma long_call_spawns (st : @state world) (d : list (string * json))
  (mid params tool_name : json) :
  crashed st = None ->
  get (JDict d) "id" JNull = Ok mid ->
  is_null mid = false ->
  get (JDict d) "method" JNull = Ok (JStr "tools/call") ->
  get (JDict d) "params" (JDict []) = Ok params ->
  get (por params (JDict [])) "name" (JStr "") = Ok tool_name ->
  in_str_set tool_name LONG = Ok true ->
  step' st (Parsed (JDict d))
  = spawn {| t_mid := mid; t_params := params |} (set_msg (JDict d) st).
Proof.
  intros Hc Hid Hnn Hm Hp Hn Hl. unfold step. rewrite Hc.
  unfold dispatch, attempt. rewrite Hid, Hm, Hp.
  cbn [is_ping method_is String.eqb Ascii.eqb Bool.eqb]. rewrite Hnn.
  cbn [andb]. now rewrite Hn, Hl.
Qed.


Lemma newest_supported (S : PySet.SetIteration) :
  last (PySet.sorted (PySet.enum SUPPORTED)) EmptyString = "2025-03-26".
Proof.
  rewrite (PySetFacts.sorted_enum_independent S PySet.first_seen).
  reflexivity.
Qed.

(** The version that [choose_version] agrees on. *)
Lemma version_chosen (v : json) :
  unhashable (por v (JStr "2024-11-05")) = false ->
  exists a,
    choose_version (por v (JStr "2024-11-05")) = Ok (JStr a)
    /\ In a SUPPORTED
    /\ (forall s, v = JStr s -> In s SUPPORTED -> a = s)
    /\ (jtruthy v = false -> a = "2024-11-05")
    /\ (jtruthy v = true ->
        (forall s, v = JStr s -> ~ In s SUPPORTED) ->
        a = "2025-03-26").
Proof.
  intro Hh. unfold por in *. destruct (jtruthy v) eqn:Ht.
  - destruct v as [|b|z|s|l|o]; try discriminate.
    + exists "2025-03-26". repeat split; try (simpl; tauto); discriminate.
    + exists "2025-03-26". repeat split; try (simpl; tauto); discriminate.
    + unfold choose_version, in_str_set, bind.
      destruct (Logger.mem s SUPPORTED) eqn:Hmem.
      * exists s.
        assert (In s SUPPORTED) as Hs.
        { unfold Logger.mem in Hmem. apply existsb_exists in Hmem.
          destruct Hmem as (x & Hx & Hex). apply String.eqb_eq in Hex.
          now subst. }
        repeat split; try assumption; try discriminate.
        -- intros s' [= ->] _. reflexivity.
        -- intros _ Hno. now elim (Hno s eq_refl).
      * exists "2025-03-26". repeat split; try (simpl; tauto);
          try discriminate.
        intros s' [= <-] Hs. exfalso.
        assert (Logger.mem s SUPPORTED = true) as Hm'.
        { unfold Logger.mem. apply existsb_exists. exists s.
          split; [exact Hs | apply String.eqb_refl]. }
        congruence.
  - exists "2024-11-05". repeat split; try (simpl; tauto);
      try discriminate.
    intros s -> Hs. simpl in Ht. destruct s; [|discriminate].
    simpl in Hs. destruct Hs as [Hs | [Hs | []]]; discriminate.
Qed.

Lemma unhashable_raises (v : json) :
  unhashable v = true ->
  choose_version v = Raise ("unhashable type: '" ++ type_name v ++ "'").
Proof. destruct v; try discriminate; reflexivity. Qed.

Lemma type_name_ok (v : json) (a b : string) :
  text_ok' a = true -> text_ok' b = true ->
  text_ok' (a ++ type_name v ++ b) = true.
Proof.
  intros Ha Hb. rewrite !text_ok_app, Ha, Hb.
  now destruct v.
Qed.

Lemma handler_refused (st0 : @state world) (d : list (string * json))
  (mid : json) (e : string) :
  msg st0 = Some (JDict d) ->
  get (JDict d) "id" JNull = Ok mid ->
  encodable' mid = false ->
  on_exception stdout_encodes encode_error e st0
  = crash (encode_error (reply_error mid (-32603) e)) st0.
Proof.
  intros Hm Hid He. unfold on_exception, jwrite. rewrite Hm, Hid.
  now rewrite encodable_error, He.
Qed.

Lemma handler_writes (st0 : @state world) (d : list (string * json))
  (mid : json) (e : string) :
  msg st0 = Some (JDict d) ->
  get (JDict d) "id" JNull = Ok mid ->
  encodable' mid = true -> text_ok' e = true ->
  on_exception stdout_encodes encode_error e st0
  = wrote (reply_error mid (-32603) e) st0.
Proof.
  intros Hm Hid He Ht. unfold on_exception, jwrite. rewrite Hm, Hid.
  now rewrite encodable_error, He, Ht.
Qed.

Lemma init_result_ok (a : string) :
  In a SUPPORTED -> encodable' (init_result (JStr a)) = true.
Proof.
  intros [<- | [<- | []]]; reflexivity.
Qed.


End Invariants.


Lemma non_object_line_ends_loop_witness :
  written (run_loop no_tool JNull no_format utf8 no_refusal start
             [Parsed (JList [JInt 1]); Parsed call_null_params]) = [].
Proof.
  apply (non_object_line_ends_loop no_tool JNull no_format utf8 no_refusal
           start (JList [JInt 1]) [Parsed call_null_params] eq_refl eq_refl).
Defined.





End LoopInvariants.

(** ** The classifier works line by line *)

Module LinesFacts.
Import PyStr Re PySet Analysis Lines.

Lemma lower_lf x : Ascii.eqb (lower x) LF = Ascii.eqb x LF.
Proof. destruct x as [[] [] [] [] [] [] [] []]; reflexivity. Qed.

Lemma chr_eq_lf ci x : Ascii.eqb LF x = false -> chr_eq ci x LF = false.
Proof.
  intro H. rewrite Ascii.eqb_sym in H. unfold chr_eq. destruct ci; [|exact H].
  change (lower LF) with LF. now rewrite lower_lf.
Qed.

Lemma lit_ends_line ci b l :
  any_chr (Ascii.eqb LF) l = false ->
  forall prev a,
    lit_ends ci l prev (a ++ String LF b)
    = map (before_lf b) (lit_ends ci l prev a).
Proof.
  induction l as [|x l IH]; intros N prev a; [reflexivity|].
  cbn [any_chr] in N. apply orb_false_iff in N. destruct N as [N1 N2].
  destruct a as [|c a].
  - cbn [append lit_ends]. now rewrite (chr_eq_lf ci x N1).
  - cbn [append lit_ends]. destruct (chr_eq ci x c); [apply IH, N2 | reflexivity].
Qed.

Lemma star_ends_line p b :
  p LF = false ->
  forall a prev,
    star_ends p prev (a ++ String LF b)
    = map (before_lf b) (star_ends p prev a).
Proof.
  intro H. induction a as [|c a IH]; intro prev.
  - cbn [append star_ends]. now rewrite H.
  - cbn [append star_ends]. destruct (p c); [|reflexivity].
    now rewrite IH, map_app.
Qed.

Lemma word_head_line a b :
  word_opt (head (a ++ String LF b)) = word_opt (head a).
Proof. destruct a; reflexivity. Qed.

Lemma map_flat_map {A B C} (g : B -> C) (f : A -> list B) l :
  map g (flat_map f l) = flat_map (fun x => map g (f x)) l.
Proof.
  induction l as [|x l IH]; [reflexivity|].
  cbn [flat_map]. now rewrite map_app, IH.
Qed.

Lemma flat_map_of_map {A B C} (f : B -> list C) (g : A -> B) l :
  flat_map f (map g l) = flat_map (fun x => f (g x)) l.
Proof.
  induction l as [|x l IH]; [reflexivity|].
  cbn [map flat_map]. now rewrite IH.
Qed.

(** A pattern that cannot match a line feed sees, before the line
    feed, what it sees when the text ends there. *)
Lemma ends_line ci b r :
  lf_free r = true ->
  forall st, ends ci r (before_lf b st) = map (before_lf b) (ends ci r st).
Proof.
  induction r as [l|p|p|p|r1 IH1 r2 IH2|r1 IH1 r2 IH2|]; intros H [prev a];
    unfold before_lf at 1; cbn [fst snd ends lf_free] in *.
  - apply lit_ends_line. now apply negb_true_iff in H.
  - apply negb_true_iff in H. destruct a as [|c a]; cbn [append].
    + now rewrite H.
    + destruct (p c); reflexivity.
  - apply star_ends_line. now apply negb_true_iff in H.
  - apply negb_true_iff in H. destruct a as [|c a]; cbn [append].
    + now rewrite H.
    + destruct (p c); [|reflexivity]. now apply star_ends_line.
  - apply andb_true_iff in H. destruct H as [H1 H2].
    change (prev, (a ++ String LF b)%string) with (before_lf b (prev, a)).
    rewrite (IH1 H1), flat_map_of_map, map_flat_map.
    apply flat_map_ext. intro st. apply (IH2 H2).
  - apply andb_true_iff in H. destruct H as [H1 H2].
    change (prev, (a ++ String LF b)%string) with (before_lf b (prev, a)).
    now rewrite (IH1 H1), (IH2 H2), map_app.
  - rewrite word_head_line. destruct (xorb (word_opt prev) (word_opt (head a)));
      reflexivity.
Qed.

Lemma matches_here_line ci b r prev a :
  lf_free r = true ->
  matches_here ci r (prev, (a ++ String LF b)%string)
  = matches_here ci r (prev, a).
Proof.
  intro H. unfold matches_here.
  change (prev, (a ++ String LF b)%string) with (before_lf b (prev, a)).
  rewrite (ends_line ci b r H). now destruct (ends ci r (prev, a)).
Qed.

Lemma search_from_line ci b r :
  lf_free r = true ->
  forall a prev,
    search_from ci r prev (a ++ String LF b)
    = (search_from ci r prev a || search_from ci r (Some LF) b)%bool.
Proof.
  intro H. induction a as [|c a IH]; intro prev.
  - change (EmptyString ++ String LF b)%string with (String LF b).
    cbn [search_from].
    rewrite <- (matches_here_line ci b r prev EmptyString H).
    change (EmptyString ++ String LF b)%string with (String LF b).
    now rewrite orb_false_r.
  - change (String c a ++ String LF b)%string
      with (String c (a ++ String LF b)).
    cbn [search_from].
    change (String c (a ++ String LF b))
      with (String c a ++ String LF b)%string.
    now rewrite (matches_here_line ci b r prev (String c a) H), IH, orb_assoc.
Qed.

Lemma alike_refl st : alike st st.
Proof. now split. Qed.

Lemma Forall2_same {A} (R : A -> A -> Prop) l :
  (forall x, R x x) -> Forall2 R l l.
Proof. intro H. induction l; constructor; auto. Qed.

Lemma Forall2_flat_map {A B} (R : A -> A -> Prop) (Q : B -> B -> Prop)
  (f : A -> list B) l l' :
  Forall2 R l l' ->
  (forall x y, R x y -> Forall2 Q (f x) (f y)) ->
  Forall2 Q (flat_map f l) (flat_map f l').
Proof.
  intros H Hf. induction H; cbn [flat_map]; [constructor|].
  apply Forall2_app; auto.
Qed.

Lemma star_ends_alike p s : forall p1 p2,
  word_opt p1 = word_opt p2 ->
  Forall2 alike (star_ends p p1 s) (star_ends p p2 s).
Proof.
  intros p1 p2 H.
  assert (Forall2 alike [(p1, s)] [(p2, s)]) as Hlast
      by (repeat constructor; exact H).
  destruct s as [|c s]; cbn [star_ends]; [exact Hlast|].
  destruct (p c); [|exact Hlast].
  apply Forall2_app; [apply Forall2_same, alike_refl | exact Hlast].
Qed.

(** Only whether the character before a position is a word character
    matters to a pattern. *)
Lemma ends_alike ci r : forall st st',
  alike st st' -> Forall2 alike (ends ci r st) (ends ci r st').
Proof.
  induction r as [l|p|p|p|r1 IH1 r2 IH2|r1 IH1 r2 IH2|];
    intros [p1 s] [p2 s'] [Hs Hp]; cbn [fst snd] in Hs, Hp; subst s';
    cbn [ends].
  - destruct l as [|x l]; cbn [lit_ends].
    + repeat constructor; exact Hp.
    + destruct s as [|c s]; [constructor|].
      destruct (chr_eq ci x c); [apply Forall2_same, alike_refl | constructor].
  - apply Forall2_same, alike_refl.
  - now apply star_ends_alike.
  - apply Forall2_same, alike_refl.
  - apply (Forall2_flat_map alike alike); [|exact IH2].
    apply IH1. now split.
  - apply Forall2_app; [apply IH1 | apply IH2]; now split.
  - cbn [fst snd]. rewrite Hp.
    destruct (xorb (word_opt p2) (word_opt (head s))); repeat constructor.
    exact Hp.
Qed.

Lemma search_from_alike ci r s p1 p2 :
  word_opt p1 = word_opt p2 ->
  search_from ci r p1 s = search_from ci r p2 s.
Proof.
  intro H.
  assert (matches_here ci r (p1, s) = matches_here ci r (p2, s)) as Hm.
  { unfold matches_here.
    destruct (ends_alike ci r (p1, s) (p2, s)); [now split | |]; reflexivity. }
  destruct s; cbn [search_from]; now rewrite Hm.
Qed.

Lemma search_join ci r :
  lf_free r = true ->
  forall l, l <> [] ->
    search ci r (join nl l) = existsb (search ci r) l.
Proof.
  intro H. unfold join, search.
  induction l as [|x l IH]; intro Hne; [now elim Hne|].
  destruct l as [|y l].
  - cbn [String.concat existsb]. now rewrite orb_false_r.
  - change (String.concat nl (x :: y :: l))
      with (x ++ String LF (String.concat nl (y :: l)))%string.
    rewrite (search_from_line ci _ r H).
    rewrite (search_from_alike ci r _ (Some LF) None eq_refl).
    rewrite IH by discriminate. reflexivity.
Qed.

Lemma existsb_truthy (f : string -> bool) l :
  f EmptyString = false -> existsb f (filter truthy l) = existsb f l.
Proof.
  intro H. induction l as [|x l IH]; [reflexivity|].
  cbn [filter existsb]. destruct x as [|c x]; cbn [truthy].
  - now rewrite H, IH.
  - cbn [existsb]. now rewrite IH.
Qed.

(** A pattern that cannot match a line feed and does not match the
    empty text matches in the joined text of a bundle when it matches
    in one of the logs. *)
Lemma search_combined ci r (b : bundle) :
  lf_free r = true -> search ci r EmptyString = false ->
  search ci r (combined b) = existsb (search ci r) (values b).
Proof.
  intros H H0. unfold combined.
  rewrite <- (existsb_truthy (search ci r) (values b) H0).
  destruct (filter truthy (values b)) as [|x l] eqn:E.
  - exact H0.
  - apply (search_join ci r H). discriminate.
Qed.

Lemma patterns_in_lines :
  Forall (fun rule : string * regex * bool =>
            lf_free (snd (fst rule)) = true
            /\ search (snd rule) (snd (fst rule)) EmptyString = false)
    PATTERNS.
Proof. repeat constructor. Qed.

Lemma fired_combined (rules : list (string * regex * bool)) (b : bundle) :
  Forall (fun rule : string * regex * bool =>
            lf_free (snd (fst rule)) = true
            /\ search (snd rule) (snd (fst rule)) EmptyString = false)
    rules ->
  fired rules (combined b) = fired_on_some rules (values b).
Proof.
  induction 1 as [|[[title pat] flags] rules [H1 H2] _ IH]; [reflexivity|].
  cbn [fired fired_on_some fst snd] in *.
  now rewrite (search_combined flags pat b H1 H2), IH.
Qed.

(** X8: the classifier works log by log: a rule of the table fires on
    the joined text of a bundle exactly when its pattern matches in at
    least one log taken alone; no match spans two logs. *)
Theorem rule_fires_on_some_log (b : bundle) (title : string) (pat : regex)
  (flags : bool) :
  In (title, pat, flags) PATTERNS ->
  search flags pat (combined b) = existsb (search flags pat) (values b).
Proof.
  intro Hin.
  pose proof (proj1 (Forall_forall _ _) patterns_in_lines _ Hin) as [H1 H2].
  exact (search_combined flags pat b H1 H2).
Qed.

(** The QEMU rule on the kernel panic bundle. *)
Lemma rule_fires_on_some_log_witness :
  search true re_qemu (combined kernel_panic_full)
  = existsb (search true re_qemu) (values kernel_panic_full).
Proof.
  apply (rule_fires_on_some_log kernel_panic_full "QEMU boot/kernel failure").
  right. right. left. reflexivity.
Defined.

End LinesFacts.

(** ** The report and the tails it is made from *)

Module ReportFacts.
Import PyStr Re PySet Analysis Lines.

Lemma existsb_permutation {A} (f : A -> bool) l l' :
  Permutation l l' -> existsb f l = existsb f l'.
Proof.
  induction 1 as [|x l l' _ IH|x y l|l l' l'' _ IH1 _ IH2]; cbn [existsb].
  - reflexivity.
  - now rewrite IH.
  - now rewrite !orb_assoc, (orb_comm (f y) (f x)).
  - now rewrite IH1.
Qed.

Lemma fired_on_some_permutation rules l l' :
  Permutation l l' -> fired_on_some rules l = fired_on_some rules l'.
Proof.
  intro P. induction rules as [|[[title pat] flags] rules IH]; [reflexivity|].
  cbn [fired_on_some].
  now rewrite (existsb_permutation (search flags pat) l l' P), IH.
Qed.

(** A [dict] holds a key once, so [get] finds the same value however
    the entries are ordered. *)
Lemma dict_get_permutation (b b' : bundle) k default :
  Permutation b b' -> NoDup (map fst b) ->
  dict_get b k default = dict_get b' k default.
Proof.
  induction 1 as [|[k1 v1] l l' P IH|[k1 v1] [k2 v2] l|l l' l'' P1 IH1 P2 IH2];
    intro N; cbn [dict_get].
  - reflexivity.
  - cbn [map fst] in N. inversion N; subst. now rewrite IH.
  - cbn [map fst] in N. inversion N as [|? ? Hnotin _]; subst.
    destruct (String.eqb_spec k1 k) as [E1|_];
      destruct (String.eqb_spec k2 k) as [E2|_]; try reflexivity.
    subst. elim Hnotin. now left.
  - rewrite (IH1 N). apply IH2.
    eapply Permutation_NoDup; [|exact N]. now apply Permutation_map.
Qed.

Lemma reasons_permutation (b b' : bundle) :
  Permutation b b' -> NoDup (map fst b) -> reasons_of b = reasons_of b'.
Proof.
  intros P N. unfold reasons_of.
  rewrite !(LinesFacts.fired_combined PATTERNS _ LinesFacts.patterns_in_lines).
  rewrite !(LinesFacts.search_combined false re_web_on) by reflexivity.
  assert (Permutation (values b) (values b')) as Pv
      by now apply Permutation_map.
  rewrite (fired_on_some_permutation PATTERNS _ _ Pv).
  rewrite (existsb_permutation (search false re_web_on) _ _ Pv).
  now rewrite (dict_get_permutation b b' "makeNetwork.log" "" P N).
Qed.

(** X9: the report does not depend on the order in which the logs
    were put into the bundle. *)
Theorem report_ignores_log_order `{SetIteration} (b b' : bundle) :
  Permutation b b' -> NoDup (map fst b) ->
  _analyze_logs b = _analyze_logs b'.
Proof.
  intros P N. unfold _analyze_logs.
  now rewrite (reasons_permutation b b' P N).
Qed.

(** The kernel panic bundle, read backwards. *)
Lemma report_ignores_log_order_witness :
  _analyze_logs kernel_panic_full = _analyze_logs (rev kernel_panic_full).
Proof.
  apply (report_ignores_log_order kernel_panic_full (rev kernel_panic_full)).
  - apply Permutation_rev.
  - cbn [map fst kernel_panic_full].
    repeat (constructor; [cbn [In]; intuition discriminate|]).
    constructor.
Defined.

Lemma no_linebreak_app a b :
  no_linebreak a -> no_linebreak b -> no_linebreak (a ++ b).
Proof.
  unfold no_linebreak. intros Ha Hb. now rewrite StrFacts.any_chr_app, Ha, Hb.
Qed.

(** No line of [splitlines] holds a line boundary. *)
Lemma splitlines_acc_clean s : forall acc,
  no_linebreak acc -> Forall no_linebreak (splitlines_acc acc s).
Proof.
  induction s as [|c s IH]; intros acc Hacc; cbn [splitlines_acc].
  - destruct (truthy acc); repeat constructor. exact Hacc.
  - destruct (is_linebreak c) eqn:Ec.
    + constructor; [exact Hacc|].
      assert (Forall no_linebreak (splitlines_acc EmptyString s)) as H0
          by (apply IH; reflexivity).
      destruct (Ascii.eqb c CR); [|exact H0].
      destruct s as [|c2 s2]; [exact H0|].
      destruct (Ascii.eqb_spec c2 LF) as [->|_]; [|exact H0].
      cbn [splitlines_acc] in H0.
      change (is_linebreak LF) with true in H0.
      change (Ascii.eqb LF CR) with false in H0.
      cbv iota in H0. now inversion H0.
    + apply IH. apply no_linebreak_app; [exact Hacc|].
      unfold no_linebreak. cbn [any_chr]. now rewrite Ec.
Qed.

Lemma Forall_skipn {A} (P : A -> Prop) n : forall l,
  Forall P l -> Forall P (skipn n l).
Proof.
  induction n as [|n IH]; intros l H; [exact H|].
  destruct l as [|x l]; [constructor|].
  cbn [skipn]. apply IH. now inversion H.
Qed.

Lemma slice_from_last {A} (l : list A) (n : Z) :
  (1 <= n)%Z -> (Z.of_nat (List.length (slice_from (- n) l)) <= n)%Z.
Proof.
  intro H. unfold slice_from, clip.
  destruct (- n <? 0)%Z eqn:E; [|apply Z.ltb_ge in E; lia].
  rewrite length_skipn. lia.
Qed.

Lemma slice_from_zero {A} (l : list A) : slice_from 0 l = l.
Proof.
  unfold slice_from, clip. cbn. now rewrite Nat.min_0_r.
Qed.

Section TailFacts.

Variable decode_replace : list Byte.byte -> string.

(** X10: the tail of a readable file is made of at most [max_lines]
    lines joined by line feeds, none of which holds a line boundary
    (the carriage returns and other boundaries of the file are gone),
    for a limit of at least one line; with a limit of zero lines
    every line of the bytes read is returned. *)
Theorem safe_tail_lines (bytes : list Byte.byte) (path : string)
  (max_bytes max_lines : Z) :
  (1 <= max_lines)%Z ->
  (exists lines,
     _safe_tail decode_replace (Readable bytes) path max_bytes max_lines
     = join nl lines
     /\ (Z.of_nat (List.length lines) <= max_lines)%Z
     /\ Forall no_linebreak lines)
  /\ exists data,
       _safe_tail decode_replace (Readable bytes) path max_bytes 0
       = join nl (splitlines (decode_replace data))
       /\ (List.length data <= List.length bytes)%nat
       /\ ((0 <= max_bytes)%Z ->
           (Z.of_nat (List.length data) <= max_bytes)%Z).
Proof.
  intro H. cbn [_safe_tail]. cbv zeta.
  set (data := if (Z.of_nat (List.length bytes) >? max_bytes)%Z
               then skipn (Z.to_nat (Z.of_nat (List.length bytes) - max_bytes))
                      bytes
               else bytes).
  split.
  - exists (slice_from (- max_lines) (splitlines (decode_replace data))).
    split; [reflexivity|]. split; [now apply slice_from_last|].
    apply Forall_skipn. apply splitlines_acc_clean. reflexivity.
  - exists data. split; [|split].
    + change (- 0)%Z with 0%Z. now rewrite slice_from_zero.
    + subst data. destruct (_ >? _)%Z; [rewrite length_skipn|]; lia.
    + intro Hb. subst data.
      destruct (Z.of_nat (List.length bytes) >? max_bytes)%Z eqn:E.
      * rewrite length_skipn. apply Z.gtb_lt in E. lia.
      * pose proof (Zgt_cases (Z.of_nat (List.length bytes)) max_bytes) as G.
        rewrite E in G. exact G.
Qed.

End TailFacts.

(** A log of three lines with the line ends of a serial console,
    cut to its last two lines. *)
Lemma safe_tail_lines_witness :
  (exists lines,
     _safe_tail string_of_list_byte
       (Readable (list_byte_of_string
                    ("a" ++ String CR (String LF "b")
                     ++ String CR (String LF "c")))) "/scratch/1/qemu.log"
       64000 2
     = join nl lines
     /\ (Z.of_nat (List.length lines) <= 2)%Z
     /\ Forall no_linebreak lines)
  /\ exists data,
       _safe_tail string_of_list_byte
         (Readable (list_byte_of_string
                      ("a" ++ String CR (String LF "b")
                       ++ String CR (String LF "c")))) "/scratch/1/qemu.log"
         64000 0
       = join nl (splitlines (string_of_list_byte data))
       /\ (List.length data
           <= List.length (list_byte_of_string
                             ("a" ++ String CR (String LF "b")
                              ++ String CR (String LF "c"))))%nat
       /\ ((0 <= 64000)%Z -> (Z.of_nat (List.length data) <= 64000)%Z).
Proof.
  apply (safe_tail_lines string_of_list_byte). lia.
Defined.

End ReportFacts.

(** ** The latest scratch directory *)

Module ScratchFacts.
Import PyStr Analysis Logger Scratch.

Lemma insert_int_perm x l : Permutation (insert_int x l) (x :: l).
Proof.
  induction l as [|y l IH]; cbn [insert_int]; [reflexivity|].
  destruct (x <=? y)%Z; [reflexivity|].
  rewrite IH. apply perm_swap.
Qed.

Lemma sorted_int_perm l : Permutation (sorted_int l) l.
Proof.
  induction l as [|x l IH]; cbn [sorted_int]; [constructor|].
  rewrite insert_int_perm. now constructor.
Qed.

Lemma insert_int_sorted x l :
  StronglySorted Z.le l -> StronglySorted Z.le (insert_int x l).
Proof.
  induction 1 as [|y l Hs IH Hall]; cbn [insert_int].
  - repeat constructor.
  - destruct (x <=? y)%Z eqn:E.
    + apply Z.leb_le in E. constructor; [now constructor|].
      constructor; [exact E|].
      eapply Forall_impl; [|exact Hall]. intros z Hz. cbv beta in Hz. lia.
    + apply Z.leb_gt in E. constructor; [exact IH|].
      eapply Permutation_Forall;
        [apply Permutation_sym, insert_int_perm|].
      constructor; [lia | exact Hall].
Qed.

Lemma sorted_int_sorted l : StronglySorted Z.le (sorted_int l).
Proof.
  induction l as [|x l IH]; cbn [sorted_int];
    [constructor | now apply insert_int_sorted].
Qed.

(** The last element of a sorted list is in it and bounds it. *)
Lemma sorted_last_greatest l : forall d,
  StronglySorted Z.le l -> l <> [] ->
  In (last l d) l /\ Forall (fun k => (k <= last l d)%Z) l.
Proof.
  induction l as [|x l IH]; intros d Hs Hne; [now elim Hne|].
  inversion Hs as [|? ? Hs' Hall]; subst.
  destruct l as [|y l].
  - cbn [last]. split; [now left|]. repeat constructor. lia.
  - destruct (IH d Hs') as [Hin Hle]; [discriminate|].
    change (last (x :: y :: l) d) with (last (y :: l) d).
    split; [now right|].
    constructor; [|exact Hle].
    exact (proj1 (Forall_forall _ _) Hall _ Hin).
Qed.

Lemma py_max_greatest ns : forall n,
  In (py_max n ns) (n :: ns)
  /\ Forall (fun k => (k <= py_max n ns)%Z) (n :: ns).
Proof.
  unfold py_max. induction ns as [|a ns IH]; intro n; cbn [fold_left].
  - split; [now left|]. repeat constructor. lia.
  - destruct (IH (Z.max n a)) as [Hin Hle].
    inversion Hle as [|? ? Hm Hrest]; subst.
    split.
    + destruct Hin as [E|Hin]; [|now right; right].
      rewrite <- E. destruct (Z.max_spec n a) as [[_ ->]|[_ ->]];
        [right; now left | now left].
    + constructor; [lia|]. constructor; [lia | exact Hrest].
Qed.

Lemma last_sorted_is_max n ns :
  last (sorted_int (n :: ns)) 0%Z = py_max n ns.
Proof.
  assert (sorted_int (n :: ns) <> []) as Hne.
  { intro E. pose proof (sorted_int_perm (n :: ns)) as P. rewrite E in P.
    apply Permutation_nil in P. discriminate. }
  destruct (sorted_last_greatest _ 0%Z (sorted_int_sorted (n :: ns)) Hne)
    as [Hin Hle].
  destruct (py_max_greatest ns n) as [Min Mle].
  pose proof (sorted_int_perm (n :: ns)) as P.
  apply Z.le_antisymm.
  - apply (proj1 (Forall_forall _ _) Mle).
    exact (Permutation_in _ P Hin).
  - apply (proj1 (Forall_forall _ _) Hle).
    exact (Permutation_in _ (Permutation_sym P) Min).
Qed.

Lemma sorted_int_nil l : sorted_int l = [] -> l = [].
Proof.
  intro E. pose proof (sorted_int_perm l) as P. rewrite E in P.
  now apply Permutation_nil in P.
Qed.

(** X11: the two places that look for the latest scratch directory,
    [_latest_iid_dir] of the analysis and the head of
    [append_emulation_record], agree on every directory listing: the
    last of the sorted numbers is their maximum, and both give up
    when the root is missing, cannot be listed, holds no numeric name
    or holds one that [int] refuses. *)
Theorem latest_dir_agrees (scratch_root : string) (dir : dir_state) :
  _latest_iid_dir scratch_root dir = latest_dir scratch_root dir.
Proof.
  unfold _latest_iid_dir, latest_dir, _numeric_dirs.
  destruct dir as [| |l]; try reflexivity.
  destruct (ints (filter py_isdigit l)) as [[|n ns]|]; try reflexivity.
  destruct (sorted_int (n :: ns)) as [|a s] eqn:E.
  - apply sorted_int_nil in E. discriminate.
  - rewrite <- E. now rewrite last_sorted_is_max.
Qed.

Lemma ints_some names : forall ns,
  ints names = Some ns -> map py_int names = map Some ns.
Proof.
  induction names as [|d names IH]; intros ns H; cbn [ints] in H.
  - now inversion H.
  - destruct (py_int d) as [n|] eqn:E; [|discriminate].
    destruct (ints names) as [ms|]; [|discriminate].
    inversion H; subst. cbn [map]. now rewrite E, (IH ms eq_refl).
Qed.

Lemma ints_none names d :
  In d names -> py_int d = None -> ints names = None.
Proof.
  induction names as [|x names IH]; intros Hin Hd; [destruct Hin|].
  cbn [ints]. destruct Hin as [->|Hin].
  - now rewrite Hd.
  - rewrite (IH Hin Hd). now destruct (py_int x).
Qed.

(** X12: the directory that is found is named by the number, not by
    the name that was listed: it is [str] of the greatest of the
    numbers that the digit-only names read as, whatever their leading
    zeros; a digit-only name that [int] refuses, as a superscript
    digit is, hides every numbered directory. *)
Theorem latest_dir_is_greatest (scratch_root : string) (l : list string) :
  (forall p, _latest_iid_dir scratch_root (Names l) = Some p ->
     exists d n,
       In d l /\ py_isdigit d = true /\ py_int d = Some n
       /\ p = path_join scratch_root (py_str_int n)
       /\ forall d', In d' l -> py_isdigit d' = true ->
            exists k, py_int d' = Some k /\ (k <= n)%Z)
  /\ (forall d, In d l -> py_isdigit d = true -> py_int d = None ->
        _latest_iid_dir scratch_root (Names l) = None).
Proof.
  split.
  - intros p Hp. rewrite latest_dir_agrees in Hp. cbn [latest_dir] in Hp.
    destruct (ints (filter py_isdigit l)) as [[|n ns]|] eqn:E;
      try discriminate.
    inversion Hp; subst p; clear Hp.
    apply ints_some in E.
    destruct (py_max_greatest ns n) as [Min Mle].
    assert (forall k, In k (n :: ns) ->
              exists d, In d l /\ py_isdigit d = true /\ py_int d = Some k)
      as Hback.
    { intros k Hk.
      assert (In (Some k) (map py_int (filter py_isdigit l))) as Hin
          by (rewrite E; now apply in_map).
      apply in_map_iff in Hin. destruct Hin as (d & Hd & Hin).
      apply filter_In in Hin. destruct Hin as [Hin Hdig].
      now exists d. }
    destruct (Hback _ Min) as (d & Hin & Hdig & Hd).
    exists d, (py_max n ns). repeat (split; [assumption|]).
    split; [reflexivity|].
    intros d' Hin' Hdig'.
    assert (In (py_int d') (map Some (n :: ns))) as Hk.
    { rewrite <- E. apply in_map. apply filter_In. now split. }
    apply in_map_iff in Hk. destruct Hk as (k & Hk & Hkin).
    exists k. split; [now rewrite Hk|].
    exact (proj1 (Forall_forall _ _) Mle _ Hkin).
  - intros d Hin Hdig Hd.
    unfold _latest_iid_dir, _numeric_dirs.
    rewrite (ints_none (filter py_isdigit l) d); [reflexivity | | exact Hd].
    apply filter_In. now split.
Qed.

(** A scratch root with the directory 1 and one named by a
    superscript two: the name is made of digits and [int] refuses
    it. *)
Lemma latest_dir_is_greatest_witness :
  _latest_iid_dir "/scratch" (Names ["1"; String "178"%char ""]) = None.
Proof.
  apply (proj2 (latest_dir_is_greatest "/scratch"
                  ["1"; String "178"%char ""]) (String "178"%char ""));
    [right; left; reflexivity | reflexivity | reflexivity].
Defined.

End ScratchFacts.

(** ** Keys and the full-text mirror of the store *)

Module MirrorFacts.
Import PyStr SqliteHelper Mirror.

Lemma fold_max_ge (l : list Z) (h : Z) :
  (h <= fold_right Z.max h l)%Z
  /\ Forall (fun k => (k <= fold_right Z.max h l)%Z) l.
Proof.
  induction l as [|x l [IH1 IH2]]; cbn [fold_right].
  - split; [lia | constructor].
  - split; [lia|]. constructor; [lia|].
    eapply Forall_impl; [|exact IH2]. intros k Hk. cbv beta in Hk. lia.
Qed.

Lemma next_id_above {R} (key : R -> Z) (t : table R) :
  (high_water t < next_id key t)%Z
  /\ Forall (fun r => (key r < next_id key t)%Z) (rows t).
Proof.
  unfold next_id.
  destruct (fold_max_ge (map key (rows t)) (high_water t)) as [H1 H2].
  split; [lia|].
  apply Forall_forall. intros r Hr.
  pose proof (proj1 (Forall_forall _ _) H2 (key r) (in_map key _ _ Hr)).
  cbv beta in *. lia.
Qed.

Lemma fold_max_top {R} (key : R -> Z) (id : Z) (l : list R) :
  Forall (fun r => (key r < id)%Z) l ->
  fold_right Z.max id (map key l ++ [id]) = id.
Proof.
  induction 1 as [|x l Hx _ IH]; cbn [map app fold_right]; [lia|].
  rewrite IH. lia.
Qed.

(** After an insert the next key is the one just given plus one. *)
Lemma next_id_after_insert {R} (key : R -> Z) (t : table R) (mk : Z -> R) :
  (forall id, key (mk id) = id) ->
  next_id key (snd (insert_row key t mk)) = (next_id key t + 1)%Z.
Proof.
  intro Hk. cbn [insert_row snd]. unfold next_id at 1. cbn [rows high_water].
  rewrite map_app. cbn [map]. rewrite Hk.
  destruct (next_id_above key t) as [_ H].
  rewrite (fold_max_top key _ _ H). lia.
Qed.

Section StoreInvariants.

Context {real : Type}.

Lemma init_rows (file : option (@db real)) :
  table_rows (runs (kb_init file)) = table_rows (runs (connect file))
  /\ table_rows (analyses (kb_init file))
     = table_rows (analyses (connect file))
  /\ fts_rows (analyses_fts (kb_init file))
     = fts_rows (analyses_fts (connect file)).
Proof.
  unfold kb_init. cbn [runs analyses analyses_fts].
  destruct (runs (connect file)), (analyses (connect file)),
    (analyses_fts (connect file)); repeat split.
Qed.

Lemma top_key_next {R} (key : R -> Z) (t : option (table R)) :
  next_id key (table_of t) = (top_key key t + 1)%Z.
Proof.
  destruct t as [t|]; unfold next_id, top_key, table_of.
  - lia.
  - cbn [empty_table rows high_water map fold_right]. lia.
Qed.

Lemma table_of_rows {R} (t : option (table R)) :
  rows (table_of t) = table_rows t.
Proof. now destruct t. Qed.

(** The row of [runs] that [kb_insert_run] makes for a key. *)
Lemma insert_run_cases (file : option (@db real)) (now : string)
  (brand model : option string) (firmware : string)
  (iid_dir : option string) (exit_code : Z) (result_bool : option bool)
  (duration_sec : real) :
  let t := table_of (runs (connect file)) in
  let id := (top_key run_id (runs (connect file)) + 1)%Z in
  let r := {| run_id := id; run_ts := (now ++ "Z")%string;
              run_brand := brand; run_model := model;
              run_firmware := firmware; run_iid_dir := iid_dir;
              run_exit_code := exit_code;
              run_result_bool :=
                match result_bool with
                | None => None
                | Some b => Some (if b then 1 else 0)%Z
                end;
              run_duration_sec := duration_sec |} in
  kb_insert_run file None now brand model firmware iid_dir exit_code
    result_bool duration_sec
  = if (MAX_ROWID <? id)%Z then inl DISK_FULL
    else inr (id, {| journal_mode := WAL;
                     runs := Some {| rows := rows t ++ [r];
                                     high_water := id |};
                     analyses := analyses (kb_init file);
                     analyses_fts := analyses_fts (kb_init file) |}).
Proof.
  cbv zeta.
  destruct (SqliteFacts.kb_init_tables file) as (Er & _ & _).
  unfold kb_insert_run. rewrite Er.
  change (match runs (connect file) with
          | Some t => t | None => empty_table end)
    with (table_of (runs (connect file))).
  cbn [insert_row]. rewrite (top_key_next run_id (runs (connect file))).
  destruct (MAX_ROWID <? _)%Z; reflexivity.
Qed.

Lemma top_key_above {R} (key : R -> Z) (t : option (table R)) :
  Forall (fun r => (key r <= top_key key t)%Z) (table_rows t).
Proof.
  destruct t as [t|]; [|constructor]. cbn [top_key table_rows].
  destruct (fold_max_ge (map key (rows t)) (high_water t)) as [_ H].
  apply Forall_forall. intros r Hr.
  exact (proj1 (Forall_forall _ _) H (key r) (in_map key _ _ Hr)).
Qed.

Lemma top_key_after {R} (key : R -> Z) (t : option (table R)) (r : R) :
  key r = (top_key key t + 1)%Z ->
  top_key key (Some {| rows := rows (table_of t) ++ [r];
                       high_water := top_key key t + 1 |})
  = (top_key key t + 1)%Z.
Proof.
  intro Hk. cbn [top_key rows high_water]. rewrite map_app. cbn [map].
  rewrite Hk. apply fold_max_top. rewrite table_of_rows, <- Hk.
  eapply Forall_impl; [|apply (top_key_above key t)].
  intros x Hx. cbv beta in Hx. lia.
Qed.

(** X13: [kb_insert_run] never reuses a key.  Whenever it returns, the
    key is the largest key that the table of runs has held plus one,
    above every key of the runs already stored; one row is appended
    that carries that key and the values given; every other row of the
    three tables is kept; and the next insert that returns gives the
    next integer.  It returns where [sqlite3] raises nothing for the
    file and the largest key is below 2^63-1; it raises the exception
    of [sqlite3] where there is one, and "database or disk is full"
    where the largest key is 2^63-1. *)
Theorem insert_run_fresh_key (file : option (@db real))
  (fault : option string) (now : string)
  (brand model : option string) (firmware : string)
  (iid_dir : option string) (exit_code : Z) (result_bool : option bool)
  (duration_sec : real) :
  let top := top_key run_id (runs (connect file)) in
  let call := kb_insert_run file fault now brand model firmware iid_dir
                exit_code result_bool duration_sec in
  (forall e, fault = Some e -> call = inl e)
  /\ (fault = None -> (MAX_ROWID <= top)%Z -> call = inl DISK_FULL)
  /\ (fault = None -> (top < MAX_ROWID)%Z ->
      exists store, call = inr ((top + 1)%Z, store))
  /\ forall id store,
       call = inr (id, store) ->
       id = (top + 1)%Z
       /\ Forall (fun old => (run_id old < id)%Z)
            (table_rows (runs (connect file)))
       /\ (exists r,
             table_rows (runs store)
             = table_rows (runs (connect file)) ++ [r]
             /\ run_id r = id /\ run_firmware r = firmware
             /\ run_exit_code r = exit_code /\ run_brand r = brand
             /\ run_model r = model /\ run_iid_dir r = iid_dir)
       /\ table_rows (analyses store) = table_rows (analyses (connect file))
       /\ fts_rows (analyses_fts store)
          = fts_rows (analyses_fts (connect file))
       /\ forall fault' now' brand' model' firmware' iid_dir' exit_code'
            result_bool' duration_sec' id' store',
            kb_insert_run (Some store) fault' now' brand' model' firmware'
              iid_dir' exit_code' result_bool' duration_sec'
            = inr (id', store') ->
            id' = (id + 1)%Z.
Proof.
  intros top call.
  destruct (init_rows file) as (Hr & Ha & Hf).
  pose proof (insert_run_cases file now brand model firmware iid_dir
                exit_code result_bool duration_sec) as E.
  cbv zeta in E. fold top in E.
  split; [intros e ->; reflexivity|].
  split.
  { intros -> Hfull. unfold call. rewrite E.
    destruct (Z.ltb_spec MAX_ROWID (top + 1)); [reflexivity | lia]. }
  split.
  { intros -> Hleft. unfold call. rewrite E.
    destruct (Z.ltb_spec MAX_ROWID (top + 1)); [lia|]. eexists. reflexivity. }
  intros id store Hcall. unfold call in Hcall.
  destruct fault as [e|]; [discriminate Hcall|].
  rewrite E in Hcall.
  destruct (Z.ltb_spec MAX_ROWID (top + 1)) as [|Hle]; [discriminate|].
  injection Hcall as <- <-.
  cbn [runs analyses analyses_fts table_rows rows].
  split; [reflexivity|].
  split.
  { eapply Forall_impl;
      [|apply (top_key_above run_id (runs (connect file)))].
    intros x Hx. cbv beta in Hx. fold top in Hx. lia. }
  split.
  { eexists. rewrite table_of_rows. repeat split. }
  split; [exact Ha|]. split; [exact Hf|].
  intros fault' now' brand' model' firmware' iid_dir' exit_code'
    result_bool' duration_sec' id' store' Hnext.
  destruct fault' as [e|]; [discriminate Hnext|].
  rewrite insert_run_cases in Hnext. cbv zeta in Hnext.
  cbn [connect runs] in Hnext.
  subst top. rewrite top_key_after in Hnext by reflexivity.
  destruct (MAX_ROWID <? _)%Z; [discriminate|].
  now injection Hnext as <- _.
Qed.


(** X15: the two inserts of one emulation go together.  Whenever
    [kb_insert_run] returns a key and [kb_insert_analysis] then
    stores an analysis under that key and returns, the analysis
    refers to a run of the store: the one just inserted, the last
    row of the runs and the only one with that key, whatever the file
    held before. *)
Theorem analysis_refers_to_run (file : option (@db real))
  (fault : option string) (now : string)
  (brand model : option string) (firmware : string)
  (iid_dir : option string) (exit_code : Z) (result_bool : option bool)
  (duration_sec : real) (now' source : string) (summary : option string)
  (content : string) (reasons_json : option string) (max_content : Z)
  (id rowid : Z) (store store' : @db real) :
  kb_insert_run file fault now brand model firmware iid_dir exit_code
    result_bool duration_sec = inr (id, store) ->
  kb_insert_analysis (Some store) now' id source summary content
    reasons_json max_content = Some (rowid, store') ->
  exists r a,
    last (table_rows (runs store')) r = r
    /\ In r (table_rows (runs store'))
    /\ run_id r = id /\ run_firmware r = firmware
    /\ In a (table_rows (analyses store'))
    /\ an_id a = rowid /\ an_run_id a = run_id r
    /\ an_source a = source
    /\ Forall (fun other => other = r \/ run_id other <> id)
         (table_rows (runs store')).
Proof.
  intros Hrun Han.
  destruct fault as [e|]; [discriminate Hrun|].
  rewrite insert_run_cases in Hrun. cbv zeta in Hrun.
  destruct (MAX_ROWID <? _)%Z; [discriminate|].
  injection Hrun as Hid Hstore.
  pose proof (top_key_above run_id (runs (connect file))) as Hfresh.
  rewrite <- table_of_rows in Hfresh.
  destruct (SqliteFacts.kb_init_tables (Some store)) as (Er & Ea & Ef).
  unfold kb_insert_analysis in Han. rewrite Ea, Ef in Han.
  cbn [insert_row] in Han. injection Han as Hrow Hst'.
  assert (runs store' = runs store) as Hruns.
  { rewrite <- Hst'. cbn [runs]. unfold kb_init.
    cbn [runs connect]. rewrite <- Hstore. reflexivity. }
  rewrite Hruns, <- Hstore. cbn [runs table_rows rows].
  eexists _, _.
  split; [apply last_last|].
  split; [apply in_or_app; right; now left|].
  cbn [run_id run_firmware].
  split; [exact Hid|]. split; [reflexivity|].
  rewrite <- Hst'. cbn [analyses table_rows rows].
  split; [apply in_or_app; right; now left|].
  cbn [an_id an_run_id an_source].
  split; [exact Hrow|]. split; [now rewrite Hid|]. split; [reflexivity|].
  apply Forall_app; split.
  - eapply Forall_impl; [|exact Hfresh].
    intros other Ho; cbv beta in Ho; right; lia.
  - constructor; [now left | constructor].
Qed.

End StoreInvariants.

(** A first run in a file that does not exist yet, and a run for a
    file whose largest key is 2^63-1. *)
Lemma insert_run_fresh_key_witness :
  (exists store,
     kb_insert_run (real := unit) None None "2025-01-01T00:00:00"
       (Some "dlink") None "fw.bin" None 0 (Some true) tt
     = inr (1%Z, store))
  /\ kb_insert_run (real := unit)
       (Some {| journal_mode := WAL;
                runs := Some {| rows := []; high_water := MAX_ROWID |};
                analyses := None; analyses_fts := None |})
       None "2025-01-01T00:00:00" (Some "dlink") None "fw.bin" None 0
       (Some true) tt
     = inl DISK_FULL.
Proof.
  split.
  - apply (insert_run_fresh_key (real := unit) None None
             "2025-01-01T00:00:00" (Some "dlink") None "fw.bin" None 0
             (Some true) tt); reflexivity.
  - apply (insert_run_fresh_key (real := unit)
             (Some {| journal_mode := WAL;
                      runs := Some {| rows := []; high_water := MAX_ROWID |};
                      analyses := None; analyses_fts := None |})
             None "2025-01-01T00:00:00" (Some "dlink") None "fw.bin" None 0
             (Some true) tt); [reflexivity | cbn; lia].
Defined.


(** The run and the analysis of a first emulation. *)
Lemma analysis_refers_to_run_witness :
  exists (r : @run_row unit) (a : analysis_row),
    run_id r = 1%Z /\ run_firmware r = "fw.bin"
    /\ an_id a = 1%Z /\ an_run_id a = run_id r /\ an_source a = "summary".
Proof.
  destruct (analysis_refers_to_run (real := unit) None None
              "2025-01-01T00:00:00" (Some "dlink") None "fw.bin" None 0
              (Some true) tt "2025-01-01T00:00:01" "summary"
              (Some "Emulation summary") "ok" None 200000
              1%Z 1%Z _ _ eq_refl eq_refl)
    as (r & a & _ & _ & H1 & H2 & _ & H3 & H4 & H5 & _).
  exists r, a. repeat split; assumption.
Defined.

End MirrorFacts.

(** ** The suggested device row *)

Module EmuxDetectFacts.
Import PyStr Logger EmuxDetect.

Lemma commas_app a b : commas (a ++ b) = commas a + commas b.
Proof.
  induction a as [|c a IH]; [reflexivity|].
  cbn [append commas]. rewrite IH. lia.
Qed.

Lemma startswith_prefix p q : forall s,
  startswith (p ++ q) s = true -> startswith p s = true.
Proof.
  induction p as [|a p IH]; intros s H; [reflexivity|].
  destruct s as [|c s]; [discriminate|].
  cbn [append startswith] in *. apply andb_true_iff in H.
  destruct H as [H1 H2]. now rewrite H1, (IH s H2).
Qed.

(** A text that holds a word holds every prefix of the word. *)
Lemma contains_prefix p q s :
  contains (p ++ q) s = true -> contains p s = true.
Proof.
  induction s as [|c s IH]; cbn [contains]; intro H.
  - rewrite orb_false_r in *. now apply (startswith_prefix p q).
  - apply orb_true_iff in H. destruct H as [H|H].
    + now rewrite (startswith_prefix p q _ H).
    + rewrite (IH H). apply orb_true_r.
Qed.

Ltac split_condition :=
  match goal with
  | |- context [if ?c then _ else _] =>
      lazymatch type of c with bool => destruct c eqn:? end
  end;
  cbv beta iota zeta delta [negb truthy].

Ltac use_keyword :=
  repeat match goal with
         | H : (_ || _)%bool = true |- _ =>
             apply orb_true_iff in H; destruct H as [H|H]
         | H : (_ && _)%bool = true |- _ =>
             apply andb_true_iff in H; destruct H as [_ H]
         end;
  try match goal with
      | H : contains "realview-eb" _ = true |- _ =>
          apply (contains_prefix "realview" "-eb") in H
      end;
  cbn [existsb];
  repeat match goal with
         | H : contains _ _ = true |- _ => rewrite H; clear H
         end;
  rewrite ?orb_true_r; reflexivity.

(** X16: in the row that [_infer_device_suggestion] composes, the
    QEMU binary, the machine type and the preset go together: all
    three are empty, or all three are set and the preset is one of
    the table; CPU type and device tree are always empty and the
    memory is always 256M.  Apart from the names that start with
    [zImage], a device is suggested only for a board word in the
    lower-cased kernel name, so that the prefix [vmlinux] adds
    nothing.  No field is quoted: the row has eight commas and those
    of the folder name, the kernel name and the model. *)
Theorem device_row_shape (dest_dir kernel_filename model_for_desc : string) :
  let d := infer kernel_filename model_for_desc in
  ((qemu_binary d = "" /\ machine_type d = "" /\ qemuopts d = "")
   \/ (truthy (qemu_binary d) = true /\ truthy (machine_type d) = true
       /\ In (qemuopts d) PRESETS))
  /\ cpu_type d = "" /\ dtb d = "" /\ memory d = "256M"
  /\ kernel_image d = kernel_filename /\ description d = model_for_desc
  /\ (startswith "zImage" kernel_filename = false ->
      truthy (qemu_binary d) = true ->
      existsb (fun w => contains w (py_lower kernel_filename))
        ["malta"; "versatile"; "realview"; "vexpress"; "aarch64"; "arm64";
         "virt"] = true)
  /\ commas (_infer_device_suggestion dest_dir kernel_filename
               model_for_desc)
     = 8 + commas (basename dest_dir) + commas kernel_filename
       + commas model_for_desc.
Proof.
  unfold _infer_device_suggestion, device_id, infer.
  set (k := py_lower kernel_filename).
  set (z := startswith "zImage" kernel_filename).
  set (v := startswith "vmlinux" kernel_filename).
  cbv zeta.
  repeat split_condition;
    cbn [qemu_binary machine_type cpu_type dtb memory kernel_image qemuopts
           description];
    (split; [first [left; repeat split; reflexivity
                   | right; cbn; intuition reflexivity]|]);
    do 5 (split; [reflexivity|]);
    (split; [intros Hz Hb; first [discriminate | use_keyword]|]);
    rewrite !commas_app; cbn [commas Ascii.eqb Bool.eqb]; lia.
Qed.

End EmuxDetectFacts.

(** ** Folder names, free folders and loose matching *)

Module HelpersFacts.
Import PyStr Re Logger Helpers.

(** The first way for a greedy run to end is after the longest run. *)
Lemma star_ends_head p : forall s prev,
  exists prev' run rest tl,
    star_ends p prev s = (prev', rest) :: tl
    /\ s = (run ++ rest)%string /\ all_in p run.
Proof.
  induction s as [|c s IH]; intro prev; cbn [star_ends].
  - exists prev, EmptyString, EmptyString, []. repeat split.
  - destruct (p c) eqn:E.
    + destruct (IH (Some c)) as (prev' & run & rest & tl & H & Hs & Hr).
      exists prev', (String c run), rest, (tl ++ [(prev, String c s)]).
      rewrite H. split; [reflexivity|]. split; [now rewrite Hs|].
      unfold all_in. cbn [any_chr]. now rewrite E.
    + exists prev, EmptyString, (String c s), []. repeat split.
Qed.

Lemma keep_ext p q s : (forall c, p c = q c) -> keep p s = keep q s.
Proof.
  intro H. induction s as [|c s IH]; [reflexivity|].
  cbn [keep]. now rewrite H, IH.
Qed.

Lemma keep_app p a b : keep p (a ++ b) = (keep p a ++ keep p b)%string.
Proof.
  induction a as [|c a IH]; [reflexivity|].
  cbn [append keep]. destruct (p c); cbn [append]; now rewrite IH.
Qed.

Lemma keep_all_in p s : all_in p (keep p s).
Proof.
  unfold all_in. induction s as [|c s IH]; [reflexivity|].
  cbn [keep]. destruct (p c) eqn:E; [|exact IH].
  cbn [any_chr]. now rewrite E.
Qed.

Lemma keep_of_all_in p s : all_in p s -> keep p s = s.
Proof.
  unfold all_in. induction s as [|c s IH]; intro H; [reflexivity|].
  cbn [any_chr] in H. apply orb_false_iff in H. destruct H as [H1 H2].
  apply negb_false_iff in H1. cbn [keep]. now rewrite H1, (IH H2).
Qed.

Lemma keep_length p s : String.length (keep p s) <= String.length s.
Proof.
  induction s as [|c s IH]; [apply Nat.le_refl|].
  cbn [keep]. destruct (p c); cbn [String.length]; lia.
Qed.

(** Deleting the runs of a class leaves the characters outside it. *)
Lemma sub_plus_go p : forall s skip prev,
  (exists run rest,
     s = (run ++ rest)%string /\ String.length run = skip /\ all_in p run) ->
  sub_empty_go (Plus p) skip prev s = keep (fun c => negb (p c)) s.
Proof.
  induction s as [|c s IH]; intros skip prev (run & rest & Hs & Hl & Hr);
    [reflexivity|].
  cbn [sub_empty_go keep].
  destruct skip as [|k].
  - unfold match_len. cbn [ends snd].
    destruct (p c) eqn:E; cbn [negb].
    + destruct (star_ends_head p s (Some c))
        as (prev' & run' & rest' & tl & H & Hs' & Hr').
      rewrite H.
      replace (String.length (String c s) - String.length rest')
        with (S (String.length run'))
        by (rewrite Hs'; cbn [String.length]; rewrite StrFacts.length_app;
            lia).
      apply IH. now exists run', rest'.
    + f_equal. apply IH. now exists EmptyString, s.
  - destruct run as [|a run]; [discriminate|].
    cbn [append] in Hs. inversion Hs; subst a s.
    unfold all_in in Hr. cbn [any_chr] in Hr.
    apply orb_false_iff in Hr. destruct Hr as [H1 H2].
    apply negb_false_iff in H1. rewrite H1. cbn [negb].
    apply IH. exists run, rest. cbn [String.length] in Hl.
    repeat split; [lia | exact H2].
Qed.

Lemma sub_plus p s :
  sub_empty (Plus (fun c => negb (p c))) s = keep p s.
Proof.
  unfold sub_empty.
  rewrite (sub_plus_go (fun c => negb (p c)) s 0 None)
    by (now exists EmptyString, s).
  apply keep_ext. intro c. apply negb_involutive.
Qed.

Lemma replace_chr_length a b s :
  String.length (replace_chr a b s) = String.length s.
Proof.
  induction s as [|c s IH]; [reflexivity|].
  cbn [replace_chr String.length]. now rewrite IH.
Qed.

Lemma replace_chr_none a b s :
  any_chr (fun c => Ascii.eqb c a) s = false -> replace_chr a b s = s.
Proof.
  induction s as [|c s IH]; intro H; [reflexivity|].
  cbn [any_chr] in H. apply orb_false_iff in H. destruct H as [H1 H2].
  cbn [replace_chr]. now rewrite H1, (IH H2).
Qed.

Lemma all_in_weaken (p q : ascii -> bool) s :
  (forall c, p c = true -> q c = true) -> all_in p s -> all_in q s.
Proof.
  unfold all_in. intro Hpq.
  induction s as [|c s IH]; intro H; [reflexivity|].
  cbn [any_chr] in *. apply orb_false_iff in H. destruct H as [H1 H2].
  apply negb_false_iff in H1. now rewrite (Hpq c H1), (IH H2).
Qed.

Lemma all_in_none (p q : ascii -> bool) s :
  (forall c, p c = true -> q c = false) -> all_in p s -> any_chr q s = false.
Proof.
  unfold all_in. intro Hpq.
  induction s as [|c s IH]; intro H; [reflexivity|].
  cbn [any_chr] in *. apply orb_false_iff in H. destruct H as [H1 H2].
  apply negb_false_iff in H1. now rewrite (Hpq c H1), (IH H2).
Qed.

Lemma name_chr_plain c :
  name_chr c = true -> Ascii.eqb c " " = false /\ Ascii.eqb c "/" = false.
Proof.
  destruct c as [[] [] [] [] [] [] [] []]; intro H;
    first [discriminate H | split; reflexivity].
Qed.

(** X17: [safe_name] keeps the letters, digits, underscores, hyphens
    and dots of the model and turns its spaces into underscores;
    every other character is dropped.  So the folder name holds no
    path separator, is not longer than the model, and a name that is
    safe already is not changed. *)
Theorem safe_name_keeps_name_characters (s : string) :
  safe_name s = keep name_chr (replace_chr " " "_" s)
  /\ all_in name_chr (safe_name s)
  /\ any_chr (fun c => Ascii.eqb c "/") (safe_name s) = false
  /\ String.length (safe_name s) <= String.length s
  /\ safe_name (safe_name s) = safe_name s.
Proof.
  assert (forall t, safe_name t = keep name_chr (replace_chr " " "_" t))
    as Hspec by (intro t; apply sub_plus).
  assert (all_in name_chr (safe_name s)) as Hall
      by (rewrite Hspec; apply keep_all_in).
  split; [apply Hspec|]. split; [exact Hall|]. split; [|split].
  - apply (all_in_none name_chr _ _ (fun c Hc => proj2 (name_chr_plain c Hc))).
    exact Hall.
  - rewrite Hspec.
    rewrite <- (replace_chr_length " " "_" s). apply keep_length.
  - rewrite (Hspec (safe_name s)).
    rewrite replace_chr_none; [now apply keep_of_all_in|].
    apply (all_in_none name_chr _ _ (fun c Hc => proj1 (name_chr_plain c Hc))).
    exact Hall.
Qed.

Lemma mem_in p l : mem p l = true <-> In p l.
Proof.
  unfold mem. rewrite existsb_exists. split.
  - intros (x & Hx & E). apply String.eqb_eq in E. now subst.
  - intro H. exists p. split; [exact H | apply String.eqb_refl].
Qed.

Lemma append_cancel (a b c : string) : (a ++ b)%string = (a ++ c)%string -> b = c.
Proof.
  induction a as [|x a IH]; cbn [append]; intro H; [exact H|].
  inversion H. now apply IH.
Qed.

(** [str] tells the positive integers apart. *)
Lemma str_int_injective (i j : Z) :
  (0 < i)%Z -> (0 < j)%Z -> py_str_int i = py_str_int j -> i = j.
Proof.
  intros Hi Hj E.
  destruct i as [|p|p]; try lia. destruct j as [|q|q]; try lia.
  pose proof (LoggerFacts.py_int_str p) as H1.
  pose proof (LoggerFacts.py_int_str q) as H2.
  rewrite E in H1. rewrite H1 in H2. now inversion H2.
Qed.

Lemma candidate_injective base_dest (i j : Z) :
  (0 < i)%Z -> (0 < j)%Z ->
  candidate base_dest i = candidate base_dest j -> i = j.
Proof.
  intros Hi Hj E. unfold candidate in E.
  apply append_cancel in E. apply (append_cancel "-") in E.
  now apply str_int_injective.
Qed.

Lemma first_free_some ex base_dest : forall fuel i d,
  first_free ex base_dest fuel i = Some d ->
  exists n,
    (n < fuel)%nat /\ d = candidate base_dest (i + Z.of_nat n)
    /\ ex d = false
    /\ forall m, (m < n)%nat ->
         ex (candidate base_dest (i + Z.of_nat m)) = true.
Proof.
  induction fuel as [|fuel IH]; intros i d H; [discriminate|].
  cbn [first_free] in H. fold (candidate base_dest i) in H.
  destruct (ex (candidate base_dest i)) eqn:E; cbn [negb] in H.
  - destruct (IH _ _ H) as (n & Hn & Hd & Hfree & Hbelow).
    exists (S n). split; [lia|].
    split; [rewrite Hd; f_equal; lia|]. split; [exact Hfree|].
    intros [|m] Hm.
    + now rewrite Z.add_0_r.
    + replace (i + Z.of_nat (S m))%Z with (i + 1 + Z.of_nat m)%Z by lia.
      apply Hbelow. lia.
  - inversion H; subst d. exists 0%nat. rewrite Z.add_0_r.
    split; [lia|]. split; [reflexivity|]. split; [exact E|].
    intros m Hm. lia.
Qed.

Lemma first_free_none ex base_dest : forall fuel i,
  first_free ex base_dest fuel i = None ->
  forall m, (m < fuel)%nat ->
    ex (candidate base_dest (i + Z.of_nat m)) = true.
Proof.
  induction fuel as [|fuel IH]; intros i H m Hm; [lia|].
  cbn [first_free] in H. fold (candidate base_dest i) in H.
  destruct (ex (candidate base_dest i)) eqn:E; cbn [negb] in H;
    [|discriminate].
  destruct m as [|m].
  - now rewrite Z.add_0_r.
  - replace (i + Z.of_nat (S m))%Z with (i + 1 + Z.of_nat m)%Z by lia.
    apply (IH _ H). lia.
Qed.

Lemma first_free_more_fuel ex base_dest : forall fuel fuel' i d,
  first_free ex base_dest fuel i = Some d -> (fuel <= fuel')%nat ->
  first_free ex base_dest fuel' i = Some d.
Proof.
  induction fuel as [|fuel IH]; intros fuel' i d H Hle; [discriminate|].
  destruct fuel' as [|fuel']; [lia|].
  cbn [first_free] in *.
  destruct (negb (ex (base_dest ++ "-" ++ py_str_int i)%string));
    [exact H|].
  apply (IH _ _ _ H). lia.
Qed.

Lemma NoDup_map_in {A B} (f : A -> B) (l : list A) :
  (forall x y, In x l -> In y l -> f x = f y -> x = y) ->
  NoDup l -> NoDup (map f l).
Proof.
  intros Hinj Hnd. induction Hnd as [|x l Hx _ IH]; cbn [map]; constructor.
  - intro Hin. apply in_map_iff in Hin. destruct Hin as (y & Hy & Hin).
    apply Hinj in Hy; [subst; contradiction | now right | now left].
  - apply IH. intros a b Ha Hb. apply Hinj; now right.
Qed.

(** A file system holds finitely many paths, so the search for a free
    folder ends. *)
Lemma first_free_ends (paths : list string) base_dest (i : Z) :
  (0 < i)%Z ->
  exists d, first_free (holds paths) base_dest (S (List.length paths)) i
            = Some d.
Proof.
  intro Hi.
  destruct (first_free (holds paths) base_dest (S (List.length paths)) i)
    as [d|] eqn:E; [now exists d|].
  pose proof (first_free_none _ _ _ _ E) as Hall.
  set (l := map (fun m => candidate base_dest (i + Z.of_nat m))
              (seq 0 (S (List.length paths)))).
  assert (NoDup l) as Hnd.
  { apply NoDup_map_in; [|apply seq_NoDup].
    intros m m' _ _ Hm. apply candidate_injective in Hm; lia. }
  assert (incl l paths) as Hincl.
  { intros p Hp. apply in_map_iff in Hp. destruct Hp as (m & <- & Hm).
    apply in_seq in Hm. apply mem_in. apply Hall. lia. }
  pose proof (NoDup_incl_length Hnd Hincl) as Hlen.
  unfold l in Hlen. rewrite length_map, length_seq in Hlen. lia.
Qed.

(** X18: the destination folder of [emux.emuxbuild] is never one
    that exists.  On a file system that holds finitely many paths the
    loop ends, after at most one try more than there are paths: the
    folder is the base folder when that is free, and otherwise the
    base folder with the least number from 2 on whose folder is
    free. *)
Theorem dest_dir_never_overwrites (paths : list string)
  (base_dest : string) :
  exists d,
    (forall fuel, (List.length paths < fuel)%nat ->
       dest_dir (holds paths) base_dest fuel = Some d)
    /\ holds paths d = false
    /\ (holds paths base_dest = false -> d = base_dest)
    /\ (holds paths base_dest = true ->
        exists i,
          (2 <= i)%Z /\ d = (base_dest ++ "-" ++ py_str_int i)%string
          /\ forall j, (2 <= j < i)%Z ->
               holds paths (base_dest ++ "-" ++ py_str_int j)%string = true).
Proof.
  unfold dest_dir.
  destruct (holds paths base_dest) eqn:E.
  - destruct (first_free_ends paths base_dest 2) as [d Hd]; [lia|].
    destruct (first_free_some _ _ _ _ _ Hd) as (n & Hn & Ed & Hfree & Hbelow).
    exists d. split; [|split; [exact Hfree|split; [discriminate|]]].
    + intros fuel Hf. apply (first_free_more_fuel _ _ _ _ _ _ Hd). lia.
    + intros _. exists (2 + Z.of_nat n)%Z. split; [lia|].
      split; [exact Ed|].
      intros j Hj.
      replace j with (2 + Z.of_nat (Z.to_nat (j - 2)))%Z by lia.
      apply Hbelow. lia.
  - exists base_dest. split; [reflexivity|]. split; [exact E|].
    split; [reflexivity | discriminate].
Qed.

Lemma py_lower_app a b :
  py_lower (a ++ b) = (py_lower a ++ py_lower b)%string.
Proof.
  induction a as [|c a IH]; [reflexivity|].
  cbn [append py_lower]. now rewrite IH.
Qed.

Lemma py_lower_chr_twice c : py_lower_chr (py_lower_chr c) = py_lower_chr c.
Proof. destruct c as [[] [] [] [] [] [] [] []]; reflexivity. Qed.

Lemma py_lower_twice s : py_lower (py_lower s) = py_lower s.
Proof.
  induction s as [|c s IH]; [reflexivity|].
  cbn [py_lower]. now rewrite py_lower_chr_twice, IH.
Qed.

Lemma alnum_is_lower c : alnum_chr c = true -> py_lower_chr c = c.
Proof.
  destruct c as [[] [] [] [] [] [] [] []]; intro H;
    first [discriminate H | reflexivity].
Qed.

Lemma py_lower_alnum s : all_in alnum_chr s -> py_lower s = s.
Proof.
  unfold all_in. induction s as [|c s IH]; intro H; [reflexivity|].
  cbn [any_chr] in H. apply orb_false_iff in H. destruct H as [H1 H2].
  apply negb_false_iff in H1.
  cbn [py_lower]. now rewrite (alnum_is_lower c H1), (IH H2).
Qed.

Lemma norm_keeps s : norm s = keep alnum_chr (py_lower s).
Proof. apply sub_plus. Qed.

Lemma startswith_here x b : startswith x (x ++ b) = true.
Proof.
  induction x as [|c x IH]; [reflexivity|].
  cbn [append startswith]. now rewrite Ascii.eqb_refl, IH.
Qed.

Lemma contains_after x a s :
  contains x s = true -> contains x (a ++ s) = true.
Proof.
  intro H. induction a as [|c a IH]; [exact H|].
  cbn [append contains]. rewrite IH. apply orb_true_r.
Qed.

Lemma contains_inside x a b : contains x (a ++ x ++ b) = true.
Proof.
  apply contains_after. destruct x as [|c x]; [now destruct b|].
  change (String c x ++ b)%string with (String c (x ++ b)).
  cbn [contains startswith]. now rewrite Ascii.eqb_refl, startswith_here.
Qed.

(** X19: the loose comparison of [firmae.history] looks at the
    letters and digits only, in lower case: [norm] keeps exactly
    those, so that it does not change when applied again, when the
    case changes or when separators are put in; a firmware name that
    holds the model as it was typed always matches it. *)
Theorem loose_match_ignores_case_and_separators
  (s a b sep needle : string) :
  norm s = keep alnum_chr (py_lower s)
  /\ norm (norm s) = norm s
  /\ norm (py_lower s) = norm s
  /\ norm (a ++ b) = (norm a ++ norm b)%string
  /\ (norm sep = EmptyString -> norm (a ++ sep ++ b) = norm (a ++ b))
  /\ contains_loose (a ++ needle ++ b) needle = true.
Proof.
  assert (forall x y, norm (x ++ y) = (norm x ++ norm y)%string) as Happ
      by (intros x y; now rewrite !norm_keeps, py_lower_app, keep_app).
  split; [apply norm_keeps|]. split; [|split; [|split; [|split]]].
  - rewrite (norm_keeps (norm s)).
    rewrite py_lower_alnum; rewrite norm_keeps.
    + apply keep_of_all_in, keep_all_in.
    + apply keep_all_in.
  - now rewrite !norm_keeps, py_lower_twice.
  - apply Happ.
  - intro Hsep. now rewrite !Happ, Hsep.
  - unfold contains_loose. destruct (negb (truthy (strip needle)));
      [reflexivity|].
    rewrite !Happ. apply contains_inside.
Qed.

Lemma insert_desc_perm x l : Permutation (insert_desc x l) (x :: l).
Proof.
  induction l as [|y l IH]; cbn [insert_desc]; [reflexivity|].
  destruct (num y <=? num x)%Z; [reflexivity|].
  rewrite IH. apply perm_swap.
Qed.

Lemma sort_desc_perm l : Permutation (sort_desc l) l.
Proof.
  induction l as [|x l IH]; cbn [sort_desc]; [constructor|].
  rewrite insert_desc_perm. now constructor.
Qed.

Lemma insert_desc_sorted x l :
  StronglySorted newer_first l -> StronglySorted newer_first (insert_desc x l).
Proof.
  induction 1 as [|y l Hs IH Hall]; cbn [insert_desc].
  - repeat constructor.
  - destruct (num y <=? num x)%Z eqn:E.
    + apply Z.leb_le in E. constructor; [now constructor|].
      constructor; [exact E|].
      eapply Forall_impl; [|exact Hall].
      unfold newer_first. intros z Hz. lia.
    + apply Z.leb_gt in E. constructor; [exact IH|].
      eapply Permutation_Forall;
        [apply Permutation_sym, insert_desc_perm|].
      constructor; [unfold newer_first; lia | exact Hall].
Qed.

Lemma sort_desc_sorted l : StronglySorted newer_first (sort_desc l).
Proof.
  induction l as [|x l IH]; cbn [sort_desc];
    [constructor | now apply insert_desc_sorted].
Qed.

Lemma sorted_filter {A} (R : A -> A -> Prop) (f : A -> bool) l :
  StronglySorted R l -> StronglySorted R (filter f l).
Proof.
  induction 1 as [|x l Hs IH Hall]; cbn [filter]; [constructor|].
  destruct (f x); [|exact IH].
  constructor; [exact IH|].
  apply Forall_forall. intros y Hy. apply filter_In in Hy.
  exact (proj1 (Forall_forall _ _) Hall y (proj1 Hy)).
Qed.

Lemma in_firstn {A} (y : A) n : forall l, In y (firstn n l) -> In y l.
Proof.
  induction n as [|n IH]; intros l H; [destruct H|].
  destruct l as [|x l]; [destruct H|].
  cbn [firstn] in H. destruct H as [H|H]; [now left | right; now apply IH].
Qed.

(** The sort is stable: the rows of one number keep their order. *)
Lemma insert_desc_stable k x l :
  filter (fun r => (num r =? k)%Z) (insert_desc x l)
  = filter (fun r => (num r =? k)%Z) (x :: l).
Proof.
  induction l as [|y l IH]; cbn [insert_desc]; [reflexivity|].
  destruct (num y <=? num x)%Z eqn:E; [reflexivity|].
  apply Z.leb_gt in E.
  cbn [filter] in *. rewrite IH.
  destruct (num y =? k)%Z eqn:Ey; destruct (num x =? k)%Z eqn:Ex;
    try reflexivity.
  apply Z.eqb_eq in Ey, Ex. lia.
Qed.

Lemma sort_desc_stable k l :
  filter (fun r => (num r =? k)%Z) (sort_desc l)
  = filter (fun r => (num r =? k)%Z) l.
Proof.
  induction l as [|x l IH]; [reflexivity|].
  cbn [sort_desc]. rewrite insert_desc_stable. cbn [filter].
  now rewrite IH.
Qed.

Lemma sorted_firstn {A} (R : A -> A -> Prop) n : forall l,
  StronglySorted R l -> StronglySorted R (firstn n l).
Proof.
  induction n as [|n IH]; intros l H; [constructor|].
  destruct H as [|x l Hs Hall]; cbn [firstn]; [constructor|].
  constructor; [now apply IH|].
  apply Forall_forall. intros y Hy.
  exact (proj1 (Forall_forall _ _) Hall y (in_firstn _ _ _ Hy)).
Qed.

(** The filter loop stops at the row that fills the list. *)
Lemma collect_firstn brand_q model_q success_only last_n : forall rows out,
  (Z.of_nat (List.length out) < Z.max 1 last_n)%Z ->
  collect brand_q model_q success_only last_n rows out
  = firstn (Z.to_nat (Z.max 1 last_n))
      (out ++ filter (passes brand_q model_q success_only) rows).
Proof.
  induction rows as [|r rows IH]; intros out Hout; cbn [collect filter].
  - rewrite app_nil_r, firstn_all2; [reflexivity | lia].
  - destruct (passes brand_q model_q success_only r); [|now apply IH].
    assert (List.length (out ++ [r]) = S (List.length out)) as Hlen
        by (rewrite length_app; cbn [List.length]; lia).
    replace (out ++ r :: filter (passes brand_q model_q success_only) rows)
      with ((out ++ [r])
            ++ filter (passes brand_q model_q success_only) rows)
      by (now rewrite <- app_assoc).
    destruct (last_n <=? Z.of_nat (List.length (out ++ [r])))%Z eqn:E.
    + apply Z.leb_le in E.
      replace (Z.to_nat (Z.max 1 last_n))
        with (List.length (out ++ [r]) + 0)%nat by lia.
      rewrite firstn_app_2. cbn [firstn]. now rewrite app_nil_r.
    + apply Z.leb_gt in E. apply IH. lia.
Qed.

(** X20: [firmae.history] shows the rows that pass the filters, the
    greatest numbers first, cut after [last_n] of them, or after 20
    when [last_n] is absent or 0; a negative [last_n] still shows one
    row.  Rows with the same number keep the order of the ledger. *)
Theorem history_shows_newest (brand model : string) (success_only : bool)
  (last_n : option Z) (rows : list record) :
  history brand model success_only last_n rows
  = firstn (Z.to_nat (Z.max 1 (last_n_of last_n)))
      (filter (passes (strip brand) (strip model) success_only)
         (sort_desc rows))
  /\ StronglySorted newer_first
       (history brand model success_only last_n rows)
  /\ Permutation (sort_desc rows) rows
  /\ StronglySorted newer_first (sort_desc rows)
  /\ (forall k,
        filter (fun r => (num r =? k)%Z) (sort_desc rows)
        = filter (fun r => (num r =? k)%Z) rows)
  /\ (List.length (history brand model success_only last_n rows)
      <= Z.to_nat (Z.max 1 (last_n_of last_n)))%nat.
Proof.
  assert (history brand model success_only last_n rows
          = firstn (Z.to_nat (Z.max 1 (last_n_of last_n)))
              (filter (passes (strip brand) (strip model) success_only)
                 (sort_desc rows))) as H.
  { unfold history. rewrite collect_firstn; [reflexivity|].
    cbn [List.length]. lia. }
  split; [exact H|]. split; [|split; [|split; [|split]]].
  - rewrite H. apply sorted_firstn, sorted_filter, sort_desc_sorted.
  - apply sort_desc_perm.
  - apply sort_desc_sorted.
  - intro k. apply sort_desc_stable.
  - rewrite H. apply firstn_le_length.
Qed.

End HelpersFacts.

(** ** Escape sequences in the output of a command *)

Module AnsiFacts.
Import PyStr Re FirmaeMcp Helpers.

Lemma no_esc_cons c s :
  no_esc (String c s) -> Ascii.eqb ESC c = false /\ no_esc s.
Proof. unfold no_esc. cbn [any_chr]. intro H. now apply orb_false_iff in H. Qed.

(** Where the text has no escape character nothing matches. *)
Lemma plain_go : forall s prev,
  no_esc s -> sub_empty_go ANSI_ESCAPE 0 prev s = s.
Proof.
  induction s as [|c s IH]; intros prev H; [reflexivity|].
  apply no_esc_cons in H. destruct H as [H1 H2].
  cbn [sub_empty_go]. unfold match_len, ANSI_ESCAPE.
  cbn [ends lit_ends chr_eq]. rewrite H1. cbn [flat_map].
  now rewrite IH.
Qed.

Lemma plain_prefix_go : forall a prev rest,
  no_esc a ->
  exists prev',
    sub_empty_go ANSI_ESCAPE 0 prev (a ++ rest)
    = (a ++ sub_empty_go ANSI_ESCAPE 0 prev' rest)%string.
Proof.
  induction a as [|c a IH]; intros prev rest H.
  - now exists prev.
  - apply no_esc_cons in H. destruct H as [H1 H2].
    destruct (IH (Some c) rest H2) as [prev' E]. exists prev'.
    cbn [append sub_empty_go]. unfold match_len, ANSI_ESCAPE.
    cbn [ends lit_ends chr_eq]. rewrite H1. cbn [flat_map].
    fold ANSI_ESCAPE. now rewrite E.
Qed.

Lemma skip_go : forall x k prev rest,
  String.length x = k -> no_esc rest ->
  sub_empty_go ANSI_ESCAPE k prev (x ++ rest) = rest.
Proof.
  induction x as [|c x IH]; intros k prev rest Hl Hr.
  - cbn [String.length] in Hl. subst k. now apply plain_go.
  - cbn [String.length] in Hl. subst k. cbn [append sub_empty_go].
    now apply IH.
Qed.

(** A greedy run over the parameter bytes stops at the final byte. *)
Lemma star_ends_run p params final b : forall prev,
  all_in p params -> p final = false ->
  exists prev' tl,
    star_ends p prev (params ++ String final b)
    = (prev', String final b) :: tl.
Proof.
  unfold all_in. induction params as [|c params IH]; intros prev Ha Hf.
  - exists prev, []. cbn [append star_ends]. now rewrite Hf.
  - cbn [any_chr] in Ha. apply orb_false_iff in Ha. destruct Ha as [H1 H2].
    apply negb_false_iff in H1.
    destruct (IH (Some c) H2 Hf) as (prev' & tl & E).
    exists prev', (tl ++ [(prev, String c (params ++ String final b))]).
    cbn [append star_ends]. now rewrite H1, E.
Qed.

Lemma final_byte c :
  in_range 64 126 c = true ->
  in_range 48 63 c = false /\ in_range 32 47 c = false.
Proof.
  destruct c as [[] [] [] [] [] [] [] []]; intro H;
    first [discriminate H | split; reflexivity].
Qed.

Lemma go_step r prev c s k :
  match_len false r (prev, String c s) = Some (S k) ->
  sub_empty_go r 0 prev (String c s) = sub_empty_go r k (Some c) s.
Proof. intro H. cbn [sub_empty_go]. now rewrite H. Qed.

(** The first match at a control sequence is the whole sequence. *)
Lemma csi_ends params final b prev :
  all_in (in_range 48 63) params -> in_range 64 126 final = true ->
  exists tl,
    ends false ANSI_ESCAPE
      (prev, String ESC (String "[" (params ++ String final b)))
    = (Some final, b) :: tl.
Proof.
  intros Hp Hf. destruct (final_byte final Hf) as [F1 F2].
  destruct (star_ends_run (in_range 48 63) params final b (Some "["%char)
              Hp F1) as (prev' & tl & E).
  unfold ANSI_ESCAPE. cbn [ends lit_ends chr_eq].
  change (ESC =? ESC)%char with true. cbv iota.
  cbn [flat_map].
  change (in_range 64 90 "[" || in_range 92 95 "[")%bool with false.
  cbv iota. change ("[" =? "[")%char with true. cbv iota.
  cbn [flat_map app]. rewrite E. cbn [flat_map star_ends].
  rewrite F2. cbn [flat_map app]. rewrite Hf. cbn [app].
  eexists. reflexivity.
Qed.

Lemma csi_go params final b prev :
  all_in (in_range 48 63) params -> in_range 64 126 final = true ->
  no_esc b ->
  sub_empty_go ANSI_ESCAPE 0 prev (csi params final ++ b) = b.
Proof.
  intros Hp Hf Hb.
  unfold csi.
  change (String ESC (String "[" (params ++ String final "")) ++ b)%string
    with (String ESC (String "[" ((params ++ String final "") ++ b))).
  rewrite StrFacts.app_assoc.
  change (String final "" ++ b)%string with (String final b).
  destruct (csi_ends params final b prev Hp Hf) as [tl E].
  rewrite (go_step ANSI_ESCAPE prev ESC _
             (String.length (String "[" (params ++ String final "")))).
  - replace (String "[" (params ++ String final b))
      with (String "[" (params ++ String final "") ++ b)%string
      by (cbn [append]; now rewrite StrFacts.app_assoc).
    now apply skip_go.
  - unfold match_len. rewrite E. cbn [snd]. f_equal.
    cbn [String.length]. rewrite !StrFacts.length_app.
    cbn [String.length]. lia.
Qed.

Section Output.

Context {real : Type}.
Variable decode_replace : list Byte.byte -> string.
Variable subprocess_run : string -> option Z -> launch * real.

(** X21: [run_cmd] takes the colour codes out of what a command
    prints and nothing else: a control sequence made of ESC, a
    bracket, parameter bytes and a final byte is dropped where it
    stands between texts without an escape character, and a stream
    without an escape character is returned as it was captured. *)
Theorem run_cmd_strips_colour (a params b : string) (final : ascii)
  (cmd : string) (args : list string) (timeout_sec : option Z)
  (returncode : Z) (duration : real) :
  no_esc a -> no_esc b ->
  all_in (in_range 48 63) params -> in_range 64 126 final = true ->
  subprocess_run (command_line cmd args) timeout_sec
  = (Completed returncode (CText (a ++ csi params final ++ b)) (CText a),
     duration) ->
  _strip_ansi (a ++ csi params final ++ b) = (a ++ b)%string
  /\ _strip_ansi a = a
  /\ out (run_cmd decode_replace subprocess_run cmd args timeout_sec)
     = (a ++ b)%string
  /\ err (run_cmd decode_replace subprocess_run cmd args timeout_sec) = a.
Proof.
  intros Ha Hb Hp Hf Hrun.
  assert (_strip_ansi (a ++ csi params final ++ b) = (a ++ b)%string) as H1.
  { unfold _strip_ansi, sub_empty.
    destruct (plain_prefix_go a None (csi params final ++ b) Ha) as [prev' E].
    rewrite E. now rewrite csi_go. }
  assert (_strip_ansi a = a) as H2 by (now apply plain_go).
  split; [exact H1|]. split; [exact H2|].
  unfold run_cmd. rewrite Hrun. cbn [out err _to_str].
  now rewrite H1, H2.
Qed.

End Output.

(** A line with a red word, as a build prints it. *)
Lemma run_cmd_strips_colour_witness :
  _strip_ansi ("make: " ++ csi "1;31" "m" ++ "error")
  = ("make: " ++ "error")%string
  /\ _strip_ansi "make: " = "make: "
  /\ out (run_cmd (real := unit) string_of_list_byte
            (fun _ _ =>
               (Completed 2
                  (CText ("make: " ++ csi "1;31" "m" ++ "error"))
                  (CText "make: "), tt))
            "make" [] None)
     = ("make: " ++ "error")%string
  /\ err (run_cmd (real := unit) string_of_list_byte
            (fun _ _ =>
               (Completed 2
                  (CText ("make: " ++ csi "1;31" "m" ++ "error"))
                  (CText "make: "), tt))
            "make" [] None)
     = "make: ".
Proof.
  apply (run_cmd_strips_colour (real := unit) string_of_list_byte
           (fun _ _ =>
              (Completed 2
                 (CText ("make: " ++ csi "1;31" "m" ++ "error"))
                 (CText "make: "), tt))
           "make: " "1;31" "error" "m"%char "make" [] None 2 tt);
    reflexivity.
Defined.

End AnsiFacts.

(** ** The choice of the root file system *)

Module TarHelperFacts.
Import PyStr Logger Analysis TarHelper.

(** Induction on a tree, with the property known of every entry of a
    directory. *)
Lemma node_induction (P : node -> Prop)
  (Hfile : forall name size, P (File name size))
  (Hdir : forall name children, Forall P children -> P (Dir name children)) :
  forall n, P n.
Proof.
  fix rec 1. intros [name size|name children]; [apply Hfile|].
  apply Hdir. induction children as [|x l IHl]; constructor;
    [apply rec | exact IHl].
Qed.

Lemma key_le_false a b : key_le a b = false -> preferred b a.
Proof.
  destruct a as [[[sa da] za] pa], b as [[[sb db] zb] pb].
  unfold key_le, preferred. intro H.
  apply orb_false_iff in H. destruct H as [H1 H2].
  apply Z.ltb_ge in H1.
  destruct (sa =? sb)%Z eqn:E; [|apply Z.eqb_neq in E; lia].
  apply Z.eqb_eq in E. cbn [andb] in H2.
  apply orb_false_iff in H2. destruct H2 as [H2 H3].
  apply Z.ltb_ge in H2.
  destruct (da =? db)%Z eqn:E2; [|apply Z.eqb_neq in E2; lia].
  apply Z.eqb_eq in E2. cbn [andb] in H3. apply Z.leb_gt in H3. lia.
Qed.

Lemma key_le_true a b : key_le a b = true -> ~ preferred b a.
Proof.
  destruct a as [[[sa da] za] pa], b as [[[sb db] zb] pb].
  unfold key_le, preferred. intro H.
  apply orb_true_iff in H. destruct H as [H|H].
  - apply Z.ltb_lt in H. lia.
  - apply andb_true_iff in H. destruct H as [H1 H2].
    apply Z.eqb_eq in H1. apply orb_true_iff in H2. destruct H2 as [H2|H2].
    + apply Z.ltb_lt in H2. lia.
    + apply andb_true_iff in H2. destruct H2 as [H2 H3].
      apply Z.eqb_eq in H2. apply Z.leb_le in H3. lia.
Qed.

Lemma preferred_trans a b c : preferred a b -> preferred b c -> preferred a c.
Proof.
  destruct a as [[[sa da] za] pa], b as [[[sb db] zb] pb],
    c as [[[sc dc] zc] pc].
  unfold preferred. lia.
Qed.

Lemma not_preferred_trans a b c :
  ~ preferred b a -> ~ preferred c b -> ~ preferred c a.
Proof.
  destruct a as [[[sa da] za] pa], b as [[[sb db] zb] pb],
    c as [[[sc dc] zc] pc].
  unfold preferred. lia.
Qed.

Lemma sort_key_nil l : sort_key l = [] -> l = [].
Proof.
  destruct l as [|x l]; [reflexivity|].
  cbn [sort_key]. destruct (sort_key l) as [|y r]; cbn [insert_key];
    [discriminate|].
  destruct (key_le x y); discriminate.
Qed.

(** The head of the sorted list is the first of the candidates that
    no other is preferred to. *)
Lemma sort_key_head : forall l c rest,
  sort_key l = c :: rest ->
  exists l1 l2,
    l = l1 ++ c :: l2
    /\ Forall (preferred c) l1
    /\ Forall (fun x => ~ preferred x c) l2.
Proof.
  induction l as [|x l IH]; intros c rest H; [discriminate|].
  cbn [sort_key] in H.
  destruct (sort_key l) as [|y r] eqn:E.
  - apply sort_key_nil in E. subst l. cbn [insert_key] in H.
    inversion H; subst. exists [], []. repeat split; constructor.
  - destruct (IH y r eq_refl) as (l1 & l2 & El & H1 & H2).
    cbn [insert_key] in H. destruct (key_le x y) eqn:K.
    + inversion H; subst c rest. exists [], l.
      split; [reflexivity|]. split; [constructor|].
      apply key_le_true in K. rewrite El. apply Forall_app. split.
      * eapply Forall_impl; [|exact H1]. intros z Hz Hzx. cbv beta in Hz.
        exact (K (preferred_trans y z x Hz Hzx)).
      * constructor; [exact K|].
        eapply Forall_impl; [|exact H2]. intros z Hz. cbv beta in Hz.
        exact (not_preferred_trans x y z K Hz).
    + inversion H; subst c rest. apply key_le_false in K.
      exists (x :: l1), l2. rewrite El. split; [reflexivity|].
      split; [constructor; assumption | exact H2].
Qed.

Lemma startswith_app r s : startswith r (r ++ s) = true.
Proof.
  induction r as [|c r IH]; [reflexivity|].
  cbn [append startswith]. now rewrite Ascii.eqb_refl, IH.
Qed.

Lemma startswith_trans a b c :
  startswith a b = true -> startswith b c = true -> startswith a c = true.
Proof.
  revert b c. induction a as [|x a IH]; intros b c H1 H2; [reflexivity|].
  destruct b as [|y b]; [discriminate|].
  destruct c as [|z c]; [discriminate|].
  cbn [startswith] in *.
  apply andb_true_iff in H1. destruct H1 as [E1 H1].
  apply andb_true_iff in H2. destruct H2 as [E2 H2].
  apply Ascii.eqb_eq in E1, E2. subst.
  now rewrite Ascii.eqb_refl, (IH b c H1 H2).
Qed.

Lemma path_join_under r name : startswith r (path_join r name) = true.
Proof.
  unfold path_join.
  destruct (negb (truthy r) || endswith "/" r)%bool; apply startswith_app.
Qed.

Lemma score_range children : (0 <= score_of children <= 3)%Z.
Proof.
  unfold score_of.
  destruct (has_dir children "etc"), (has_dir children "bin"); lia.
Qed.

(** What is known of every candidate of the walk. *)
Lemma walk_candidates n : forall r s d z p,
  In (s, d, z, p) (walk r n) ->
  (0 <= s <= 3)%Z /\ d = count_sep p /\ startswith r p = true
  /\ p <> r.
Proof.
  induction n as [name size|name children IH] using node_induction;
    intros r s d z p Hin; [destruct Hin|].
  cbn [walk] in Hin. apply in_app_or in Hin. destruct Hin as [Hin|Hin].
  - apply in_flat_map in Hin. destruct Hin as (c & _ & Hc).
    destruct c as [|dn sub]; [destruct Hc|].
    cbn [found] in Hc.
    destruct (mem (py_lower dn) ROOTFS_NAMES) eqn:Hm; [|destruct Hc].
    destruct Hc as [Hc|[]]. inversion Hc; subst.
    split; [apply score_range|]. split; [reflexivity|].
    split; [apply path_join_under|].
    intro E. unfold path_join in E.
    assert (dn <> EmptyString) as Hdn
        by (intro E0; subst dn; discriminate Hm).
    assert (forall t, t <> EmptyString -> (r ++ t)%string <> r) as Hne.
    { intros t Ht E1. apply Ht.
      apply (f_equal String.length) in E1.
      rewrite StrFacts.length_app in E1.
      destruct t; [reflexivity | cbn [String.length] in E1; lia]. }
    destruct (negb (truthy r) || endswith "/" r)%bool.
    + exact (Hne dn Hdn E).
    + exact (Hne ("/" ++ dn)%string ltac:(discriminate) E).
  - apply in_flat_map in Hin. destruct Hin as (c & Hc & Hin).
    pose proof (proj1 (Forall_forall _ _) IH c Hc _ _ _ _ _ Hin)
      as (Hs & Hd & Hp & Hne).
    split; [exact Hs|]. split; [exact Hd|].
    assert (startswith r p = true) as Hrp
        by (eapply startswith_trans; [apply path_join_under | exact Hp]).
    split; [exact Hrp|].
    intro E. subst p.
    (* a path below [r / name] is longer than [r] *)
    assert (forall a b, startswith a b = true ->
              String.length a <= String.length b) as Hlen.
    { induction a as [|x a IHa]; intros [|y b] H; cbn [String.length];
        try lia; [discriminate|].
      cbn [startswith] in H. apply andb_true_iff in H.
      specialize (IHa b (proj2 H)). lia. }
    apply Hlen in Hp.
    assert (String.length r < String.length (path_join r (node_name c)))
      as Hlt.
    { unfold path_join.
      destruct (negb (truthy r) || endswith "/" r)%bool eqn:Ej.
      - rewrite StrFacts.length_app.
        destruct (node_name c) eqn:En.
        + exfalso. apply Hne. unfold path_join. rewrite Ej.
          symmetry. apply StrFacts.app_nil_r.
        + cbn [String.length]. lia.
      - rewrite !StrFacts.length_app. cbn [String.length]. lia. }
    lia.
Qed.

(** X22: [_find_rootfs_dir] finds nothing exactly when the walk meets
    no directory of one of the three names; otherwise it returns the
    path of a candidate that no other candidate is preferred to (more
    like a file system, then deeper, then larger) and, among equals,
    the one the walk met first.  The path lies below the root and is
    not the root itself, its score is between 0 and 3 and its depth
    is the number of separators of the path. *)
Theorem find_rootfs_dir_picks_best (extract_root : string) (tree : node) :
  (_find_rootfs_dir extract_root tree = None <-> walk extract_root tree = [])
  /\ forall p,
       _find_rootfs_dir extract_root tree = Some p ->
       exists s d z l1 l2,
         walk extract_root tree = l1 ++ (s, d, z, p) :: l2
         /\ Forall (preferred (s, d, z, p)) l1
         /\ Forall (fun x => ~ preferred x (s, d, z, p)) l2
         /\ (0 <= s <= 3)%Z /\ d = count_sep p
         /\ startswith extract_root p = true /\ p <> extract_root.
Proof.
  unfold _find_rootfs_dir. split.
  - destruct (sort_key (walk extract_root tree)) as [|c rest] eqn:E.
    + split; [intros _; now apply sort_key_nil | reflexivity].
    + split; [discriminate|]. intro H. rewrite H in E. discriminate.
  - intros p H.
    destruct (sort_key (walk extract_root tree)) as [|c rest] eqn:E;
      [discriminate|].
    destruct c as [[[s d] z] p']. cbn [snd] in H. inversion H; subst p'.
    destruct (sort_key_head _ _ _ E) as (l1 & l2 & El & H1 & H2).
    exists s, d, z, l1, l2.
    split; [exact El|]. split; [exact H1|]. split; [exact H2|].
    apply (walk_candidates tree extract_root s d z p).
    rewrite El. apply in_or_app. right. now left.
Qed.

End TarHelperFacts.

(** ** A ledger that exists and is empty *)

Module LedgerEdge.
Import PyStr Logger LoggerFacts.

Lemma nonblank_rows_one ln :
  line_free ln -> solid ln -> nonblank_rows (ln ++ CRLF) = [ln].
Proof.
  intros N S. unfold nonblank_rows, readlines.
  replace (ln ++ CRLF)%string with (ln ++ CRLF ++ "")%string
    by (now rewrite (StrFacts.app_nil_r CRLF)).
  rewrite (readlines_plain ln EmptyString EmptyString N).
  cbn [readlines_acc truthy map filter append].
  destruct (strip_solid_line ln S) as [E T]. now rewrite E, T.
Qed.

Lemma nonblank_rows_two ln1 ln2 :
  line_free ln1 -> solid ln1 -> line_free ln2 -> solid ln2 ->
  nonblank_rows ((ln1 ++ CRLF) ++ ln2 ++ CRLF) = [ln1; ln2].
Proof.
  intros N1 S1 N2 S2.
  rewrite (nonblank_rows_append ln1 ln2 N2 S2).
  now rewrite (nonblank_rows_one ln1 N1 S1).
Qed.

Section EmptyLedger.

Variable float_nonzero : string -> option bool.


End EmptyLedger.


(** Without the condition on the text fields the count differs: a
    firmware name with a line feed makes two lines of the first
    record, and the second record gets the number 2. *)
Lemma line_feed_in_name_counts_twice :
  let a1 := append_emulation_record no_float None (Text "")
              ("/firmware/a" ++ nl ++ "b.bin") "dlink" 0 in
  let a2 := append_emulation_record no_float None (snd a1)
              "/firmware/b.bin" "netgear" 1 in
  number (fst a1) = 1%Z /\ number (fst a2) = 2%Z.
Proof. vm_compute. split; reflexivity. Qed.

End LedgerEdge.

(** ** Reading the flags back *)

Module FlagFacts.
Import PyStr Logger Helpers.

Lemma rstrip_cons sp c t :
  rstrip_of sp (String c t)
  = match rstrip_of sp t with
    | EmptyString => if sp c then EmptyString else String c EmptyString
    | r => String c r
    end.
Proof. reflexivity. Qed.

Lemma rstrip_twice sp s : rstrip_of sp (rstrip_of sp s) = rstrip_of sp s.
Proof.
  induction s as [|c s IH]; [reflexivity|].
  rewrite rstrip_cons. destruct (rstrip_of sp s) as [|d r] eqn:E.
  - destruct (sp c) eqn:Ec; [reflexivity|].
    rewrite rstrip_cons. cbn [rstrip_of]. now rewrite Ec.
  - rewrite rstrip_cons. now rewrite IH.
Qed.

Lemma lstrip_head sp s :
  lstrip_of sp s = EmptyString
  \/ exists c t, lstrip_of sp s = String c t /\ sp c = false.
Proof.
  induction s as [|c s IH]; [now left|].
  cbn [lstrip_of]. destruct (sp c) eqn:E; [exact IH|].
  right. now exists c, s.
Qed.

Lemma rstrip_head sp c t :
  sp c = false -> exists u, rstrip_of sp (String c t) = String c u.
Proof.
  intro H. cbn [rstrip_of]. destruct (rstrip_of sp t) as [|d r].
  - rewrite H. now exists EmptyString.
  - now exists (String d r).
Qed.

(** Stripping twice is stripping once. *)
Lemma strip_of_twice sp s : strip_of sp (strip_of sp s) = strip_of sp s.
Proof.
  unfold strip_of.
  destruct (lstrip_head sp s) as [E|(c & t & E & Hc)]; rewrite E.
  - reflexivity.
  - destruct (rstrip_head sp c t Hc) as [u Eu]. rewrite Eu.
    cbn [lstrip_of]. rewrite Hc. rewrite <- Eu. apply rstrip_twice.
Qed.

Lemma lower_keeps_space c : is_space (py_lower_chr c) = is_space c.
Proof. destruct c as [[] [] [] [] [] [] [] []]; reflexivity. Qed.

Lemma lstrip_lower s :
  lstrip_of is_space (py_lower s) = py_lower (lstrip_of is_space s).
Proof.
  induction s as [|c s IH]; [reflexivity|].
  cbn [py_lower lstrip_of]. rewrite lower_keeps_space.
  destruct (is_space c); [exact IH | reflexivity].
Qed.

Lemma rstrip_lower s :
  rstrip_of is_space (py_lower s) = py_lower (rstrip_of is_space s).
Proof.
  induction s as [|c s IH]; [reflexivity|].
  cbn [py_lower rstrip_of]. rewrite IH, lower_keeps_space.
  destruct (rstrip_of is_space s) as [|d r]; cbn [py_lower].
  - destruct (is_space c); reflexivity.
  - reflexivity.
Qed.

Lemma strip_lower s : strip (py_lower s) = py_lower (strip s).
Proof. unfold strip, strip_of. now rewrite lstrip_lower, rstrip_lower. Qed.

Lemma mem_cases s l : mem s l = true -> In s l.
Proof.
  unfold mem. intro H. apply existsb_exists in H.
  destruct H as (x & Hx & E). apply String.eqb_eq in E. now subst.
Qed.

Section Flags.

Variable float_nonzero : string -> option bool.

(** X24: what the logger writes it reads back, and the history reads
    it the same way: [_parse_bool] returns the flag that
    [_to_bool_str] wrote; it does not look at white space around the
    word nor at its case; every word that the success filter of
    [firmae.history] accepts is a word that [_parse_bool] reads as
    true, and the filter keeps a row written with [true] and drops
    one written with [false]; a signal file that is missing or cannot
    be read gives no flag. *)
Theorem flags_read_back (s : string) (b : bool) (f : text_file)
  (r : record) :
  _parse_bool float_nonzero (_to_bool_str b) = Some b
  /\ _parse_bool float_nonzero (strip s) = _parse_bool float_nonzero s
  /\ _parse_bool float_nonzero (py_lower s) = _parse_bool float_nonzero s
  /\ (mem (py_lower (strip s)) SUCCESS = true ->
      _parse_bool float_nonzero s = Some true)
  /\ (r_result r = Some (_to_bool_str b) ->
      passes EmptyString EmptyString true r = b)
  /\ _parse_bool float_nonzero (_safe_read f)
     = match f with
       | Text t => _parse_bool float_nonzero t
       | _ => None
       end.
Proof.
  split; [now destruct b|]. split; [|split; [|split; [|split]]].
  - unfold _parse_bool. unfold strip. now rewrite strip_of_twice.
  - unfold _parse_bool. now rewrite strip_lower, HelpersFacts.py_lower_twice.
  - intro H. apply mem_cases in H. unfold _parse_bool.
    cbn [SUCCESS In] in H.
    repeat (destruct H as [H|H]; [rewrite <- H; reflexivity|]).
    destruct H.
  - intro H. unfold passes. cbn [truthy andb]. rewrite H.
    now destruct b.
  - destruct f as [| |t]; try reflexivity.
    cbn [_safe_read]. unfold _parse_bool, strip. now rewrite strip_of_twice.
Qed.

End Flags.

End FlagFacts.

(** ** A search for a brand that is not TP-Link *)

Module SearchFacts.
Import PyStr Logger FirmaeMcp Search.

Section OtherBrand.

Context {world : Type}.
Variable tplink_search : string -> json -> world -> res json * world.
Variable unbound_local : string -> string.
Variable other : string -> json -> world -> res json * world.
Variable list_tools : json.
Variable py_format : json -> string.
Variable stdout_encodes : ascii -> bool.
Variable encode_error : json -> string.


End OtherBrand.


End SearchFacts.

(** ** Rows of the devices table *)

Module ApplyConfigFacts.
Import PyStr Re Logger FirmaeMcp Helpers Csv ApplyConfig.

Lemma line_free_no_lf s : line_free s -> any_chr (Ascii.eqb LF) s = false.
Proof.
  unfold line_free. induction s as [|c s IH]; intro H; [reflexivity|].
  cbn [any_chr] in *. apply orb_false_iff in H. destruct H as [H1 H2].
  apply LoggerFacts.is_eol_false in H1. destruct H1 as [_ H1].
  rewrite Ascii.eqb_sym, H1. now apply IH.
Qed.

Lemma chomp_line l : line_free l -> chomp (l ++ nl) = l /\ chomp l = l.
Proof.
  intro H. apply line_free_no_lf in H. unfold chomp, nl. split.
  - rewrite LoggerFacts.rstrip_app_space by apply Ascii.eqb_refl.
    now apply LoggerFacts.rstrip_none.
  - now apply LoggerFacts.rstrip_none.
Qed.

(** A line without a line break, written with its line feed, is read
    as one line. *)
Lemma readlines_lf ln : forall acc rest,
  line_free ln ->
  readlines_acc acc (ln ++ nl ++ rest)
  = (acc ++ ln ++ nl)%string :: readlines_acc EmptyString rest.
Proof.
  unfold line_free.
  induction ln as [|c ln IH]; intros acc rest N.
  - reflexivity.
  - cbn [any_chr] in N. apply orb_false_iff in N. destruct N as [N1 N2].
    change (String c ln ++ nl ++ rest)%string
      with (String c (ln ++ nl ++ rest)).
    rewrite (LoggerFacts.readlines_chr acc c _ N1), (IH _ _ N2).
    now rewrite StrFacts.app_assoc.
Qed.

Lemma readlines_write lines :
  Forall line_free lines ->
  readlines (write_lines lines) = map (fun l => (l ++ nl)%string) lines.
Proof.
  unfold readlines. induction 1 as [|l lines Hl _ IH]; [reflexivity|].
  cbn [write_lines map]. now rewrite (readlines_lf l _ _ Hl), IH.
Qed.

Lemma chomp_written lines :
  Forall line_free lines ->
  map chomp (readlines (write_lines lines)) = lines.
Proof.
  intro H. rewrite (readlines_write lines H), map_map.
  induction H as [|l lines Hl _ IH]; [reflexivity|].
  cbn [map]. now rewrite (proj1 (chomp_line l Hl)), IH.
Qed.

(** The lines read from a file hold no line break once the line feed
    at their end is cut. *)
Lemma readlines_acc_chomped s : forall acc,
  line_free acc ->
  Forall (fun l => line_free (chomp l)) (readlines_acc acc s).
Proof.
  induction s as [|c s IH]; intros acc Hacc; cbn [readlines_acc].
  - destruct (truthy acc); constructor; [|constructor].
    now rewrite (proj2 (chomp_line acc Hacc)).
  - assert (Forall (fun l => line_free (chomp l))
              (readlines_acc EmptyString s)) as H0
        by (apply IH; reflexivity).
    destruct (Ascii.eqb c LF) eqn:E1.
    + constructor; [now rewrite (proj1 (chomp_line acc Hacc)) | exact H0].
    + destruct (Ascii.eqb c CR) eqn:E2.
      * constructor; [now rewrite (proj1 (chomp_line acc Hacc))|].
        destruct s as [|c2 s2]; [exact H0|].
        destruct (Ascii.eqb_spec c2 LF) as [->|_]; [|exact H0].
        cbn [readlines_acc] in H0.
        change (Ascii.eqb LF LF) with true in H0. cbv iota in H0.
        now inversion H0.
      * apply IH. apply LoggerFacts.line_free_app; [exact Hacc|].
        unfold line_free, is_eol. cbn [any_chr]. now rewrite E1, E2.
Qed.

Lemma existing_lines_plain text :
  Forall line_free (map chomp (readlines text)).
Proof.
  apply Forall_map. apply readlines_acc_chomped. reflexivity.
Qed.

Lemma body_plain file : Forall line_free (body_of file).
Proof.
  unfold body_of. destruct file as [|e|text]; try constructor.
  pose proof (existing_lines_plain text) as H.
  destruct (map chomp (readlines text)) as [|first rest]; [constructor|].
  destruct (String.eqb (squeeze first) (squeeze header_line)); [|exact H].
  now inversion H.
Qed.

(** The search loop, seen from outside: the first line that names
    the ID is replaced and every other line stays. *)
Lemma replace_first_some row_id row_str : forall body body',
  replace_first row_id row_str body = Some body' ->
  exists pre old post,
    body = pre ++ old :: post /\ body' = pre ++ row_str :: post
    /\ names_id row_id old = true
    /\ Forall (fun ln => names_id row_id ln = false) pre.
Proof.
  induction body as [|ln rest IH]; intros body' H; [discriminate|].
  cbn [replace_first] in H. destruct (names_id row_id ln) eqn:E.
  - inversion H; subst. exists [], ln, rest. repeat split; [exact E|].
    constructor.
  - destruct (replace_first row_id row_str rest) as [b|] eqn:Er;
      [|discriminate].
    cbn [option_map] in H. inversion H; subst.
    destruct (IH b eq_refl) as (pre & old & post & -> & -> & Hold & Hpre).
    exists (ln :: pre), old, post. repeat split; [exact Hold|].
    now constructor.
Qed.

Lemma replace_first_none row_id row_str : forall body,
  replace_first row_id row_str body = None ->
  Forall (fun ln => names_id row_id ln = false) body.
Proof.
  induction body as [|ln rest IH]; intro H; [constructor|].
  cbn [replace_first] in H. destruct (names_id row_id ln) eqn:E;
    [discriminate|].
  destruct (replace_first row_id row_str rest); [discriminate|].
  constructor; [exact E | now apply IH].
Qed.

Lemma replace_first_at row_id row_str pre post :
  names_id row_id row_str = true ->
  Forall (fun ln => names_id row_id ln = false) pre ->
  replace_first row_id row_str (pre ++ row_str :: post)
  = Some (pre ++ row_str :: post).
Proof.
  intros Hrow. induction 1 as [|ln pre Hln _ IH]; cbn [app replace_first].
  - now rewrite Hrow.
  - now rewrite Hln, IH.
Qed.

Lemma space_is_plain c :
  is_space c = true ->
  Ascii.eqb c "," = false /\ Ascii.eqb c DQUOTE = false.
Proof.
  destruct c as [[] [] [] [] [] [] [] []]; intro H;
    first [discriminate H | split; reflexivity].
Qed.

Lemma rstrip_empty sp s :
  rstrip_of sp s = EmptyString -> any_chr (fun c => negb (sp c)) s = false.
Proof.
  induction s as [|c s IH]; intro H; [reflexivity|].
  rewrite FlagFacts.rstrip_cons in H.
  destruct (rstrip_of sp s) as [|d r]; [|discriminate].
  destruct (sp c) eqn:E; [|discriminate].
  cbn [any_chr]. now rewrite E, IH.
Qed.

Lemma strip_empty sp s :
  strip_of sp s = EmptyString -> any_chr (fun c => negb (sp c)) s = false.
Proof.
  unfold strip_of. induction s as [|c s IH]; intro H; [reflexivity|].
  cbn [lstrip_of] in H. cbn [any_chr]. destruct (sp c) eqn:E.
  - now rewrite (IH H).
  - apply rstrip_empty in H. cbn [any_chr] in H. now rewrite E in H.
Qed.

(** A field that holds no comma, quote or line break is read as it
    is. *)
Lemma feed_in_field s : forall fs f,
  any_chr (fun c => (Ascii.eqb c "," || Ascii.eqb c DQUOTE || is_crnl c)%bool)
    s = false ->
  feed {| state := IN_FIELD; fields := fs; field := f |} s
  = Ok {| state := START_RECORD; fields := fs ++ [(f ++ s)%string];
          field := EmptyString |}.
Proof.
  induction s as [|c s IH]; intros fs f H.
  - cbn. now rewrite StrFacts.app_nil_r.
  - cbn [any_chr] in H. apply orb_false_iff in H. destruct H as [H1 H2].
    apply orb_false_iff in H1. destruct H1 as [H1 H3].
    apply orb_false_iff in H1. destruct H1 as [H1 H4].
    cbn [feed parse_process_char state]. rewrite H3, H1. cbn [bind].
    unfold parse_add_char. cbn [state fields field].
    rewrite (IH _ _ H2). now rewrite StrFacts.app_assoc.
Qed.

Lemma csv_row_blank s :
  strip s = EmptyString -> line_free s ->
  csv_row s = Ok (if truthy s then [s] else []).
Proof.
  intros Hs Hl. apply strip_empty in Hs.
  assert (any_chr (fun c => (Ascii.eqb c "," || Ascii.eqb c DQUOTE
                             || is_crnl c)%bool) s = false) as Hp.
  { unfold line_free in Hl. clear - Hs Hl.
    induction s as [|c s IH]; [reflexivity|].
    cbn [any_chr] in *.
    apply orb_false_iff in Hs. destruct Hs as [Hs1 Hs2].
    apply orb_false_iff in Hl. destruct Hl as [Hl1 Hl2].
    apply negb_false_iff in Hs1.
    destruct (space_is_plain c Hs1) as [E1 E2].
    apply LoggerFacts.is_eol_false in Hl1. destruct Hl1 as [E3 E4].
    unfold is_crnl. rewrite E1, E2, E3, E4. now apply IH. }
  destruct s as [|c s]; [reflexivity|].
  cbn [any_chr] in Hp. apply orb_false_iff in Hp. destruct Hp as [H1 H2].
  apply orb_false_iff in H1. destruct H1 as [H1 H3].
  apply orb_false_iff in H1. destruct H1 as [H1 H4].
  unfold csv_row. cbn [read_record feed parse_process_char parse_reset state].
  rewrite H3. cbn [start_field]. rewrite H3, H4, H1. cbn [bind].
  unfold parse_add_char, set_state.
  cbn [state fields field append parse_reset].
  rewrite (feed_in_field s [] (String c "") H2).
  reflexivity.
Qed.

Lemma accepted_names_id row_str row_id :
  accepted row_str row_id -> line_free row_str ->
  startswith "#" (strip row_str) = false ->
  names_id row_id row_str = true.
Proof.
  intros (c0 & rest & Hrow & Hlen & -> & Hid) Hl Hc.
  unfold names_id. rewrite Hc.
  destruct (strip row_str) as [|x t] eqn:Es.
  - rewrite (csv_row_blank row_str Es Hl) in Hrow.
    destruct (truthy row_str); inversion Hrow; subst; discriminate Hlen.
  - cbn [truthy negb orb]. rewrite Hrow. apply String.eqb_refl.
Qed.

(** The steps of [apply_row] that accept the row. *)
Lemma apply_row_applied path file write_error row_str allow_update
  content replaced :
  apply_row path file write_error row_str allow_update
  = Applied content replaced ->
  exists row_id body',
    accepted row_str row_id
    /\ write_error = None
    /\ content = write_lines (header_line :: body')
    /\ (if allow_update then
          match replace_first row_id row_str (body_of file) with
          | Some b => body' = b /\ replaced = true
          | None => body' = body_of file ++ [row_str] /\ replaced = false
          end
        else body' = body_of file ++ [row_str] /\ replaced = false).
Proof.
  unfold apply_row. intro H.
  destruct (csv_row row_str) as [cols|e] eqn:Hrow; [|discriminate].
  destruct (List.length (map strip cols) =? List.length HEADER)%nat eqn:Hlen;
    [|discriminate].
  cbn [negb] in H.
  destruct (truthy (hd EmptyString (map strip cols))) eqn:Hid;
    [|discriminate].
  cbn [negb] in H.
  apply Nat.eqb_eq in Hlen. rewrite length_map in Hlen.
  destruct cols as [|c0 rest]; [discriminate Hlen|].
  cbn [map hd] in Hid, H.
  assert (accepted row_str (strip c0)) as Hacc
      by (exists c0, rest; repeat split; assumption).
  assert (forall lines,
            (match lines with
             | [] => false
             | first :: _ => String.eqb (squeeze first) (squeeze header_line)
             end = true -> tl lines
             = match lines with
               | [] => []
               | first :: rest0 =>
                   if String.eqb (squeeze first) (squeeze header_line)
                   then rest0 else lines
               end)
            /\ (match lines with
                | [] => false
                | first :: _ =>
                    String.eqb (squeeze first) (squeeze header_line)
                end = false -> lines
                = match lines with
                  | [] => []
                  | first :: rest0 =>
                      if String.eqb (squeeze first) (squeeze header_line)
                      then rest0 else lines
                  end)) as Hbody.
  { intros [|first rest0]; cbn [tl]; split; intro E;
      try reflexivity; try discriminate; now rewrite E. }
  destruct file as [|e|text]; [|discriminate|].
  - cbv beta iota zeta in H.
    change (body_of Absent) with (@nil string). cbn [replace_first].
    exists (strip c0), ([] ++ [row_str]).
    destruct write_error as [e|];
      [destruct allow_update; cbn [replace_first] in H; discriminate|].
    destruct allow_update; cbn [replace_first] in H;
      cbv beta iota zeta in H; inversion H; subst;
      (split; [exact Hacc|]); (split; [reflexivity|]);
      (split; [reflexivity|]); split; reflexivity.
  - set (lines := map chomp (readlines text)) in *.
    assert ((if match lines with
                | [] => false
                | first :: _ =>
                    String.eqb (squeeze first) (squeeze header_line)
                end then tl lines else lines) = body_of (Content text))
      as Eb.
    { unfold body_of. fold lines. destruct (Hbody lines) as [H1 H2].
      destruct (match lines with
                | [] => false
                | first :: _ =>
                    String.eqb (squeeze first) (squeeze header_line)
                end); [now apply H1 | now apply H2]. }
    rewrite Eb in H.
    exists (strip c0).
    destruct allow_update.
    + destruct (replace_first (strip c0) row_str (body_of (Content text)))
        as [b|] eqn:Er; destruct write_error as [e|]; try discriminate;
        inversion H; subst; eexists; repeat split; exact Hacc.
    + destruct write_error as [e|]; try discriminate.
      inversion H; subst. eexists; repeat split; exact Hacc.
Qed.

Lemma header_line_plain : line_free header_line.
Proof. reflexivity. Qed.

Lemma body_of_written body :
  Forall line_free body ->
  body_of (Content (write_lines (header_line :: body))) = body.
Proof.
  intro H. unfold body_of.
  rewrite chomp_written by (constructor; [exact header_line_plain | exact H]).
  now rewrite String.eqb_refl.
Qed.

(** X26: [emux.applyconfig] is idempotent where it updates.  When a
    row that holds no line break and is no comment has been applied
    with [allow_update], applying the same row to the file that was
    written leaves the file as it is and reports an update: the row
    is found again at the place where it was put. *)
Theorem applyconfig_idempotent (path : string) (file : devices_file)
  (row_str content : string) (replaced : bool) :
  apply_row path file None row_str true = Applied content replaced ->
  line_free row_str ->
  startswith "#" (strip row_str) = false ->
  apply_row path (Content content) None row_str true = Applied content true.
Proof.
  intros H Hl Hc.
  destruct (apply_row_applied _ _ _ _ _ _ _ H)
    as (row_id & body' & Hacc & _ & -> & Hup).
  pose proof (accepted_names_id _ _ Hacc Hl Hc) as Hn.
  pose proof (body_plain file) as Hplain.
  assert (Forall line_free body'
          /\ replace_first row_id row_str body' = Some body') as [Hb' Hagain].
  { destruct (replace_first row_id row_str (body_of file)) as [b|] eqn:Er.
    - destruct Hup as [-> _].
      destruct (replace_first_some _ _ _ _ Er)
        as (pre & old & post & Eb & -> & _ & Hpre).
      rewrite Eb in Hplain. apply Forall_app in Hplain.
      destruct Hplain as [P1 P2]. inversion P2; subst.
      split; [|now apply replace_first_at].
      apply Forall_app. split; [exact P1 | now constructor].
    - destruct Hup as [-> _].
      split;
        [apply Forall_app; split; [exact Hplain | now repeat constructor]|].
      apply replace_first_at;
        [exact Hn | exact (replace_first_none row_id row_str _ Er)]. }
  destruct Hacc as (c0 & rest & Hrow & Hlen & Hid & Ht).
  unfold apply_row. rewrite Hrow.
  rewrite length_map, Hlen, Nat.eqb_refl. cbn [negb map hd].
  rewrite <- Hid, Ht. cbn [negb].
  pose proof (body_of_written body' Hb') as Eb. unfold body_of in Eb.
  set (lines := map chomp (readlines (write_lines (header_line :: body'))))
    in *.
  assert (lines = header_line :: body') as El
      by (unfold lines; apply chomp_written; constructor;
          [exact header_line_plain | exact Hb']).
  rewrite El. rewrite String.eqb_refl. cbn [tl].
  now rewrite Hagain.
Qed.

(** A row applied twice to a table that does not exist yet. *)
Lemma applyconfig_idempotent_witness :
  apply_row "/emux/files/emux/firmware/devices"
    (Content (write_lines [header_line; dir868])) None dir868 true
  = Applied (write_lines [header_line; dir868]) true.
Proof.
  apply (applyconfig_idempotent "/emux/files/emux/firmware/devices" Absent
           dir868 (write_lines [header_line; dir868]) false);
    reflexivity.
Defined.

(** X27: [emux.applyconfig] loses no line.  The file that is written
    starts with the header line; after it come the lines of the old
    body (the old file without its header line, if it had one), with
    the first line that names the ID replaced by the row where
    updating is allowed and such a line exists, and otherwise with
    the row added at the end; blank lines, comments and every other
    row stay in their order.  Without [allow_update] the row is
    always added, also when the ID is there already. *)
Theorem applyconfig_keeps_lines (path : string) (file : devices_file)
  (row_str content : string) (allow_update replaced : bool) :
  apply_row path file None row_str allow_update = Applied content replaced ->
  exists row_id body',
    accepted row_str row_id
    /\ content = write_lines (header_line :: body')
    /\ (replaced = true ->
        allow_update = true
        /\ exists pre old post,
             body_of file = pre ++ old :: post
             /\ body' = pre ++ row_str :: post
             /\ names_id row_id old = true
             /\ Forall (fun ln => names_id row_id ln = false) pre)
    /\ (replaced = false ->
        body' = body_of file ++ [row_str]
        /\ (allow_update = true ->
            Forall (fun ln => names_id row_id ln = false) (body_of file)))
    /\ (allow_update = false -> replaced = false).
Proof.
  intro H.
  destruct (apply_row_applied _ _ _ _ _ _ _ H)
    as (row_id & body' & Hacc & _ & -> & Hup).
  exists row_id, body'. split; [exact Hacc|]. split; [reflexivity|].
  destruct allow_update.
  - destruct (replace_first row_id row_str (body_of file)) as [b|] eqn:Er;
      destruct Hup as [-> ->].
    + split; [|split; [discriminate | discriminate]].
      intros _. split; [reflexivity|].
      destruct (replace_first_some _ _ _ _ Er)
        as (pre & old & post & Eb & E' & Hold & Hpre).
      now exists pre, old, post.
    + split; [discriminate|]. split; [|discriminate].
      intros _. split; [reflexivity|].
      intros _. exact (replace_first_none row_id row_str _ Er).
  - destruct Hup as [-> ->].
    split; [discriminate|]. split; [|reflexivity].
    intros _. split; [reflexivity | discriminate].
Qed.

(** A second row on a table that holds one. *)
Lemma applyconfig_keeps_lines_witness :
  exists body',
    write_lines [header_line; dir868; "firmware/x,a,b,,,256M,k,P,x"]
    = write_lines (header_line :: body')
    /\ body' = body_of (Content (write_lines [header_line; dir868]))
               ++ ["firmware/x,a,b,,,256M,k,P,x"].
Proof.
  destruct (applyconfig_keeps_lines "/emux/files/emux/firmware/devices"
              (Content (write_lines [header_line; dir868]))
              "firmware/x,a,b,,,256M,k,P,x"
              (write_lines
                 [header_line; dir868; "firmware/x,a,b,,,256M,k,P,x"])
              true false eq_refl)
    as (row_id & body' & _ & E & _ & Hf & _).
  exists body'. split; [exact E | exact (proj1 (Hf eq_refl))].
Defined.

End ApplyConfigFacts.

(** ** The ledger, read back by the history *)

Module HistoryFacts.
Import PyStr Logger FirmaeMcp Helpers Csv History.

(** The reader at the start of a field. *)
Local Abbreviation at_field fs :=
  {| state := START_FIELD; fields := fs; field := EmptyString |}.

Lemma feed_cons r c s :
  feed r (String c s)
  = bind (parse_process_char r (Some c)) (fun r' => feed r' s).
Proof. reflexivity. Qed.

(** In an unquoted field every character but the comma and the line
    breaks is taken as it is. *)
Lemma feed_unquoted s : forall fs f rest,
  any_chr (fun c => (Ascii.eqb c "," || is_crnl c)%bool) s = false ->
  feed {| state := IN_FIELD; fields := fs; field := f |} (s ++ rest)
  = feed {| state := IN_FIELD; fields := fs; field := (f ++ s)%string |}
      rest.
Proof.
  induction s as [|c s IH]; intros fs f rest H.
  - cbn [append]. now rewrite StrFacts.app_nil_r.
  - cbn [any_chr] in H. apply orb_false_iff in H. destruct H as [H1 H2].
    apply orb_false_iff in H1. destruct H1 as [H1 H3].
    change (String c s ++ rest)%string with (String c (s ++ rest)).
    rewrite feed_cons. cbn [parse_process_char state]. rewrite H3, H1.
    cbn [bind]. unfold parse_add_char. cbn [state fields field].
    rewrite (IH _ _ _ H2). now rewrite StrFacts.app_assoc.
Qed.

(** In a quoted field a doubled quote is one quote, and the quote
    that is not doubled ends the field. *)
Lemma feed_quoted f : forall fs g rest,
  feed {| state := IN_QUOTED_FIELD; fields := fs; field := g |}
    (double_quotes f ++ String DQUOTE rest)
  = feed {| state := QUOTE_IN_QUOTED_FIELD; fields := fs;
            field := (g ++ f)%string |} rest.
Proof.
  induction f as [|c f IH]; intros fs g rest.
  - cbn [double_quotes append]. rewrite feed_cons.
    cbn [parse_process_char state]. rewrite Ascii.eqb_refl. cbn [bind].
    unfold set_state. cbn [state fields field].
    now rewrite StrFacts.app_nil_r.
  - cbn [double_quotes]. destruct (Ascii.eqb_spec c DQUOTE) as [->|Hc].
    + change (String DQUOTE (String DQUOTE (double_quotes f))
              ++ String DQUOTE rest)%string
        with (String DQUOTE (String DQUOTE
                (double_quotes f ++ String DQUOTE rest))).
      rewrite feed_cons. cbn [parse_process_char state].
      rewrite Ascii.eqb_refl. cbn [bind]. unfold set_state.
      cbn [state fields field].
      rewrite feed_cons. cbn [parse_process_char state].
      rewrite Ascii.eqb_refl. cbn [bind].
      unfold parse_add_char, set_state. cbn [state fields field].
      rewrite IH. now rewrite StrFacts.app_assoc.
    + change (String c (double_quotes f) ++ String DQUOTE rest)%string
        with (String c (double_quotes f ++ String DQUOTE rest)).
      rewrite feed_cons. cbn [parse_process_char state].
      apply Ascii.eqb_neq in Hc. rewrite Hc. cbn [bind].
      unfold parse_add_char. cbn [state fields field].
      rewrite IH. now rewrite StrFacts.app_assoc.
Qed.

Lemma needs_quote_false c :
  needs_quote c = false ->
  Ascii.eqb c "," = false /\ Ascii.eqb c DQUOTE = false
  /\ is_crnl c = false.
Proof.
  unfold needs_quote, is_crnl. intro H.
  apply orb_false_iff in H. destruct H as [H H4].
  apply orb_false_iff in H. destruct H as [H H3].
  apply orb_false_iff in H. destruct H as [H1 H2].
  now rewrite H1, H2, H3, H4.
Qed.

Lemma needs_quote_unquoted s :
  any_chr needs_quote s = false ->
  any_chr (fun c => (Ascii.eqb c "," || is_crnl c)%bool) s = false.
Proof.
  induction s as [|c s IH]; intro H; [reflexivity|].
  cbn [any_chr] in *. apply orb_false_iff in H. destruct H as [H1 H2].
  destruct (needs_quote_false c H1) as (E1 & _ & E3).
  now rewrite E1, E3, IH.
Qed.

(** A field as the writer writes it, up to the point after it. *)
Lemma feed_field_start f fs rest :
  exists st,
    (st = IN_FIELD \/ st = QUOTE_IN_QUOTED_FIELD \/ (st = START_FIELD /\ f = EmptyString))
    /\ feed (at_field fs) (csv_field f ++ rest)
       = feed {| state := st; fields := fs; field := f |} rest.
Proof.
  unfold csv_field. destruct (any_chr needs_quote f) eqn:Hq.
  - exists QUOTE_IN_QUOTED_FIELD. split; [right; now left|].
    change (String DQUOTE (double_quotes f ++ String DQUOTE "") ++ rest)%string
      with (String DQUOTE ((double_quotes f ++ String DQUOTE "") ++ rest)).
    rewrite StrFacts.app_assoc.
    change (String DQUOTE "" ++ rest)%string with (String DQUOTE rest).
    rewrite feed_cons. cbn [parse_process_char state start_field].
    change (is_crnl DQUOTE) with false. cbv iota.
    rewrite Ascii.eqb_refl. cbn [bind]. unfold set_state.
    cbn [state fields field]. now rewrite feed_quoted.
  - destruct f as [|c f].
    + exists START_FIELD. split; [right; right; now split | reflexivity].
    + exists IN_FIELD. split; [now left|].
      cbn [any_chr] in Hq. apply orb_false_iff in Hq. destruct Hq as [H1 H2].
      destruct (needs_quote_false c H1) as (E1 & E2 & E3).
      change (String c f ++ rest)%string with (String c (f ++ rest)).
      rewrite feed_cons. cbn [parse_process_char state start_field].
      rewrite E3, E2, E1. cbn [bind].
      unfold parse_add_char, set_state. cbn [state fields field append].
      now rewrite (feed_unquoted f fs _ rest (needs_quote_unquoted f H2)).
Qed.

Lemma after_field_comma st fs f rest :
  st = IN_FIELD \/ st = QUOTE_IN_QUOTED_FIELD
  \/ (st = START_FIELD /\ f = EmptyString) ->
  feed {| state := st; fields := fs; field := f |} (String "," rest)
  = feed (at_field (fs ++ [f])) rest.
Proof.
  intros [->|[->|[-> ->]]]; reflexivity.
Qed.

Lemma after_field_end st fs f :
  st = IN_FIELD \/ st = QUOTE_IN_QUOTED_FIELD
  \/ (st = START_FIELD /\ f = EmptyString) ->
  feed {| state := st; fields := fs; field := f |} nl
  = Ok {| state := START_RECORD; fields := fs ++ [f];
          field := EmptyString |}.
Proof.
  intros [->|[->|[-> ->]]]; reflexivity.
Qed.

(** The reader reads a line of the writer as the fields that were
    written. *)
Lemma feed_row : forall cols fs,
  cols <> [] ->
  feed (at_field fs) (join "," (map csv_field cols) ++ nl)
  = Ok {| state := START_RECORD; fields := fs ++ cols;
          field := EmptyString |}.
Proof.
  unfold join.
  induction cols as [|f cols IH]; intros fs Hne; [now elim Hne|].
  destruct cols as [|g cols].
  - cbn [map String.concat].
    destruct (feed_field_start f fs nl) as (st & Hst & E).
    rewrite E. now apply after_field_end.
  - change (String.concat "," (map csv_field (f :: g :: cols)) ++ nl)%string
      with ((csv_field f ++ "," ++ String.concat "," (map csv_field (g :: cols)))
            ++ nl)%string.
    rewrite StrFacts.app_assoc.
    change (("," ++ String.concat "," (map csv_field (g :: cols))) ++ nl)%string
      with (String "," (String.concat "," (map csv_field (g :: cols)) ++ nl)).
    destruct (feed_field_start f fs
                (String "," (String.concat "," (map csv_field (g :: cols))
                             ++ nl))) as (st & Hst & E).
    rewrite E, (after_field_comma st fs f _ Hst).
    rewrite IH by discriminate. now rewrite <- app_assoc.
Qed.

Lemma feed_from_reset c s :
  is_crnl c = false ->
  feed parse_reset (String c s) = feed (at_field []) (String c s).
Proof.
  intro H. rewrite !feed_cons. cbn [parse_process_char state parse_reset].
  now rewrite H.
Qed.

Lemma csv_field_head f rest :
  exists c t,
    (csv_field f ++ String "," rest)%string = String c t
    /\ is_crnl c = false.
Proof.
  unfold csv_field. destruct (any_chr needs_quote f) eqn:Hq.
  - eexists _, _. split; reflexivity.
  - destruct f as [|c f].
    + eexists _, _. split; reflexivity.
    + cbn [any_chr] in Hq. apply orb_false_iff in Hq.
      destruct (needs_quote_false c (proj1 Hq)) as (_ & _ & E).
      exists c, (f ++ String "," rest)%string. now split.
Qed.

(** A record of at least two fields, read from the line that the
    writer made of it. *)
Lemma read_written_record f g cols rest :
  read_record parse_reset
    ((join "," (map csv_field (f :: g :: cols)) ++ nl)%string :: rest)
  = Ok (Some (f :: g :: cols, rest)).
Proof.
  cbn [read_record].
  assert (feed parse_reset (join "," (map csv_field (f :: g :: cols)) ++ nl)
          = feed (at_field [])
              (join "," (map csv_field (f :: g :: cols)) ++ nl)) as E.
  { unfold join.
    change (String.concat "," (map csv_field (f :: g :: cols)) ++ nl)%string
      with ((csv_field f ++ "," ++ String.concat "," (map csv_field (g :: cols)))
            ++ nl)%string.
    rewrite StrFacts.app_assoc.
    change (("," ++ String.concat "," (map csv_field (g :: cols))) ++ nl)%string
      with (String "," (String.concat "," (map csv_field (g :: cols)) ++ nl)).
    destruct (csv_field_head f
                (String.concat "," (map csv_field (g :: cols)) ++ nl))
      as (c & t & -> & Hc).
    now apply feed_from_reset. }
  rewrite E, feed_row by discriminate. reflexivity.
Qed.

Lemma read_all_written : forall rows fuel,
  Forall wide rows -> (List.length rows < fuel)%nat ->
  read_all fuel
    (map (fun cols => (join "," (map csv_field cols) ++ nl)%string) rows)
  = Ok rows.
Proof.
  induction rows as [|cols rows IH]; intros fuel Hw Hf.
  - destruct fuel; [cbn in Hf; lia | reflexivity].
  - destruct fuel as [|fuel]; [cbn in Hf; lia|].
    inversion Hw as [|? ? Hc Hrest]; subst.
    destruct cols as [|f [|g cols]]; try (unfold wide in Hc; cbn in Hc; lia).
    rewrite map_cons. cbn [read_all]. rewrite read_written_record.
    cbn [bind].
    rewrite IH; [reflexivity | exact Hrest | cbn in Hf; lia].
Qed.

(** The reader gives back the rows that the writer wrote, one row to
    a line. *)
Lemma csv_reader_written rows :
  Forall wide rows ->
  csv_reader
    (map (fun cols => (join "," (map csv_field cols) ++ nl)%string) rows)
  = Ok rows.
Proof.
  intro H. unfold csv_reader. apply read_all_written; [exact H|].
  rewrite length_map. lia.
Qed.

Lemma ledger_text_app rows r :
  ledger_text (rows ++ [r])
  = (ledger_text rows ++ csv_line (row_fields r))%string.
Proof.
  induction rows as [|x rows IH]; cbn [app ledger_text].
  - now rewrite StrFacts.app_nil_r.
  - now rewrite IH, StrFacts.app_assoc.
Qed.

Section ReadBack.

Variable float_nonzero : string -> option bool.

(** What is known of the rows that were appended and of the file. *)
Lemma appended_shape rows csv :
  appended float_nonzero rows csv ->
  written_by_append float_nonzero (List.length rows) csv
  /\ Forall well_formed rows
  /\ Forall (fun r => (number r <= Z.of_nat (List.length rows))%Z) rows
  /\ csv = match rows with
           | [] => NoFile
           | _ :: _ => Text (csv_line header ++ ledger_text rows)
           end.
Proof.
  induction 1 as [|rows csv latest fw brand_arg exit_code A IH P].
  - repeat split; constructor.
  - destruct IH as (W & G & B & E).
    set (a := append_emulation_record float_nonzero latest csv fw brand_arg
                exit_code) in *.
    destruct (LoggerFacts.ledger_append float_nonzero _ csv latest fw
                brand_arg exit_code
                (LoggerFacts.written_ledger float_nonzero _ _ W) P)
      as [Hn _]. fold a in Hn.
    destruct (LoggerFacts.append_row float_nonzero latest csv fw brand_arg
                exit_code) as (_ & Fp & Fw & Fr). fold a in Fp, Fw, Fr.
    pose proof (LoggerFacts.append_file float_nonzero latest csv fw
                  brand_arg exit_code) as Hf. fold a in Hf. cbv zeta in Hf.
    rewrite length_app. cbn [List.length].
    replace (List.length rows + 1)%nat with (S (List.length rows)) by lia.
    split; [now apply wba_append|].
    split.
    { apply Forall_app. split; [exact G|].
      constructor; [|constructor].
      split; [lia|]. split; [exact Fp|]. split; [exact Fw|].
      split; [exact Fr | exact P]. }
    split.
    + apply Forall_app. split.
      * eapply Forall_impl; [|exact B]. intros r Hr. cbv beta in Hr. lia.
      * constructor; [lia | constructor].
    + rewrite Hf, E. destruct rows as [|x rows]; cbn [app].
      * cbn [ledger_text]. now rewrite StrFacts.app_nil_r.
      * change (x :: rows ++ [fst a]) with ((x :: rows) ++ [fst a]).
        rewrite ledger_text_app. now rewrite StrFacts.app_assoc.
Qed.

Lemma well_formed_line r :
  well_formed r -> line_free (row_line r).
Proof.
  intros (Hn & Fp & Fw & Fr & P).
  destruct (number r) as [|p|p] eqn:E; try lia.
  now destruct (LoggerFacts.row_line_shape r p E Fp Fw Fr P).
Qed.

(** The lines of a ledger, as a file opened in text mode gives
    them. *)
Lemma readlines_ledger rows :
  Forall well_formed rows ->
  readlines_acc EmptyString (ledger_text rows)
  = map (fun cols => (join "," (map csv_field cols) ++ nl)%string)
      (map row_fields rows).
Proof.
  induction 1 as [|r rows Hr _ IH]; [reflexivity|].
  cbn [ledger_text map]. rewrite LoggerFacts.csv_line_row.
  rewrite StrFacts.app_assoc.
  rewrite (LoggerFacts.readlines_plain (row_line r) EmptyString _
             (well_formed_line r Hr)).
  now rewrite IH.
Qed.

Lemma read_ledger rows :
  Forall well_formed rows ->
  dict_reader (readlines (csv_line header ++ ledger_text rows))
  = Ok (map record_of rows).
Proof.
  intro G. unfold readlines.
  change (csv_line header) with (row_line_of header ++ CRLF)%string.
  rewrite StrFacts.app_assoc.
  rewrite (LoggerFacts.readlines_plain (row_line_of header) EmptyString _
             eq_refl).
  rewrite (readlines_ledger rows G).
  change ((EmptyString ++ row_line_of header ++ nl)%string
          :: map (fun cols => (join "," (map csv_field cols) ++ nl)%string)
               (map row_fields rows))
    with (map (fun cols => (join "," (map csv_field cols) ++ nl)%string)
            (header :: map row_fields rows)).
  unfold dict_reader. rewrite csv_reader_written.
  - cbn [bind]. f_equal. clear G.
    induction rows as [|r rows IH]; [reflexivity|].
    cbn [map filter]. unfold row_fields at 1. cbn [is_empty_row negb].
    cbn [map]. now rewrite IH.
  - constructor; [unfold wide; cbn; lia|].
    apply Forall_forall. intros cols Hc. apply in_map_iff in Hc.
    destruct Hc as (r & <- & _). unfold wide, row_fields. cbn. lia.
Qed.


Lemma record_num r : well_formed r -> num (record_of r) = number r.
Proof.
  intros (Hn & _). unfold num, record_of. cbn [r_number or_empty].
  destruct (number r) as [|p|p]; try lia.
  destruct (LoggerFacts.str_pos_digits p) as (_ & c & rest & E & _).
  rewrite (LoggerFacts.py_int_str p). now rewrite E.
Qed.

(** A row with the greatest number goes to the front. *)
Lemma sort_desc_snoc x : forall l,
  Forall (fun y => (num y < num x)%Z) l ->
  sort_desc (l ++ [x]) = x :: sort_desc l.
Proof.
  induction 1 as [|y l Hy _ IH]; [reflexivity|].
  cbn [app sort_desc]. rewrite IH. cbn [insert_desc].
  replace (num x <=? num y)%Z with false
    by (symmetry; apply Z.leb_gt; exact Hy).
  reflexivity.
Qed.

Lemma appended_newest_first rows csv :
  appended float_nonzero rows csv ->
  sort_desc (map record_of rows) = rev (map record_of rows).
Proof.
  induction 1 as [|rows csv latest fw brand_arg exit_code A IH P];
    [reflexivity|].
  set (a := append_emulation_record float_nonzero latest csv fw brand_arg
              exit_code) in *.
  destruct (appended_shape rows csv A) as (W & G & B & _).
  destruct (appended_shape _ _ (ap_more float_nonzero rows csv latest fw
                                 brand_arg exit_code A P))
    as (_ & G' & _ & _). fold a in G'.
  apply Forall_app in G'. destruct G' as [_ Ga]. inversion Ga; subst.
  destruct (LoggerFacts.ledger_append float_nonzero _ csv latest fw
              brand_arg exit_code
              (LoggerFacts.written_ledger float_nonzero _ _ W) P)
    as [Hn _]. fold a in Hn.
  rewrite map_app. cbn [map]. rewrite rev_app_distr. cbn [rev app].
  rewrite sort_desc_snoc; [now rewrite IH|].
  apply Forall_map.
  apply Forall_forall. intros r Hr.
  rewrite (record_num r (proj1 (Forall_forall _ _) G r Hr)).
  rewrite (record_num (fst a)) by assumption.
  pose proof (proj1 (Forall_forall _ _) B r Hr) as Hb. cbv beta in Hb. lia.
Qed.


End ReadBack.



End HistoryFacts.

(** ** From the suggested row to the devices table *)

Module SuggestionFacts.
Import PyStr Logger FirmaeMcp Helpers Csv EmuxDetect ApplyConfig.

(** No comma, quote or line break. *)
Local Abbreviation plain s := (any_chr needs_quote s = false).

Lemma after_field_eol st fs f :
  st = IN_FIELD \/ st = QUOTE_IN_QUOTED_FIELD
  \/ (st = START_FIELD /\ f = EmptyString) ->
  feed {| state := st; fields := fs; field := f |} EmptyString
  = Ok {| state := START_RECORD; fields := fs ++ [f];
          field := EmptyString |}.
Proof.
  intros [->|[->|[-> ->]]]; reflexivity.
Qed.

(** A line of fields without its line end reads as the fields. *)
Lemma feed_row_eol : forall cols fs,
  cols <> [] ->
  feed {| state := START_FIELD; fields := fs; field := EmptyString |}
    (join "," (map csv_field cols))
  = Ok {| state := START_RECORD; fields := fs ++ cols;
          field := EmptyString |}.
Proof.
  unfold join.
  induction cols as [|f cols IH]; intros fs Hne; [now elim Hne|].
  destruct cols as [|g cols].
  - cbn [map String.concat].
    rewrite <- (StrFacts.app_nil_r (csv_field f)).
    destruct (HistoryFacts.feed_field_start f fs EmptyString)
      as (st & Hst & E).
    rewrite E. now apply after_field_eol.
  - change (String.concat "," (map csv_field (f :: g :: cols)))
      with (csv_field f
            ++ String "," (String.concat "," (map csv_field (g :: cols))))%string.
    destruct (HistoryFacts.feed_field_start f fs
                (String "," (String.concat "," (map csv_field (g :: cols)))))
      as (st & Hst & E).
    rewrite E, (HistoryFacts.after_field_comma st fs f _ Hst).
    rewrite IH by discriminate. now rewrite <- app_assoc.
Qed.

Lemma csv_field_plain f : plain f -> csv_field f = f.
Proof. intro H. unfold csv_field. now rewrite H. Qed.

Lemma map_csv_field_plain cols :
  Forall (fun f => plain f) cols -> map csv_field cols = cols.
Proof.
  induction 1 as [|f cols Hf _ IH]; [reflexivity|].
  cbn [map]. now rewrite (csv_field_plain f Hf), IH.
Qed.

(** A row of two or more plain fields, joined by commas, reads as
    its fields. *)
Lemma csv_row_plain f g cols :
  Forall (fun x => plain x) (f :: g :: cols) ->
  csv_row (join "," (f :: g :: cols)) = Ok (f :: g :: cols).
Proof.
  intro H. rewrite <- (map_csv_field_plain _ H) at 1.
  unfold csv_row. cbn [read_record].
  assert (feed parse_reset (join "," (map csv_field (f :: g :: cols)))
          = feed {| state := START_FIELD; fields := [];
                    field := EmptyString |}
              (join "," (map csv_field (f :: g :: cols)))) as E.
  { unfold join.
    change (String.concat "," (map csv_field (f :: g :: cols)))
      with (csv_field f
            ++ String "," (String.concat "," (map csv_field (g :: cols))))%string.
    destruct (HistoryFacts.csv_field_head f
                (String.concat "," (map csv_field (g :: cols))))
      as (c & t & -> & Hc).
    now apply HistoryFacts.feed_from_reset. }
  rewrite E, feed_row_eol by discriminate. reflexivity.
Qed.

Lemma strip_keeps_head c t :
  is_space c = false -> exists u, strip (String c t) = String c u.
Proof.
  intro H. unfold strip, strip_of. cbn [lstrip_of]. rewrite H.
  now apply FlagFacts.rstrip_head.
Qed.

Lemma strip_solid s :
  (exists c t, s = String c t /\ is_space c = false) -> ends_solid s ->
  strip s = s.
Proof.
  intros (c & t & -> & Hc) (pre & x & E & Hx).
  unfold strip, strip_of. cbn [lstrip_of]. rewrite Hc.
  rewrite E. now apply LoggerFacts.rstrip_ends_solid.
Qed.

(** A row that is accepted is applied, where the table can be read
    and written. *)
Lemma accepted_applied path file row_str row_id allow_update :
  accepted row_str row_id -> (forall e, file <> ReadError e) ->
  exists content replaced,
    apply_row path file None row_str allow_update
    = Applied content replaced.
Proof.
  intros (c0 & rest & Hrow & Hlen & -> & Ht) Hfile.
  unfold apply_row. rewrite Hrow.
  rewrite length_map, Hlen, Nat.eqb_refl. cbn [negb map hd]. rewrite Ht.
  cbn [negb].
  destruct file as [|e|text]; [|now elim (Hfile e)|].
  - destruct allow_update; cbn [replace_first tl];
      eexists _, _; reflexivity.
  - destruct allow_update.
    + destruct (replace_first _ _ _); eexists _, _; reflexivity.
    + eexists _, _; reflexivity.
Qed.

(** X30: the row that [emux.emuxbuild] suggests can be handed to
    [emux.applyconfig] as it is.  When the folder name, the kernel
    file name and the model hold no comma, quote or line break, the
    suggestion reads as nine columns and its ID is
    [firmware/<folder>], stripped; with a model that does not end in white
    space it is applied, as an update or as a new row, to every
    table that can be read and written. *)
Theorem suggestion_is_accepted (dest_dir kernel_filename model : string)
  (path : string) (file : devices_file)
  (fields : option (list (string * option string))) (allow_update : bool) :
  plain (basename dest_dir) -> plain kernel_filename -> plain model ->
  ends_solid model -> (forall e, file <> ReadError e) ->
  accepted (_infer_device_suggestion dest_dir kernel_filename model)
    (strip (device_id dest_dir))
  /\ exists content replaced,
       emux_applyconfig path file None
         (_infer_device_suggestion dest_dir kernel_filename model)
         fields allow_update
       = Applied content replaced.
Proof.
  intros Hd Hk Hm Hs Hfile.
  set (d := infer kernel_filename model).
  assert (_infer_device_suggestion dest_dir kernel_filename model
          = join ","
              [device_id dest_dir; qemu_binary d; machine_type d; cpu_type d;
               dtb d; memory d; kernel_image d; qemuopts d; description d])
    as Erow by reflexivity.
  assert (plain (device_id dest_dir)) as Hid
      by (unfold device_id; rewrite StrFacts.any_chr_app, Hd; reflexivity).
  assert (Forall (fun x => plain x)
            [device_id dest_dir; qemu_binary d; machine_type d; cpu_type d;
             dtb d; memory d; kernel_image d; qemuopts d; description d])
    as Hplain.
  { constructor; [exact Hid|].
    destruct (EmuxDetectFacts.device_row_shape dest_dir kernel_filename model)
      as (Hall & Hc & Hdtb & Hmem & Hki & Hdesc & _). fold d in Hall, Hc,
      Hdtb, Hmem, Hki, Hdesc.
    rewrite Hc, Hdtb, Hmem, Hki, Hdesc.
    assert (plain (qemu_binary d) /\ plain (machine_type d)
            /\ plain (qemuopts d)) as (P1 & P2 & P3).
    { unfold d, infer.
      set (k := py_lower kernel_filename).
      set (z := startswith "zImage" kernel_filename).
      set (v := startswith "vmlinux" kernel_filename).
      cbv zeta.
      repeat EmuxDetectFacts.split_condition;
        cbn [qemu_binary machine_type qemuopts]; repeat split. }
    repeat (constructor; [first [reflexivity | assumption]|]).
    constructor. }
  assert (accepted (_infer_device_suggestion dest_dir kernel_filename model)
            (strip (device_id dest_dir))) as Hacc.
  { rewrite Erow. exists (device_id dest_dir), [qemu_binary d; machine_type d;
      cpu_type d; dtb d; memory d; kernel_image d; qemuopts d; description d].
    split; [now apply csv_row_plain|]. split; [reflexivity|].
    split; [reflexivity|].
    destruct (strip_keeps_head "f" ("irmware/" ++ basename dest_dir)
                eq_refl) as [u Eu].
    unfold device_id.
    change ("firmware/" ++ basename dest_dir)%string
      with (String "f" ("irmware/" ++ basename dest_dir)).
    now rewrite Eu. }
  split; [exact Hacc|].
  unfold emux_applyconfig.
  assert (strip (_infer_device_suggestion dest_dir kernel_filename model)
          = _infer_device_suggestion dest_dir kernel_filename model) as Es.
  { apply strip_solid.
    - now exists "f"%char,
        ("irmware/" ++ basename dest_dir ++ "," ++ qemu_binary d ++ ","
         ++ machine_type d ++ "," ++ cpu_type d ++ "," ++ dtb d ++ ","
         ++ memory d ++ "," ++ kernel_image d ++ "," ++ qemuopts d ++ ","
         ++ description d)%string.
    - unfold _infer_device_suggestion. fold d.
      repeat (apply LoggerFacts.ends_solid_app).
      destruct (EmuxDetectFacts.device_row_shape dest_dir kernel_filename
                  model) as (_ & _ & _ & _ & _ & Hdesc & _).
      fold d in Hdesc. now rewrite Hdesc. }
  rewrite Es. unfold _infer_device_suggestion at 1. cbn [truthy append].
  now apply (accepted_applied path file _ (strip (device_id dest_dir))).
Qed.

(** The suggestion for a D-Link model with a RealView kernel, on a
    table that does not exist yet. *)
Lemma suggestion_is_accepted_witness :
  accepted
    (_infer_device_suggestion "/emux/files/emux/firmware/DIR-868L"
       "zImage-2.6.31.14-realview-rv130-nothumb" "DIR-868L")
    (strip (device_id "/emux/files/emux/firmware/DIR-868L"))
  /\ exists content replaced,
       emux_applyconfig "/emux/files/emux/firmware/devices" Absent None
         (_infer_device_suggestion "/emux/files/emux/firmware/DIR-868L"
            "zImage-2.6.31.14-realview-rv130-nothumb" "DIR-868L")
         None true
       = Applied content replaced.
Proof.
  apply (suggestion_is_accepted "/emux/files/emux/firmware/DIR-868L"
           "zImage-2.6.31.14-realview-rv130-nothumb" "DIR-868L"
           "/emux/files/emux/firmware/devices" Absent None true);
    [reflexivity | reflexivity | reflexivity
    | exists "DIR-868", "L"%char; split; reflexivity
    | discriminate].
Defined.

End SuggestionFacts.
